(** * cdiff patch analyzers: a shallow embedding of
      [tools/analyze_patch.py] (v1.0) and [tools/analyze_patch_saving.py] (v2.0.0)

    Python strings are sequences of Unicode code points; a code point is a
    natural number [N], a string a [list N].  Byte sizes are the lengths of
    the UTF-8 encoding, as [len(line.encode('utf-8'))] computes them.
    Python integers are [Z].  Dictionaries are [gmap]s, sets are [gset]s.

    Each analyzer is one function that reads a file, loops over its lines
    and prints a report.  The model keeps the loop ([step], [loop]) and the
    numbers and the table rows the report derives from the final state; the
    formatting of the printed text is left out.
    The regular expressions are written with combinators that follow the
    backtracking matcher of [re]. *)

From Stdlib Require Import ZArith NArith List Ascii String Lia Bool.
From Stdlib Require QArith.
From stdpp Require Import gmap list fin_sets.

Local Open Scope Z_scope.

(* ===================================================================== *)
(** ** Strings and their UTF-8 size *)
(* ===================================================================== *)

Abbreviation chr := N (only parsing).
Abbreviation str := (list N) (only parsing).

(** An ASCII literal as a Python string. *)
Definition py (s : string) : str :=
  map N_of_ascii (list_ascii_of_string s).

(** Number of bytes of one code point in UTF-8. *)
Definition utf8_len_chr (c : chr) : Z :=
  if (c <? 128)%N then 1
  else if (c <? 2048)%N then 2
  else if (c <? 65536)%N then 3
  else 4.

(** [len(s.encode('utf-8'))] *)
Fixpoint utf8_len (s : str) : Z :=
  match s with
  | [] => 0
  | c :: s' => utf8_len_chr c + utf8_len s'
  end.

(** [len(s)]: the number of code points. *)
Definition len (s : str) : Z := Z.of_nat (length s).

Definition LF : chr := 10%N.
Definition CR : chr := 13%N.
Definition TILDE : chr := 126%N.
Definition AT : chr := 64%N.
Definition HASH : chr := 35%N.
Definition SPACE : chr := 32%N.
Definition TAB : chr := 9%N.
Definition BACKSLASH : chr := 92%N.

(** [s.rstrip('\n')]: every trailing line feed is removed. *)
Fixpoint rstrip_nl (s : str) : str :=
  match s with
  | [] => []
  | c :: s' =>
      match rstrip_nl s' with
      | [] => if (c =? LF)%N then [] else [c]
      | r => c :: r
      end
  end.

(** [s.startswith(p)] *)
Fixpoint startswith (p s : str) : bool :=
  match p, s with
  | [], _ => true
  | a :: p', b :: s' => (a =? b)%N && startswith p' s'
  | _ :: _, [] => false
  end.

(** Text mode with [newline=None]: on input, the line endings CR LF and CR
    are translated into LF before the text reaches the caller. *)
Fixpoint universal_newlines (s : str) : str :=
  match s with
  | [] => []
  | c :: s' =>
      if (c =? CR)%N then
        match s' with
        | d :: s'' => if (d =? LF)%N then universal_newlines s'
                      else LF :: universal_newlines s'
        | [] => [LF]
        end
      else c :: universal_newlines s'
  end.

(** [f.readlines()] on the translated text: the text is cut after every line
    feed, and each line keeps its terminator; a last line without one is kept
    too. *)
Fixpoint readlines_aux (cur : str) (s : str) : list str :=
  match s with
  | [] => match cur with [] => [] | _ => [rev cur] end
  | c :: s' =>
      if (c =? LF)%N then rev (c :: cur) :: readlines_aux [] s'
      else readlines_aux (c :: cur) s'
  end.

Definition readlines (text : str) : list str :=
  readlines_aux [] (universal_newlines text).

(* ===================================================================== *)
(** ** Character classes of Python's [re] on [str] patterns *)
(* ===================================================================== *)

(** The classes [\w], [\d] and [\s] of a [str] pattern follow the Unicode
    database.  Their ASCII range is written out below; what the database says
    about the code points from 128 on is a parameter of the development. *)
Record unicode := {
  (** [str.isalnum] on a code point >= 128 *)
  uni_alnum : N -> bool;
  (** the value of a decimal digit (category Nd) >= 128, as [int] reads it *)
  uni_decimal : N -> option Z;
  (** [str.isspace] on a code point >= 128 *)
  uni_space : N -> bool;
  uni_decimal_range : forall c d, uni_decimal c = Some d -> 0 <= d <= 9;
}.

(** The database restricted to ASCII: no code point from 128 on is in a class. *)
Definition ascii_only : unicode.
Proof.
  refine {| uni_alnum := fun _ => false;
            uni_decimal := fun _ => None;
            uni_space := fun _ => false |}; intros; congruence.
Defined.

Definition in_range (lo hi c : N) : bool := ((lo <=? c) && (c <=? hi))%N.

Definition ascii_digit (c : chr) : bool := in_range 48 57 c.
Definition ascii_alnum (c : chr) : bool :=
  in_range 48 57 c || in_range 65 90 c || in_range 97 122 c.
(** [_Py_ascii_whitespace]: TAB LF VT FF CR, FS GS RS US, and the space. *)
Definition ascii_space (c : chr) : bool :=
  in_range 9 13 c || in_range 28 31 c || (c =? 32)%N.

Section Classes.
Context (U : unicode).

(** [\d] *)
Definition is_digit (c : chr) : bool :=
  if (c <? 128)%N then ascii_digit c
  else match uni_decimal U c with Some _ => true | None => false end.

(** [\w]: alphanumeric or the underscore. *)
Definition is_word (c : chr) : bool :=
  if (c <? 128)%N then ascii_alnum c || (c =? 95)%N
  else uni_alnum U c.

(** [\s] *)
Definition is_space (c : chr) : bool :=
  if (c <? 128)%N then ascii_space c else uni_space U c.

(** [[\w\d]] *)
Definition is_word_or_digit (c : chr) : bool := is_word c || is_digit c.

(** [[\w\d,-]] *)
Definition is_word_digit_comma_dash (c : chr) : bool :=
  is_word c || is_digit c || (c =? 44)%N || (c =? 45)%N.

(** The value of one decimal digit. *)
Definition digit_value (c : chr) : Z :=
  if (c <? 128)%N then Z.of_N c - 48
  else match uni_decimal U c with Some d => d | None => 0 end.

(** [int(s)] on a string of decimal digits (what [\d+] captured).  Python
    integers are unbounded; the limit that recent CPython versions put on the
    number of digits [int] converts (4300 by default) is not modelled. *)
Definition int_of_digits (s : str) : Z :=
  fold_left (fun acc c => acc * 10 + digit_value c) s 0.

End Classes.

Definition is_chr (a : chr) (c : chr) : bool := (c =? a)%N.
(** [.] without [re.DOTALL]: anything but a line feed. *)
Definition not_newline (c : chr) : bool := negb (c =? LF)%N.
(** [.] under [re.DOTALL]. *)
Definition any_chr (c : chr) : bool := true.

(* ===================================================================== *)
(** ** Regular-expression combinators

    A pattern is matched against the front of the input and hands what is
    left to a continuation; a continuation that fails makes the pattern try
    its next alternative, in the order Python's backtracking matcher tries
    them (a greedy repetition gives characters back one at a time). *)
(* ===================================================================== *)

Section Regex.
Context {A : Type}.

(** One character of class [p]. *)
Definition re_chr (p : chr -> bool) (k : chr -> str -> option A) (s : str)
  : option A :=
  match s with
  | c :: s' => if p c then k c s' else None
  | [] => None
  end.

(** [p+], greedy: the continuation gets the run that was matched. *)
Fixpoint re_plus (p : chr -> bool) (k : str -> str -> option A) (s : str)
  : option A :=
  match s with
  | c :: s' =>
      if p c then
        match re_plus p (fun run => k (c :: run)) s' with
        | Some a => Some a
        | None => k [c] s'
        end
      else None
  | [] => None
  end.

(** [p*], greedy. *)
Definition re_star (p : chr -> bool) (k : str -> str -> option A) (s : str)
  : option A :=
  match re_plus p k s with
  | Some a => Some a
  | None => k [] s
  end.

(** [r1|r2] *)
Definition re_alt (r1 r2 : str -> option A) (s : str) : option A :=
  match r1 s with
  | Some a => Some a
  | None => r2 s
  end.

(** [$] without [re.MULTILINE]: the end of the string, or just before a line
    feed that ends the string. *)
Definition re_end (a : A) (s : str) : option A :=
  match s with
  | [] => Some a
  | [c] => if (c =? LF)%N then Some a else None
  | _ => None
  end.

(** [pattern.findall(s)] for a pattern that never matches the empty string:
    the matches are searched from left to right and do not overlap.  The
    matcher [m] returns the reported group and the text after the match;
    [skip] counts the characters of the last match still to be passed over. *)
Fixpoint findall_from (m : str -> option (A * str)) (skip : nat) (s : str)
  : list A :=
  match s with
  | [] => []
  | c :: s' =>
      match skip with
      | S n => findall_from m n s'
      | O =>
          match m s with
          | Some (a, rest) =>
              a :: findall_from m (length s' - length rest)%nat s'
          | None => findall_from m 0 s'
          end
      end
  end.

Definition findall (m : str -> option (A * str)) (s : str) : list A :=
  findall_from m 0 s.

End Regex.

Definition is_some {A} (o : option A) : bool :=
  match o with Some _ => true | None => false end.

(* ===================================================================== *)
(** ** Base58 (both files define it alike) *)
(* ===================================================================== *)

Definition BASE58_ALPHABET : str :=
  py "123456789ABCDEFGHJKLMNPQRSTUVWXYZabcdefghijkmnopqrstuvwxyz".

(** [{char: index for index, char in enumerate(alphabet)}]: a later entry
    overwrites an earlier one with the same key. *)
Fixpoint enumerate_map (index : Z) (alphabet : str) (m : gmap N Z) : gmap N Z :=
  match alphabet with
  | [] => m
  | char :: rest => enumerate_map (index + 1) rest (<[char := index]> m)
  end.

Definition BASE58_MAP : gmap N Z := enumerate_map 0 BASE58_ALPHABET ∅.

Definition BASE : Z := len BASE58_ALPHABET.

(** The values [decodeBase58] can be handed: a string or something else. *)
Inductive pyobj :=
| PyStr (s : str)
| PyNone
| PyBool (b : bool)
| PyInt (z : Z)
| PyBytes (b : list N).

(** Truth value of an object, as [not encoded] tests it. *)
Definition truthy (o : pyobj) : bool :=
  match o with
  | PyStr s => match s with [] => false | _ => true end
  | PyNone => false
  | PyBool b => b
  | PyInt z => negb (z =? 0)
  | PyBytes b => match b with [] => false | _ => true end
  end.

(** [isinstance(o, str)] *)
Definition isinstance_str (o : pyobj) : bool :=
  match o with PyStr _ => true | _ => false end.

(** The loop [for char in reversed(encoded)], on the reversed characters. *)
Fixpoint decode_loop (chars : str) (decoded multi : Z) : Z :=
  match chars with
  | [] => decoded
  | char :: rest =>
      match BASE58_MAP !! char with
      | None => -1
      | Some digit => decode_loop rest (decoded + digit * multi) (multi * BASE)
      end
  end.

Definition decodeBase58 (encoded : pyobj) : Z :=
  if negb (truthy encoded) || negb (isinstance_str encoded) then -1
  else match encoded with
       | PyStr s => decode_loop (rev s) 0 1
       | _ => -1
       end.

(** The decoded value as the specification words it: from the rightmost
    character leftward, the index of the character in the alphabet times 58
    to the power of its position from the right. *)
Fixpoint index_in (c : chr) (alphabet : str) : option Z :=
  match alphabet with
  | [] => None
  | a :: rest =>
      if (c =? a)%N then Some 0
      else match index_in c rest with
           | Some i => Some (i + 1)
           | None => None
           end
  end.

Definition base58_index (c : chr) : Z :=
  match index_in c BASE58_ALPHABET with Some i => i | None => 0 end.

Definition in_alphabet (c : chr) : bool := is_some (index_in c BASE58_ALPHABET).

(** [chars] is read from the right: its last character has position 0. *)
Fixpoint positional_sum (reversed : str) (position : Z) : Z :=
  match reversed with
  | [] => 0
  | c :: rest => base58_index c * 58 ^ position + positional_sum rest (position + 1)
  end.

Definition base58_value (s : str) : Z := positional_sum (rev s) 0.

(* ===================================================================== *)
(** ** The patterns both analyzers compile *)
(* ===================================================================== *)

Section Patterns.
Context (U : unicode).

(** [def_regex.match(line)], the pattern being "^(@[\w\d]+)\s" followed by a
    second group ".*" and "$", compiled with [re.DOTALL]: the groups 1 and 2. *)
Definition def_regex (line : str) : option (str * str) :=
  re_chr (is_chr AT) (fun at_sign =>
  re_plus (is_word_or_digit U) (fun id =>
  re_chr (is_space U) (fun _ =>
  re_star any_chr (fun content =>
  re_end (at_sign :: id, content))))) line.

(** The pattern "^([\w\d]+)\s+([AD]\+)\s+(\d+)$", with [match]: the groups 1, 2, 3. *)
Definition block_header_regex (line : str) : option (str * str * str) :=
  re_plus (is_word_or_digit U) (fun g1 =>
  re_plus (is_space U) (fun _ =>
  re_chr (fun c => is_chr 65 c || is_chr 68 c) (fun ad =>
  re_chr (is_chr 43) (fun plus =>
  re_plus (is_space U) (fun _ =>
  re_plus (is_digit U) (fun g3 =>
  re_end (g1, [ad; plus], g3))))))) line.

(** The pattern "#(\d+)\s": group 1 and the text after the match. *)
Definition literal_gap_regex (s : str) : option (str * str) :=
  re_chr (is_chr HASH) (fun _ =>
  re_plus (is_digit U) (fun digits =>
  re_chr (is_space U) (fun _ rest => Some (digits, rest)))) s.

(** [re.match] of "^[\w\d,-]+\s+[ad].*$" *)
Definition command_ad_regex (line : str) : option unit :=
  re_plus (is_word_digit_comma_dash U) (fun _ =>
  re_plus (is_space U) (fun _ =>
  re_chr (fun c => is_chr 97 c || is_chr 100 c) (fun _ =>
  re_star not_newline (fun _ =>
  re_end tt)))) line.

(** [re.match] of "^[\w\d,-]+\s+[MR].*$" *)
Definition command_MR_regex (line : str) : option unit :=
  re_plus (is_word_digit_comma_dash U) (fun _ =>
  re_plus (is_space U) (fun _ =>
  re_chr (fun c => is_chr 77 c || is_chr 82 c) (fun _ =>
  re_star not_newline (fun _ =>
  re_end tt)))) line.

(** [len(f"#{gap_len_str} ")]: a count of characters. *)
Definition gap_header_len (gap_len_str : str) : Z :=
  len (HASH :: gap_len_str ++ [SPACE]).

End Patterns.

(** [a / b * 100] for integers [a] and [b]: Python computes it in floating
    point; the model keeps the exact quotient, of which the float is the
    rounding. *)
Definition percent (a b : Z) : QArith_base.Q :=
  QArith_base.Qmult
    (QArith_base.Qdiv (QArith_base.inject_Z a) (QArith_base.inject_Z b))
    (QArith_base.inject_Z 100).

(** [used_vars_count[var] += 1] on a [defaultdict(int)]. *)
Definition count_usage (var : str) (used : gmap str Z) : gmap str Z :=
  <[var := default 0 (used !! var) + 1]> used.

(* ===================================================================== *)
(** ** The table of the most used variables (both files build it alike) *)
(* ===================================================================== *)

(** [s.replace(old, new)] for an [old] of one character. *)
Definition replace_chr (old : chr) (new : str) (s : str) : str :=
  flat_map (fun c => if (c =? old)%N then new else [c]) s.

(** [(content[:40] + '...') if len(content) > 40 else content], and then
    [.replace('\t', '\\t').replace('\r', '\\r')]: a tab becomes a backslash
    and the letter t, a carriage return a backslash and the letter r. *)
Definition content_display (content : str) : str :=
  let content_display :=
    if 40 <? len content then take 40 content ++ py "..." else content in
  replace_chr CR (BACKSLASH :: py "r")
    (replace_chr TAB (BACKSLASH :: py "t") content_display).

(** [sorted(items, key=lambda item: item[1], reverse=True)].  Python's sort
    is stable, also under [reverse=True]: the items come out by decreasing
    count, and items of equal count keep the order they had.  There is one
    such arrangement of a list; the model builds it by insertion. *)
Fixpoint insert_item (item : str * Z) (sorted : list (str * Z))
  : list (str * Z) :=
  match sorted with
  | [] => [item]
  | other :: rest =>
      if snd other <=? snd item then item :: sorted
      else other :: insert_item item rest
  end.

Definition sorted_usage (items : list (str * Z)) : list (str * Z) :=
  foldr insert_item [] items.

(* ===================================================================== *)
(** ** [tools/analyze_patch.py]: the v1.0 analyzer *)
(* ===================================================================== *)

Module V1.

(** The integer entries of the [stats] dictionary, by key. *)
Inductive key :=
| total_lines | total_size_b
| definition_lines | definition_size_b | definition_at_overhead_b
| command_lines | command_size_b | command_at_overhead_b
| literal_gap_overhead_b | block_prefix_overhead_b
| other_lines | other_size_b.

Definition key_index (k : key) : nat :=
  match k with
  | total_lines => 0 | total_size_b => 1
  | definition_lines => 2 | definition_size_b => 3
  | definition_at_overhead_b => 4
  | command_lines => 5 | command_size_b => 6 | command_at_overhead_b => 7
  | literal_gap_overhead_b => 8 | block_prefix_overhead_b => 9
  | other_lines => 10 | other_size_b => 11
  end%nat.

(** [stats[k] += d] *)
Definition bump (k : key) (d : Z) (stats : key -> Z) : key -> Z :=
  fun k' => if (key_index k' =? key_index k)%nat then stats k' + d else stats k'.

(** [stats[k] = v] *)
Definition put (k : key) (v : Z) (stats : key -> Z) : key -> Z :=
  fun k' => if (key_index k' =? key_index k)%nat then v else stats k'.

(** What the loop of [analyze_patch] reads and writes. *)
Record state := {
  stats : key -> Z;
  compression_flag : bool;            (* stats['compression_flag'] *)
  defined_vars : gmap str str;        (* {var_name: content} *)
  used_vars_count : gmap str Z;       (* {var_name: count} *)
  in_block : bool;
  block_lines_remaining : Z;
}.

Definition with_stats (f : (key -> Z) -> key -> Z) (st : state) : state :=
  {| stats := f (stats st); compression_flag := compression_flag st;
     defined_vars := defined_vars st; used_vars_count := used_vars_count st;
     in_block := in_block st;
     block_lines_remaining := block_lines_remaining st |}.

Definition set_compression_flag (b : bool) (st : state) : state :=
  {| stats := stats st; compression_flag := b;
     defined_vars := defined_vars st; used_vars_count := used_vars_count st;
     in_block := in_block st;
     block_lines_remaining := block_lines_remaining st |}.

Definition with_defined_vars (f : gmap str str -> gmap str str) (st : state)
  : state :=
  {| stats := stats st; compression_flag := compression_flag st;
     defined_vars := f (defined_vars st); used_vars_count := used_vars_count st;
     in_block := in_block st;
     block_lines_remaining := block_lines_remaining st |}.

Definition with_used_vars_count (f : gmap str Z -> gmap str Z) (st : state)
  : state :=
  {| stats := stats st; compression_flag := compression_flag st;
     defined_vars := defined_vars st; used_vars_count := f (used_vars_count st);
     in_block := in_block st;
     block_lines_remaining := block_lines_remaining st |}.

Definition set_in_block (b : bool) (st : state) : state :=
  {| stats := stats st; compression_flag := compression_flag st;
     defined_vars := defined_vars st; used_vars_count := used_vars_count st;
     in_block := b;
     block_lines_remaining := block_lines_remaining st |}.

Definition set_block_lines_remaining (n : Z) (st : state) : state :=
  {| stats := stats st; compression_flag := compression_flag st;
     defined_vars := defined_vars st; used_vars_count := used_vars_count st;
     in_block := in_block st;
     block_lines_remaining := n |}.

(** The state before the loop; [size] is [os.path.getsize(file_path)]. *)
Definition init (size : Z) : state :=
  {| stats := put total_size_b size (fun _ => 0);
     compression_flag := false;
     defined_vars := ∅; used_vars_count := ∅;
     in_block := false; block_lines_remaining := 0 |}.

Section Analyzer.
Context (U : unicode).

(** The pattern "@([\w\d]+)", for [findall]: group 1 (the id without its
    sigil) and the text after the match. *)
Definition var_usage_regex (s : str) : option (str * str) :=
  re_chr (is_chr AT) (fun _ =>
  re_plus (is_word_or_digit U) (fun var_id rest => Some (var_id, rest))) s.

(** Usages (H3) and literal headers (H4) of a command or a block line. *)
Definition scan (content : str) (st : state) : state :=
  let usages := findall var_usage_regex content in
  let st := fold_left (fun st var_id =>
              with_used_vars_count (count_usage (AT :: var_id)) st) usages st in
  let st := with_stats (bump command_at_overhead_b (Z.of_nat (length usages))) st in
  let gaps := findall (literal_gap_regex U) content in
  fold_left (fun st gap_len_str =>
    with_stats (bump literal_gap_overhead_b (gap_header_len gap_len_str)) st)
    gaps st.

(** The branches of a turn of the loop, in the order of the source. *)

(** Inside an A+/D+ block. *)
Definition block_line (line : str) (line_len_b : Z) (st : state) : state :=
  let st := with_stats (bump command_lines 1) st in
  let st := with_stats (bump command_size_b line_len_b) st in
  let '(st, content) :=
    if startswith (py "a ") line || startswith (py "d ") line then
      (with_stats (bump block_prefix_overhead_b 2) st, drop 2 line)
    else if startswith (py "A ") line || startswith (py "D ") line then
      (with_stats (bump block_prefix_overhead_b 2) st, drop 2 line)
    else (st, line) in
  let st := scan content st in
  let st := set_block_lines_remaining (block_lines_remaining st - 1) st in
  if block_lines_remaining st =? 0 then set_in_block false st else st.

(** A definition (H2). *)
Definition definition_line (var_name content : str) (line_len_b : Z)
    (st : state) : state :=
  let st := with_defined_vars (<[var_name := content]>) st in
  let st := with_stats (bump definition_lines 1) st in
  let st := with_stats (bump definition_size_b line_len_b) st in
  with_stats (bump definition_at_overhead_b 1) st.

(** A block header; [g3] is [block_match.group(3)]. *)
Definition header_line (g3 : str) (line_len_b : Z) (st : state) : state :=
  let st := with_stats (bump command_lines 1) st in
  let st := with_stats (bump command_size_b line_len_b) st in
  let st := set_block_lines_remaining (int_of_digits U g3) st in
  set_in_block (0 <? block_lines_remaining st) st.

(** Another command (a, d, M, R). *)
Definition command_line (line : str) (line_len_b : Z) (st : state) : state :=
  let st := with_stats (bump command_lines 1) st in
  let st := with_stats (bump command_size_b line_len_b) st in
  scan line st.

(** Everything else. *)
Definition other_line (line_len_b : Z) (st : state) : state :=
  let st := with_stats (bump other_lines 1) st in
  with_stats (bump other_size_b line_len_b) st.

(** One turn of [for line_num, line in enumerate(lines)]. *)
Definition step (line_num : nat) (line : str) (st : state) : state :=
  let line := rstrip_nl line in
  let line_len_b := utf8_len line in
  let st := with_stats (bump total_lines 1) st in
  if (line_num =? 0)%nat && bool_decide (line = [TILDE]) then
    set_compression_flag true st
  else if in_block st then block_line line line_len_b st
  else
    match def_regex U line with
    | Some (var_name, content) =>
        definition_line var_name content line_len_b st
    | None =>
        match block_header_regex U line with
        | Some (_, _, g3) => header_line g3 line_len_b st
        | None =>
            if is_some (command_ad_regex U line)
               || is_some (command_MR_regex U line)
            then command_line line line_len_b st
            else other_line line_len_b st
        end
    end.

Fixpoint loop (line_num : nat) (lines : list str) (st : state) : state :=
  match lines with
  | [] => st
  | line :: rest => loop (S line_num) rest (step line_num line st)
  end.

(** The state after the loop over the lines of the file. *)
Definition analyze_lines (size : Z) (lines : list str) : state :=
  loop 0 lines (init size).

(** The file is read as text and cut into lines. *)
Definition analyze_patch (size : Z) (text : str) : state :=
  analyze_lines size (readlines text).

End Analyzer.

(** *** What the report derives from the final state *)

(** [defined_set - used_set] *)
Definition unused_vars (st : state) : gset str :=
  dom (defined_vars st) ∖ dom (used_vars_count st).

(** The loop [for var_name in unused_vars: unused_size_b += 1 + 1 + ...];
    [None] stands for the [KeyError] of [defined_vars[var_name]]. *)
Definition unused_size_b (st : state) : option Z :=
  set_fold (fun var_name acc =>
    match acc, defined_vars st !! var_name with
    | Some n, Some content => Some (n + (1 + 1 + utf8_len content))
    | _, _ => None
    end) (Some 0) (unused_vars st).

Definition total_overhead (st : state) : Z :=
  stats st block_prefix_overhead_b + stats st definition_at_overhead_b
  + stats st command_at_overhead_b + stats st literal_gap_overhead_b.

(** The percentage is printed only [if stats['total_size_b'] > 0]. *)
Definition overhead_percent (st : state) : option QArith_base.Q :=
  if 0 <? stats st total_size_b
  then Some (percent (total_overhead st) (stats st total_size_b))
  else None.

(** [stats['definition_size_b'] / stats['definition_lines']], printed only
    [if stats['definition_lines'] > 0]; the exact quotient, as for the
    percentage. *)
Definition avg_def_size (st : state) : option QArith_base.Q :=
  if 0 <? stats st definition_lines
  then Some (QArith_base.Qdiv (QArith_base.inject_Z (stats st definition_size_b))
                              (QArith_base.inject_Z (stats st definition_lines)))
  else None.

(** A row of "Top 10 Most Used Variables": [i+1], the id, its count and the
    content as it is displayed. *)
Record row := {
  row_rank : Z;
  row_var_name : str;
  row_count : Z;
  row_content_display : str;
}.

(** The rows of the table, one for each turn of
    [for i, (var_name, count) in enumerate(sorted_usage[:10])].  [items] is
    [used_vars_count.items()]: the entries of the usage table, in the order
    in which the loop first tallied them.  With no item there is no row (the
    report then prints "(No variables used)"). *)
Definition top10 (items : list (str * Z)) (st : state) : list row :=
  imap (fun i '(var_name, count) =>
    let content :=
      default (py "?? DEFINITION NOT FOUND ??") (defined_vars st !! var_name) in
    {| row_rank := Z.of_nat i + 1; row_var_name := var_name;
       row_count := count; row_content_display := content_display content |})
    (take 10 (sorted_usage items)).

End V1.

(* ===================================================================== *)
(** ** [tools/analyze_patch_saving.py]: the v2.0.0 analyzer *)
(* ===================================================================== *)

Module V2.

(** The integer entries of the [stats] dictionary, by key. *)
Inductive key :=
| total_lines | total_size_b
| definition_lines | definition_size_b | definition_at_overhead_b
| command_lines | command_size_b
| literal_gap_overhead_b | block_prefix_overhead_b
| other_lines | other_size_b
| total_reference_cost_b | total_replaced_bytes
| full_line_replaced_b | full_line_ref_cost_b
| fragment_replaced_b | fragment_ref_cost_b.

Definition key_index (k : key) : nat :=
  match k with
  | total_lines => 0 | total_size_b => 1
  | definition_lines => 2 | definition_size_b => 3
  | definition_at_overhead_b => 4
  | command_lines => 5 | command_size_b => 6
  | literal_gap_overhead_b => 7 | block_prefix_overhead_b => 8
  | other_lines => 9 | other_size_b => 10
  | total_reference_cost_b => 11 | total_replaced_bytes => 12
  | full_line_replaced_b => 13 | full_line_ref_cost_b => 14
  | fragment_replaced_b => 15 | fragment_ref_cost_b => 16
  end%nat.

(** [stats[k] += d] *)
Definition bump (k : key) (d : Z) (stats : key -> Z) : key -> Z :=
  fun k' => if (key_index k' =? key_index k)%nat then stats k' + d else stats k'.

(** [stats[k] = v] *)
Definition put (k : key) (v : Z) (stats : key -> Z) : key -> Z :=
  fun k' => if (key_index k' =? key_index k)%nat then v else stats k'.

(** What the loop of [analyze_patch] reads and writes. *)
Record state := {
  stats : key -> Z;
  compression_flag : bool;            (* stats['compression_flag'] *)
  full_line_vars : gset str;          (* stats['full_line_vars'] *)
  fragment_vars : gset str;           (* stats['fragment_vars'] *)
  defined_vars : gmap str str;        (* {var_name: content} *)
  used_vars_count : gmap str Z;       (* {var_name: count} *)
  in_block : bool;
  block_lines_remaining : Z;
  parsing_definitions : bool;
}.

Definition with_stats (f : (key -> Z) -> key -> Z) (st : state) : state :=
  {| stats := f (stats st); compression_flag := compression_flag st;
     full_line_vars := full_line_vars st; fragment_vars := fragment_vars st;
     defined_vars := defined_vars st; used_vars_count := used_vars_count st;
     in_block := in_block st;
     block_lines_remaining := block_lines_remaining st;
     parsing_definitions := parsing_definitions st |}.

Definition set_compression_flag (b : bool) (st : state) : state :=
  {| stats := stats st; compression_flag := b;
     full_line_vars := full_line_vars st; fragment_vars := fragment_vars st;
     defined_vars := defined_vars st; used_vars_count := used_vars_count st;
     in_block := in_block st;
     block_lines_remaining := block_lines_remaining st;
     parsing_definitions := parsing_definitions st |}.

(** [stats['full_line_vars'].add(v)] *)
Definition add_full_line_var (v : str) (st : state) : state :=
  {| stats := stats st; compression_flag := compression_flag st;
     full_line_vars := {[ v ]} ∪ full_line_vars st;
     fragment_vars := fragment_vars st;
     defined_vars := defined_vars st; used_vars_count := used_vars_count st;
     in_block := in_block st;
     block_lines_remaining := block_lines_remaining st;
     parsing_definitions := parsing_definitions st |}.

(** [stats['fragment_vars'].add(v)] *)
Definition add_fragment_var (v : str) (st : state) : state :=
  {| stats := stats st; compression_flag := compression_flag st;
     full_line_vars := full_line_vars st;
     fragment_vars := {[ v ]} ∪ fragment_vars st;
     defined_vars := defined_vars st; used_vars_count := used_vars_count st;
     in_block := in_block st;
     block_lines_remaining := block_lines_remaining st;
     parsing_definitions := parsing_definitions st |}.

Definition with_defined_vars (f : gmap str str -> gmap str str) (st : state)
  : state :=
  {| stats := stats st; compression_flag := compression_flag st;
     full_line_vars := full_line_vars st; fragment_vars := fragment_vars st;
     defined_vars := f (defined_vars st); used_vars_count := used_vars_count st;
     in_block := in_block st;
     block_lines_remaining := block_lines_remaining st;
     parsing_definitions := parsing_definitions st |}.

Definition with_used_vars_count (f : gmap str Z -> gmap str Z) (st : state)
  : state :=
  {| stats := stats st; compression_flag := compression_flag st;
     full_line_vars := full_line_vars st; fragment_vars := fragment_vars st;
     defined_vars := defined_vars st; used_vars_count := f (used_vars_count st);
     in_block := in_block st;
     block_lines_remaining := block_lines_remaining st;
     parsing_definitions := parsing_definitions st |}.

Definition set_in_block (b : bool) (st : state) : state :=
  {| stats := stats st; compression_flag := compression_flag st;
     full_line_vars := full_line_vars st; fragment_vars := fragment_vars st;
     defined_vars := defined_vars st; used_vars_count := used_vars_count st;
     in_block := b;
     block_lines_remaining := block_lines_remaining st;
     parsing_definitions := parsing_definitions st |}.

Definition set_block_lines_remaining (n : Z) (st : state) : state :=
  {| stats := stats st; compression_flag := compression_flag st;
     full_line_vars := full_line_vars st; fragment_vars := fragment_vars st;
     defined_vars := defined_vars st; used_vars_count := used_vars_count st;
     in_block := in_block st;
     block_lines_remaining := n;
     parsing_definitions := parsing_definitions st |}.

Definition set_parsing_definitions (b : bool) (st : state) : state :=
  {| stats := stats st; compression_flag := compression_flag st;
     full_line_vars := full_line_vars st; fragment_vars := fragment_vars st;
     defined_vars := defined_vars st; used_vars_count := used_vars_count st;
     in_block := in_block st;
     block_lines_remaining := block_lines_remaining st;
     parsing_definitions := b |}.

(** The state before the loop; [size] is [os.path.getsize(file_path)]. *)
Definition init (size : Z) : state :=
  {| stats := put total_size_b size (fun _ => 0);
     compression_flag := false;
     full_line_vars := ∅; fragment_vars := ∅;
     defined_vars := ∅; used_vars_count := ∅;
     in_block := false; block_lines_remaining := 0;
     parsing_definitions := true |}.

Section Analyzer.
Context (U : unicode).

(** The pattern "^(@[\w\d]+)$", with [match]: group 1. *)
Definition def_regex_no_content (line : str) : option str :=
  re_chr (is_chr AT) (fun at_sign =>
  re_plus (is_word_or_digit U) (fun id =>
  re_end (at_sign :: id))) line.

(** The pattern "(@[\w\d]+)", for [findall]: group 1 (the whole token) and
    the text after the match. *)
Definition var_usage_regex (s : str) : option (str * str) :=
  re_chr (is_chr AT) (fun at_sign =>
  re_plus (is_word_or_digit U) (fun id rest => Some (at_sign :: id, rest))) s.

(** [full_line_heuristic_regex.match(content)], the pattern being "^(" then
    "\s+.*" or ".*[};]" then ")$". *)
Definition full_line_heuristic_regex (content : str) : option unit :=
  re_alt
    (re_plus (is_space U) (fun _ =>
     re_star not_newline (fun _ =>
     re_end tt)))
    (re_star not_newline (fun _ =>
     re_chr (fun c => is_chr 125 c || is_chr 59 c) (fun _ =>
     re_end tt)))
    content.

(** The body of [for full_var_name in usages]. *)
Definition record_usage (st : state) (full_var_name : str) : state :=
  let st := with_used_vars_count (count_usage full_var_name) st in
  let ref_cost_b := utf8_len full_var_name in
  let st := with_stats (bump total_reference_cost_b ref_cost_b) st in
  match defined_vars st !! full_var_name with
  | Some replaced_content =>
      let replaced_b := utf8_len replaced_content in
      let st := with_stats (bump total_replaced_bytes replaced_b) st in
      if bool_decide (full_var_name ∈ full_line_vars st) then
        let st := with_stats (bump full_line_replaced_b replaced_b) st in
        with_stats (bump full_line_ref_cost_b ref_cost_b) st
      else
        let st := with_stats (bump fragment_replaced_b replaced_b) st in
        with_stats (bump fragment_ref_cost_b ref_cost_b) st
  | None => st
  end.

(** Usages (H3 and benefit) and literal headers (H4) of a command or a block
    line. *)
Definition scan (content : str) (st : state) : state :=
  let usages := findall var_usage_regex content in
  let st := fold_left record_usage usages st in
  let gaps := findall (literal_gap_regex U) content in
  fold_left (fun st gap_len_str =>
    with_stats (bump literal_gap_overhead_b (gap_header_len gap_len_str)) st)
    gaps st.

(** The branches of a turn of the loop, in the order of the source. *)

(** A definition with content (H2), and its classification. *)
Definition definition_line (var_name content : str) (line_len_b : Z)
    (st : state) : state :=
  let st := with_defined_vars (<[var_name := content]>) st in
  let st := with_stats (bump definition_lines 1) st in
  let st := with_stats (bump definition_size_b line_len_b) st in
  let st := with_stats (bump definition_at_overhead_b 1) st in
  if (5 <? len content) && is_some (full_line_heuristic_regex content)
  then add_full_line_var var_name st
  else add_fragment_var var_name st.

(** A definition without content: "Empty = fragments". *)
Definition empty_definition_line (var_name : str) (line_len_b : Z)
    (st : state) : state :=
  let st := with_defined_vars (<[var_name := []]>) st in
  let st := with_stats (bump definition_lines 1) st in
  let st := with_stats (bump definition_size_b line_len_b) st in
  let st := with_stats (bump definition_at_overhead_b 1) st in
  add_fragment_var var_name st.

(** Inside an A+/D+ block. *)
Definition block_line (line : str) (line_len_b : Z) (st : state) : state :=
  let st := with_stats (bump command_lines 1) st in
  let st := with_stats (bump command_size_b line_len_b) st in
  let '(st, content) :=
    if startswith (py "a ") line || startswith (py "d ") line
       || startswith (py "A ") line || startswith (py "D ") line then
      (with_stats (bump block_prefix_overhead_b 2) st, drop 2 line)
    else (st, line) in
  let st := scan content st in
  let st := set_block_lines_remaining (block_lines_remaining st - 1) st in
  if block_lines_remaining st =? 0 then set_in_block false st else st.

(** A block header; [g3] is [block_match.group(3)]. *)
Definition header_line (g3 : str) (line_len_b : Z) (st : state) : state :=
  let st := with_stats (bump command_lines 1) st in
  let st := with_stats (bump command_size_b line_len_b) st in
  let st := set_block_lines_remaining (int_of_digits U g3) st in
  set_in_block (0 <? block_lines_remaining st) st.

(** Another command (a, d, M, R). *)
Definition command_line (line : str) (line_len_b : Z) (st : state) : state :=
  let st := with_stats (bump command_lines 1) st in
  let st := with_stats (bump command_size_b line_len_b) st in
  scan line st.

(** Everything else. *)
Definition other_line (line_len_b : Z) (st : state) : state :=
  let st := with_stats (bump other_lines 1) st in
  with_stats (bump other_size_b line_len_b) st.

(** The part of a turn after the definitions ("Cycle 2"). *)
Definition command_step (line : str) (line_len_b : Z) (st : state) : state :=
  if in_block st then block_line line line_len_b st
  else
    match block_header_regex U line with
    | Some (_, _, g3) => header_line g3 line_len_b st
    | None =>
        if is_some (command_ad_regex U line)
           || is_some (command_MR_regex U line)
        then command_line line line_len_b st
        else other_line line_len_b st
    end.

(** One turn of [for line_num, line in enumerate(lines)]. *)
Definition step (line_num : nat) (line : str) (st : state) : state :=
  let line := rstrip_nl line in
  let line_len_b := utf8_len line in
  let st := with_stats (bump total_lines 1) st in
  if (line_num =? 0)%nat && bool_decide (line = [TILDE]) then
    set_compression_flag true st
  else if parsing_definitions st then
    match def_regex U line with
    | Some (var_name, content) =>
        definition_line var_name content line_len_b st
    | None =>
        match def_regex_no_content line with
        | Some var_name => empty_definition_line var_name line_len_b st
        | None =>
            (* the first line that is not a definition ends the block *)
            let st := set_parsing_definitions false st in
            command_step line line_len_b st
        end
    end
  else command_step line line_len_b st.

Fixpoint loop (line_num : nat) (lines : list str) (st : state) : state :=
  match lines with
  | [] => st
  | line :: rest => loop (S line_num) rest (step line_num line st)
  end.

(** The state after the loop over the lines of the file. *)
Definition analyze_lines (size : Z) (lines : list str) : state :=
  loop 0 lines (init size).

(** The file is read as text and cut into lines. *)
Definition analyze_patch (size : Z) (text : str) : state :=
  analyze_lines size (readlines text).

End Analyzer.

(** *** What the report derives from the final state *)

(** The loop [for var_name, content in defined_vars.items()]: the pair
    [(def_cost_full_b, def_cost_fragment_b)]. *)
Definition def_costs (st : state) : Z * Z :=
  map_fold (fun var_name content '(def_cost_full_b, def_cost_fragment_b) =>
    let cost := 1 + 1 + utf8_len content in
    if bool_decide (var_name ∈ full_line_vars st)
    then (def_cost_full_b + cost, def_cost_fragment_b)
    else (def_cost_full_b, def_cost_fragment_b + cost))
    (0, 0) (defined_vars st).

Definition def_cost_full_b (st : state) : Z := fst (def_costs st).
Definition def_cost_fragment_b (st : state) : Z := snd (def_costs st).

(** [defined_set - used_set] *)
Definition unused_vars (st : state) : gset str :=
  dom (defined_vars st) ∖ dom (used_vars_count st).

(** The loop [for var_name in unused_vars: unused_size_b += 1 + 1 + ...];
    [None] stands for the [KeyError] of [defined_vars[var_name]]. *)
Definition unused_size_b (st : state) : option Z :=
  set_fold (fun var_name acc =>
    match acc, defined_vars st !! var_name with
    | Some n, Some content => Some (n + (1 + 1 + utf8_len content))
    | _, _ => None
    end) (Some 0) (unused_vars st).

Definition total_overhead (st : state) : Z :=
  stats st block_prefix_overhead_b + stats st definition_at_overhead_b
  + stats st total_reference_cost_b + stats st literal_gap_overhead_b.

(** The percentage is printed only [if stats['total_size_b'] > 0]. *)
Definition overhead_percent (st : state) : option QArith_base.Q :=
  if 0 <? stats st total_size_b
  then Some (percent (total_overhead st) (stats st total_size_b))
  else None.

Definition total_cost_full (st : state) : Z :=
  def_cost_full_b st + stats st full_line_ref_cost_b.
Definition net_savings_full (st : state) : Z :=
  stats st full_line_replaced_b - total_cost_full st.

Definition total_cost_fragment (st : state) : Z :=
  def_cost_fragment_b st + stats st fragment_ref_cost_b.
Definition net_savings_fragment (st : state) : Z :=
  stats st fragment_replaced_b - total_cost_fragment st.

Definition total_cost (st : state) : Z :=
  total_cost_full st + total_cost_fragment st.
Definition total_savings (st : state) : Z :=
  net_savings_full st + net_savings_fragment st.

(** ["FULL" if var_name in stats['full_line_vars'] else "FRAG"] *)
Inductive var_type := FULL | FRAG.

(** A row of "Top 10 Most Used Variables": [i+1], the id, its count, its
    type and the content as it is displayed. *)
Record row := {
  row_rank : Z;
  row_var_name : str;
  row_count : Z;
  row_var_type : var_type;
  row_content_display : str;
}.

(** The rows of the table, one for each turn of
    [for i, (var_name, count) in enumerate(sorted_usage[:10])].  [items] is
    [used_vars_count.items()]: the entries of the usage table, in the order
    in which the loop first tallied them.  With no item there is no row (the
    report then prints "(No variables used)"). *)
Definition top10 (items : list (str * Z)) (st : state) : list row :=
  imap (fun i '(var_name, count) =>
    let var_type :=
      if bool_decide (var_name ∈ full_line_vars st) then FULL else FRAG in
    let content := default (py "?? N/A ??") (defined_vars st !! var_name) in
    {| row_rank := Z.of_nat i + 1; row_var_name := var_name;
       row_count := count; row_var_type := var_type;
       row_content_display := content_display content |})
    (take 10 (sorted_usage items)).

End V2.

(** Scenario A of the specification. *)
Definition scenario_A : str :=
  py "@x hello" ++ [LF] ++ py "1 A+ 1" ++ [LF] ++ py "a @x" ++ [LF].

(* ===================================================================== *)
(** ** Notions used in the statements *)
(* ===================================================================== *)

Definition Zsum (l : list Z) : Z := foldr Z.add 0 l.

(** The first line of the file is the marker line. *)
Definition is_marker (line_num : nat) (line : str) : bool :=
  (line_num =? 0)%nat && bool_decide (rstrip_nl line = [TILDE]).

(** The number of reference occurrences tallied in a usage table, and the
    sum of the encoded sizes of these occurrences. *)
Definition occurrences (used : gmap str Z) : Z :=
  map_fold (fun _ n acc => acc + n) 0 used.
Definition occurrence_bytes (used : gmap str Z) : Z :=
  map_fold (fun var n acc => acc + n * utf8_len var) 0 used.

(** The classification heuristic in the words of the specification. *)
Definition starts_with_whitespace (U : unicode) (content : str) : bool :=
  match content with
  | c :: _ => is_space U c
  | [] => false
  end.
Definition ends_with_brace_or_semicolon (content : str) : bool :=
  match last content with
  | Some c => is_chr 125 c || is_chr 59 c
  | None => false
  end.
Definition spec_full_line (U : unicode) (content : str) : bool :=
  bool_decide (5 < len content)
  && (starts_with_whitespace U content || ends_with_brace_or_semicolon content).

(** The dead weight in the words of the specification: the sum over the
    stray ids of 1 + 1 + the byte length of the content. *)
Definition spec_dead_weight (defined : gmap str str) (stray : gset str) : Z :=
  Zsum (map (fun var => 1 + 1 + utf8_len (default [] (defined !! var)))
            (elements stray)).

(** The reference tokens and the literal headers of a piece of text. *)
Definition tokens (U : unicode) (s : str) : list str :=
  findall (V2.var_usage_regex U) s.
Definition gaps (U : unicode) (s : str) : list str :=
  findall (literal_gap_regex U) s.

(** Tallying a list of tokens. *)
Definition count_all (vars : list str) (used : gmap str Z) : gmap str Z :=
  fold_left (fun used var => count_usage var used) vars used.

(** Two states agree on everything but the counters and the usage table. *)
Definition V1_frame (st st' : V1.state) : Prop :=
  V1.defined_vars st' = V1.defined_vars st
  /\ V1.in_block st' = V1.in_block st
  /\ V1.block_lines_remaining st' = V1.block_lines_remaining st
  /\ V1.compression_flag st' = V1.compression_flag st.

Definition V2_frame (st st' : V2.state) : Prop :=
  V2.defined_vars st' = V2.defined_vars st
  /\ V2.full_line_vars st' = V2.full_line_vars st
  /\ V2.fragment_vars st' = V2.fragment_vars st
  /\ V2.in_block st' = V2.in_block st
  /\ V2.block_lines_remaining st' = V2.block_lines_remaining st
  /\ V2.parsing_definitions st' = V2.parsing_definitions st
  /\ V2.compression_flag st' = V2.compression_flag st.

(** What scanning a piece of text adds to each counter. *)
Definition V1_scan_delta (U : unicode) (content : str) (k : V1.key) : Z :=
  match k with
  | V1.command_at_overhead_b => Z.of_nat (length (tokens U content))
  | V1.literal_gap_overhead_b => Zsum (map gap_header_len (gaps U content))
  | _ => 0
  end.

Definition V2_scan_delta (U : unicode) (content : str) (k : V2.key) : Z :=
  match k with
  | V2.total_reference_cost_b => Zsum (map utf8_len (tokens U content))
  | V2.literal_gap_overhead_b => Zsum (map gap_header_len (gaps U content))
  | _ => 0
  end.

(** The counters both analyzers keep, and the total reference cost. *)
Definition V2_basic (k : V2.key) : Prop := (V2.key_index k <= 11)%nat.

(** The block counter agrees with the block flag. *)
Definition block_ok (in_block : bool) (remaining : Z) : Prop :=
  if in_block then 0 < remaining else remaining = 0.

(** A block line and what is left of it once its prefix is stripped. *)
Definition has_block_prefix (line : str) : bool :=
  (startswith (py "a ") line || startswith (py "d ") line)
  || (startswith (py "A ") line || startswith (py "D ") line).
Definition block_content (line : str) : str :=
  if has_block_prefix line then drop 2 line else line.

(** What each branch of a turn adds to each counter. *)
Definition V1_block_delta (U : unicode) (line : str) (n : Z) (k : V1.key) : Z :=
  match k with
  | V1.command_lines => 1
  | V1.command_size_b => n
  | V1.block_prefix_overhead_b => if has_block_prefix line then 2 else 0
  | _ => 0
  end + V1_scan_delta U (block_content line) k.
Definition V1_definition_delta (n : Z) (k : V1.key) : Z :=
  match k with
  | V1.definition_lines => 1
  | V1.definition_size_b => n
  | V1.definition_at_overhead_b => 1
  | _ => 0
  end.
Definition V1_header_delta (n : Z) (k : V1.key) : Z :=
  match k with
  | V1.command_lines => 1
  | V1.command_size_b => n
  | _ => 0
  end.
Definition V1_command_delta (U : unicode) (line : str) (n : Z) (k : V1.key) : Z :=
  V1_header_delta n k + V1_scan_delta U line k.
Definition V1_other_delta (n : Z) (k : V1.key) : Z :=
  match k with
  | V1.other_lines => 1
  | V1.other_size_b => n
  | _ => 0
  end.

Definition V2_block_delta (U : unicode) (line : str) (n : Z) (k : V2.key) : Z :=
  match k with
  | V2.command_lines => 1
  | V2.command_size_b => n
  | V2.block_prefix_overhead_b => if has_block_prefix line then 2 else 0
  | _ => 0
  end + V2_scan_delta U (block_content line) k.
Definition V2_definition_delta (n : Z) (k : V2.key) : Z :=
  match k with
  | V2.definition_lines => 1
  | V2.definition_size_b => n
  | V2.definition_at_overhead_b => 1
  | _ => 0
  end.
Definition V2_header_delta (n : Z) (k : V2.key) : Z :=
  match k with
  | V2.command_lines => 1
  | V2.command_size_b => n
  | _ => 0
  end.
Definition V2_command_delta (U : unicode) (line : str) (n : Z) (k : V2.key) : Z :=
  V2_header_delta n k + V2_scan_delta U line k.
Definition V2_other_delta (n : Z) (k : V2.key) : Z :=
  match k with
  | V2.other_lines => 1
  | V2.other_size_b => n
  | _ => 0
  end.

(** The two analyzers are at the same place of the same scan. *)
Definition same_scan (st1 : V1.state) (st2 : V2.state) : Prop :=
  V1.in_block st1 = V2.in_block st2
  /\ V1.block_lines_remaining st1 = V2.block_lines_remaining st2
  /\ V1.used_vars_count st1 = V2.used_vars_count st2
  /\ V1.stats st1 V1.command_at_overhead_b
     <= V2.stats st2 V2.total_reference_cost_b
  /\ (V2.parsing_definitions st2 = true -> V2.in_block st2 = false).

(** A turn that neither scans nor touches the block state. *)
Definition V1_neutral (st st' : V1.state) : Prop :=
  V1.in_block st' = V1.in_block st
  /\ V1.block_lines_remaining st' = V1.block_lines_remaining st
  /\ V1.used_vars_count st' = V1.used_vars_count st
  /\ V1.stats st' V1.command_at_overhead_b
     = V1.stats st V1.command_at_overhead_b.
Definition V2_neutral (st st' : V2.state) : Prop :=
  V2.in_block st' = V2.in_block st
  /\ V2.block_lines_remaining st' = V2.block_lines_remaining st
  /\ V2.used_vars_count st' = V2.used_vars_count st
  /\ V2.stats st' V2.total_reference_cost_b
     = V2.stats st V2.total_reference_cost_b
  /\ (V2.parsing_definitions st' = true -> V2.parsing_definitions st = true).

(** The cost of one definition and of all the definitions of a table. *)
Definition definition_cost (content : str) : Z := 1 + 1 + utf8_len content.
Definition definitions_cost (defined : gmap str str) : Z :=
  map_fold (fun _ content acc => acc + definition_cost content) 0 defined.

(** The character '1', the digit zero of the Base58 alphabet. *)
Definition ONE : chr := 49%N.

(** The kinds of turn of the loop. *)
Inductive turn :=
| Marker | Defines | DefinesEmpty | InBlock | Header | Command | Other.

(** The turn "Cycle 2" takes on a stripped line. *)
Definition command_turn (U : unicode) (in_block : bool) (l : list N) : turn :=
  if in_block then InBlock
  else if is_some (block_header_regex U l) then Header
  else if is_some (command_ad_regex U l) || is_some (command_MR_regex U l)
  then Command
  else Other.

Definition V1_turn (U : unicode) (n : nat) (line : list N) (st : V1.state) : turn :=
  if is_marker n line then Marker
  else if V1.in_block st then InBlock
  else if is_some (def_regex U (rstrip_nl line)) then Defines
  else command_turn U false (rstrip_nl line).

Definition V2_turn (U : unicode) (n : nat) (line : list N) (st : V2.state) : turn :=
  if is_marker n line then Marker
  else if V2.parsing_definitions st then
    if is_some (def_regex U (rstrip_nl line)) then Defines
    else if is_some (V2.def_regex_no_content U (rstrip_nl line)) then DefinesEmpty
    else command_turn U (V2.in_block st) (rstrip_nl line)
  else command_turn U (V2.in_block st) (rstrip_nl line).

(** What a turn adds to each counter; [l] is the stripped line. *)
Definition V1_turn_delta (U : unicode) (t : turn) (l : list N) (k : V1.key) : Z :=
  match k with V1.total_lines => 1 | _ => 0 end
  + match t with
    | Marker => 0
    | Defines | DefinesEmpty => V1_definition_delta (utf8_len l) k
    | InBlock => V1_block_delta U l (utf8_len l) k
    | Header => V1_header_delta (utf8_len l) k
    | Command => V1_command_delta U l (utf8_len l) k
    | Other => V1_other_delta (utf8_len l) k
    end.

Definition V2_turn_delta (U : unicode) (t : turn) (l : list N) (k : V2.key) : Z :=
  match k with V2.total_lines => 1 | _ => 0 end
  + match t with
    | Marker => 0
    | Defines | DefinesEmpty => V2_definition_delta (utf8_len l) k
    | InBlock => V2_block_delta U l (utf8_len l) k
    | Header => V2_header_delta (utf8_len l) k
    | Command => V2_command_delta U l (utf8_len l) k
    | Other => V2_other_delta (utf8_len l) k
    end.

(** The definition a turn records, if it records one. *)
Definition V1_defines (U : unicode) (t : turn) (l : list N)
    (defined : gmap (list N) (list N)) : gmap (list N) (list N) :=
  match t, def_regex U l with
  | Defines, Some (var, content) => <[var := content]> defined
  | _, _ => defined
  end.

Definition V2_defines (U : unicode) (t : turn) (l : list N)
    (defined : gmap (list N) (list N)) : gmap (list N) (list N) :=
  match t with
  | Defines =>
      match def_regex U l with
      | Some (var, content) => <[var := content]> defined
      | None => defined
      end
  | DefinesEmpty =>
      match V2.def_regex_no_content U l with
      | Some var => <[var := []]> defined
      | None => defined
      end
  | _ => defined
  end.

(** The usage table after a turn: only block lines and commands are
    scanned. *)
Definition turn_uses (U : unicode) (t : turn) (l : list N)
    (used : gmap (list N) Z) : gmap (list N) Z :=
  match t with
  | InBlock | Command => count_all (tokens U l) used
  | _ => used
  end.

(** The two buckets after a turn of v2. *)
Definition V2_buckets (U : unicode) (t : turn) (l : list N)
    (buckets : gset (list N) * gset (list N)) : gset (list N) * gset (list N) :=
  match t with
  | Defines =>
      match def_regex U l with
      | Some (var, content) =>
          if (5 <? len content)
             && is_some (V2.full_line_heuristic_regex U content)
          then ({[ var ]} ∪ fst buckets, snd buckets)
          else (fst buckets, {[ var ]} ∪ snd buckets)
      | None => buckets
      end
  | DefinesEmpty =>
      match V2.def_regex_no_content U l with
      | Some var => (fst buckets, {[ var ]} ∪ snd buckets)
      | None => buckets
      end
  | _ => buckets
  end.

(** The bytes a reference to [var] replaces: the size of its content, if
    it is defined. *)
Definition replaced_b (defined : gmap (list N) (list N)) (var : list N) : Z :=
  match defined !! var with
  | Some content => utf8_len content
  | None => 0
  end.

(** What one occurrence of the reference [var] adds to a counter of the
    efficiency statistics, given the definitions and the full-line
    bucket. *)
Definition usage_weight (defined : gmap (list N) (list N))
    (full_line_vars : gset (list N)) (k : V2.key) (var : list N) : Z :=
  match k with
  | V2.total_reference_cost_b => utf8_len var
  | V2.total_replaced_bytes => replaced_b defined var
  | V2.full_line_replaced_b =>
      if bool_decide (var ∈ full_line_vars) then replaced_b defined var else 0
  | V2.fragment_replaced_b =>
      if bool_decide (var ∈ full_line_vars) then 0 else replaced_b defined var
  | V2.full_line_ref_cost_b =>
      if bool_decide (var ∈ dom defined) && bool_decide (var ∈ full_line_vars)
      then utf8_len var else 0
  | V2.fragment_ref_cost_b =>
      if bool_decide (var ∈ dom defined)
         && negb (bool_decide (var ∈ full_line_vars))
      then utf8_len var else 0
  | _ => 0
  end.

(** The counters of the efficiency statistics, and the total reference
    cost. *)
Definition V2_efficiency (k : V2.key) : Prop := (11 <= V2.key_index k)%nat.

(** What a turn of v2 adds to a counter of the efficiency statistics. *)
Definition V2_efficiency_delta (U : unicode) (t : turn) (l : list N)
    (defined : gmap (list N) (list N)) (full_line_vars : gset (list N))
    (k : V2.key) : Z :=
  match t with
  | InBlock | Command =>
      Zsum (map (usage_weight defined full_line_vars k) (tokens U l))
  | _ => 0
  end.

Definition b2z (b : bool) : Z := if b then 1 else 0.

(** The first line of a file, stripped, is the marker "~". *)
Definition starts_with_marker (lines : list (list N)) : bool :=
  match lines with
  | first :: _ => bool_decide (rstrip_nl first = [TILDE])
  | [] => false
  end.

(** The encoded size of the lines without their terminators. *)
Definition stripped_bytes (lines : list (list N)) : Z :=
  Zsum (map (fun line => utf8_len (rstrip_nl line)) lines).

(** What a turn adds to the tallies of the statistics. *)
Definition V1_tally (st st' : V1.state) (lines bytes : Z) : Prop :=
  V1.stats st' V1.total_lines = V1.stats st V1.total_lines + lines
  /\ V1.stats st' V1.total_size_b = V1.stats st V1.total_size_b
  /\ b2z (V1.compression_flag st') + V1.stats st' V1.definition_lines
     + V1.stats st' V1.command_lines + V1.stats st' V1.other_lines
     = b2z (V1.compression_flag st) + V1.stats st V1.definition_lines
       + V1.stats st V1.command_lines + V1.stats st V1.other_lines + lines
  /\ b2z (V1.compression_flag st') + V1.stats st' V1.definition_size_b
     + V1.stats st' V1.command_size_b + V1.stats st' V1.other_size_b
     = b2z (V1.compression_flag st) + V1.stats st V1.definition_size_b
       + V1.stats st V1.command_size_b + V1.stats st V1.other_size_b + bytes
  /\ V1.stats st' V1.definition_at_overhead_b - V1.stats st' V1.definition_lines
     = V1.stats st V1.definition_at_overhead_b - V1.stats st V1.definition_lines
  /\ V1.stats st V1.definition_lines <= V1.stats st' V1.definition_lines
  /\ V1.stats st V1.command_lines <= V1.stats st' V1.command_lines
  /\ V1.stats st V1.other_lines <= V1.stats st' V1.other_lines
  /\ V1.stats st V1.definition_size_b <= V1.stats st' V1.definition_size_b
  /\ V1.stats st V1.command_size_b <= V1.stats st' V1.command_size_b
  /\ V1.stats st V1.other_size_b <= V1.stats st' V1.other_size_b
  /\ 3 * (V1.stats st' V1.definition_lines - V1.stats st V1.definition_lines)
     <= V1.stats st' V1.definition_size_b - V1.stats st V1.definition_size_b
  /\ Z.of_nat (size (dom (V1.defined_vars st')))
     - V1.stats st' V1.definition_lines
     <= Z.of_nat (size (dom (V1.defined_vars st)))
        - V1.stats st V1.definition_lines.

Definition V2_tally (st st' : V2.state) (lines bytes : Z) : Prop :=
  V2.stats st' V2.total_lines = V2.stats st V2.total_lines + lines
  /\ V2.stats st' V2.total_size_b = V2.stats st V2.total_size_b
  /\ b2z (V2.compression_flag st') + V2.stats st' V2.definition_lines
     + V2.stats st' V2.command_lines + V2.stats st' V2.other_lines
     = b2z (V2.compression_flag st) + V2.stats st V2.definition_lines
       + V2.stats st V2.command_lines + V2.stats st V2.other_lines + lines
  /\ b2z (V2.compression_flag st') + V2.stats st' V2.definition_size_b
     + V2.stats st' V2.command_size_b + V2.stats st' V2.other_size_b
     = b2z (V2.compression_flag st) + V2.stats st V2.definition_size_b
       + V2.stats st V2.command_size_b + V2.stats st V2.other_size_b + bytes
  /\ V2.stats st' V2.definition_at_overhead_b - V2.stats st' V2.definition_lines
     = V2.stats st V2.definition_at_overhead_b - V2.stats st V2.definition_lines
  /\ V2.stats st V2.definition_lines <= V2.stats st' V2.definition_lines
  /\ V2.stats st V2.command_lines <= V2.stats st' V2.command_lines
  /\ V2.stats st V2.other_lines <= V2.stats st' V2.other_lines
  /\ V2.stats st V2.definition_size_b <= V2.stats st' V2.definition_size_b
  /\ V2.stats st V2.command_size_b <= V2.stats st' V2.command_size_b
  /\ V2.stats st V2.other_size_b <= V2.stats st' V2.other_size_b
  /\ 2 * (V2.stats st' V2.definition_lines - V2.stats st V2.definition_lines)
     <= V2.stats st' V2.definition_size_b - V2.stats st V2.definition_size_b
  /\ Z.of_nat (size (dom (V2.defined_vars st')))
     - V2.stats st' V2.definition_lines
     <= Z.of_nat (size (dom (V2.defined_vars st)))
        - V2.stats st V2.definition_lines.

(** The two analyzers agree on the flag, on the counts of lines, on what
    they count for the commands, and, taken together, on the definition
    lines and the other lines. *)
Definition agree (st1 : V1.state) (st2 : V2.state) : Prop :=
  V1.compression_flag st1 = V2.compression_flag st2
  /\ V1.stats st1 V1.total_lines = V2.stats st2 V2.total_lines
  /\ V1.stats st1 V1.total_size_b = V2.stats st2 V2.total_size_b
  /\ V1.stats st1 V1.command_lines = V2.stats st2 V2.command_lines
  /\ V1.stats st1 V1.command_size_b = V2.stats st2 V2.command_size_b
  /\ V1.stats st1 V1.block_prefix_overhead_b
     = V2.stats st2 V2.block_prefix_overhead_b
  /\ V1.stats st1 V1.literal_gap_overhead_b
     = V2.stats st2 V2.literal_gap_overhead_b
  /\ V1.stats st1 V1.definition_lines + V1.stats st1 V1.other_lines
     = V2.stats st2 V2.definition_lines + V2.stats st2 V2.other_lines
  /\ V1.stats st1 V1.definition_size_b + V1.stats st1 V1.other_size_b
     = V2.stats st2 V2.definition_size_b + V2.stats st2 V2.other_size_b.

(** The two analyzers agree on the definitions too. *)
Definition agree_on_definitions (st1 : V1.state) (st2 : V2.state) : Prop :=
  V1.defined_vars st1 = V2.defined_vars st2
  /\ V1.stats st1 V1.definition_lines = V2.stats st2 V2.definition_lines
  /\ V1.stats st1 V1.definition_size_b = V2.stats st2 V2.definition_size_b
  /\ V1.stats st1 V1.definition_at_overhead_b
     = V2.stats st2 V2.definition_at_overhead_b
  /\ V1.stats st1 V1.other_lines = V2.stats st2 V2.other_lines
  /\ V1.stats st1 V1.other_size_b = V2.stats st2 V2.other_size_b.

(** The sum, over the entries of a usage table, of the count of an id times
    a weight of the id. *)
Definition weighted (w : list N -> Z) (used : gmap (list N) Z) : Z :=
  map_fold (fun var n acc => acc + n * w var) 0 used.

(** The classification test of a definition's content. *)
Definition heuristic (U : unicode) (content : list N) : bool :=
  (5 <? len content) && is_some (V2.full_line_heuristic_regex U content).

(** The counters of the efficiency statistics are what the usage table and
    the final tables give; while definitions are read nothing is tallied. *)
Definition closed_form (st : V2.state) : Prop :=
  (forall k, (12 <= V2.key_index k)%nat ->
     V2.stats st k
     = weighted (usage_weight (V2.defined_vars st) (V2.full_line_vars st) k)
         (V2.used_vars_count st))
  /\ (V2.parsing_definitions st = true -> V2.used_vars_count st = ∅).

(** The buckets are disjoint, and an id is in the full-line bucket exactly
    when its content passes the classification test. *)
Definition classified (U : unicode) (st : V2.state) : Prop :=
  V2.full_line_vars st ## V2.fragment_vars st
  /\ forall var content,
       V2.defined_vars st !! var = Some content ->
       (var ∈ V2.full_line_vars st <-> heuristic U content = true).

(** The bucket that matches the content an id has in the table always holds
    the id. *)
Definition bucket_of_content (U : unicode) (st : V2.state) : Prop :=
  forall var content,
    V2.defined_vars st !! var = Some content ->
    if heuristic U content then var ∈ V2.full_line_vars st
    else var ∈ V2.fragment_vars st.

(** A reference id: the sigil and at least one character of an id. *)
Definition reference_id (U : unicode) (var : list N) : Prop :=
  exists id, var = AT :: id /\ id <> []
    /\ Forall (fun c => is_word_or_digit U c = true) id.

(** What the tables hold: contents on one line, reference ids as keys,
    positive counts. *)
Definition clean_definitions (U : unicode) (defined : gmap (list N) (list N)) : Prop :=
  map_Forall (fun var content =>
    reference_id U var /\ (LF ∉ content) /\ (CR ∉ content)) defined.
Definition clean_usages (U : unicode) (used : gmap (list N) Z) : Prop :=
  map_Forall (fun var n => reference_id U var /\ 0 < n) used.

(** By decreasing count. *)
Definition descending (items : list (list N * Z)) : Prop :=
  forall (i j : nat) a b, (i <= j)%nat ->
    items !! i = Some a -> items !! j = Some b -> snd b <= snd a.

(** What the two replacements do to a character. *)
Definition display_chr (c : N) : list N :=
  if (c =? TAB)%N then BACKSLASH :: py "t"
  else if (c =? CR)%N then BACKSLASH :: py "r"
  else [c].

(* ===================================================================== *)
(** * Properties *)
(* ===================================================================== *)

(** ** Base58 *)

Lemma index_in_None c alphabet :
  index_in c alphabet = None <-> c ∉ alphabet.
Proof.
  induction alphabet as [|a rest IH]; simpl.
  - split; [intros _; apply not_elem_of_nil | done].
  - destruct (N.eqb_spec c a) as [->|Hne].
    + split; [done | intros H; exfalso; apply H; left].
    + rewrite not_elem_of_cons. destruct (index_in c rest); split; try done.
      * intros [_ H]. by apply IH in H.
      * intros _. split; [done | by apply IH].
Qed.

Lemma enumerate_map_lookup alphabet : forall index m c,
  NoDup alphabet ->
  enumerate_map index alphabet m !! c =
    match index_in c alphabet with
    | Some i => Some (index + i)
    | None => m !! c
    end.
Proof.
  induction alphabet as [|a rest IH]; intros index m c Hnd; simpl; [done|].
  apply NoDup_cons in Hnd as [Ha Hnd]. rewrite IH by done.
  destruct (N.eqb_spec c a) as [->|Hne].
  - apply index_in_None in Ha. rewrite Ha, lookup_insert_eq. f_equal; lia.
  - destruct (index_in c rest); [f_equal; lia|].
    by rewrite lookup_insert_ne.
Qed.

Lemma BASE58_ALPHABET_NoDup : NoDup BASE58_ALPHABET.
Proof. apply (bool_decide_unpack _). by vm_compute. Qed.

Lemma BASE58_MAP_lookup c :
  BASE58_MAP !! c = index_in c BASE58_ALPHABET.
Proof.
  unfold BASE58_MAP. rewrite enumerate_map_lookup by apply BASE58_ALPHABET_NoDup.
  destruct (index_in c BASE58_ALPHABET); [f_equal; lia | apply lookup_empty].
Qed.

Lemma index_in_nonneg c alphabet i : index_in c alphabet = Some i -> 0 <= i.
Proof.
  revert i. induction alphabet as [|a rest IH]; simpl; intros i; [done|].
  destruct (c =? a)%N; [intros [= <-]; lia|].
  destruct (index_in c rest) as [j|]; [|done].
  intros [= <-]. specialize (IH j eq_refl). lia.
Qed.

Lemma base58_index_nonneg c : 0 <= base58_index c.
Proof.
  unfold base58_index.
  destruct (index_in c BASE58_ALPHABET) eqn:E; [|lia].
  by eapply index_in_nonneg.
Qed.

Lemma positional_sum_nonneg chars : forall position,
  0 <= position -> 0 <= positional_sum chars position.
Proof.
  induction chars as [|c rest IH]; simpl; intros position Hp; [lia|].
  specialize (IH (position + 1) ltac:(lia)).
  pose proof (base58_index_nonneg c).
  assert (0 <= 58 ^ position) by (apply Z.pow_nonneg; lia). nia.
Qed.

Lemma decode_loop_spec chars : forall decoded position,
  0 <= position ->
  decode_loop chars decoded (58 ^ position) =
    if forallb in_alphabet chars
    then decoded + positional_sum chars position
    else -1.
Proof.
  induction chars as [|c rest IH]; intros decoded position Hp;
    cbn [decode_loop forallb positional_sum]; [lia|].
  rewrite BASE58_MAP_lookup. unfold in_alphabet at 1, base58_index.
  destruct (index_in c BASE58_ALPHABET) as [i|]; cbn [is_some andb]; [|done].
  replace (58 ^ position * BASE) with (58 ^ (position + 1))
    by (rewrite Z.pow_add_r by lia; reflexivity).
  rewrite IH by lia. destruct (forallb in_alphabet rest); [lia|done].
Qed.

Lemma forallb_rev {A} (p : A -> bool) (l : list A) :
  forallb p (rev l) = forallb p l.
Proof.
  induction l as [|a l IH]; simpl; [done|].
  rewrite forallb_app, IH. simpl. rewrite andb_true_r. apply andb_comm.
Qed.

(** C9: [decodeBase58] is total (no exception is modelled because none can be
    raised): it returns -1 for anything that is not a non-empty string over
    the alphabet, and for such a string the positional sum of the indices of
    its characters, which is not negative. *)
Theorem decodeBase58_spec (encoded : pyobj) :
  decodeBase58 encoded =
    match encoded with
    | PyStr (c :: s) =>
        if forallb in_alphabet (c :: s) then base58_value (c :: s) else -1
    | _ => -1
    end
  /\ (forall s, 0 <= base58_value s)
  /\ (forall s, s <> [] -> forallb in_alphabet s = true ->
        0 <= decodeBase58 (PyStr s)).
Proof.
  assert (Hval : forall s, 0 <= base58_value s)
    by (intros s; apply positional_sum_nonneg; lia).
  assert (Hstr : forall c s, decodeBase58 (PyStr (c :: s)) =
            if forallb in_alphabet (c :: s) then base58_value (c :: s) else -1).
  { intros c s. unfold decodeBase58, base58_value.
    change (negb (truthy (PyStr (c :: s))) || negb (isinstance_str (PyStr (c :: s))))
      with false. cbv iota.
    change 1 with (58 ^ 0).
    rewrite (decode_loop_spec (rev (c :: s)) 0 0) by lia.
    rewrite forallb_rev. destruct (forallb in_alphabet (c :: s)); [lia|done]. }
  split; [|split; [done|]].
  - destruct encoded as [[|c s]| |b|z|b]; try done.
    + destruct b; done.
    + unfold decodeBase58. simpl. by destruct (z =? 0).
    + unfold decodeBase58. simpl. by rewrite orb_true_r.
  - intros [|c s] Hne Hall; [done|]. rewrite Hstr, Hall. apply Hval.
Qed.

(** ** Scenario A *)

(** C1 (as the code computes it): on the file of scenario A the v2 analyzer
    records the single definition of "@x" as "hello", in the fragment bucket;
    the stripped prefix costs 2 bytes of H1; the one reference "@x" costs its
    2 bytes of H3 and replaces 5 bytes; the fragment definition cost is 7 and
    the fragment net savings are 5 - (7 + 2) = -4. *)
Theorem scenario_A_v2 (U : unicode) (size : Z) :
  let st := V2.analyze_patch U size scenario_A in
  V2.defined_vars st = {[ py "@x" := py "hello" ]}
  /\ V2.fragment_vars st = {[ py "@x" ]}
  /\ V2.full_line_vars st = ∅
  /\ V2.stats st V2.definition_lines = 1
  /\ V2.stats st V2.block_prefix_overhead_b = 2
  /\ V2.used_vars_count st = {[ py "@x" := 1 ]}
  /\ V2.stats st V2.total_reference_cost_b = 2
  /\ V2.stats st V2.fragment_ref_cost_b = 2
  /\ V2.stats st V2.total_replaced_bytes = 5
  /\ V2.stats st V2.fragment_replaced_b = 5
  /\ V2.def_cost_fragment_b st = 7
  /\ V2.net_savings_fragment st = -4.
Proof. vm_compute. repeat split; reflexivity. Qed.

(** C1, as the claim states it, fails: the reference cost of scenario A is
    not 3 and the fragment net savings are not -5. *)
Lemma scenario_A_v2_not_as_claimed :
  V2.stats (V2.analyze_patch ascii_only 21 scenario_A) V2.total_reference_cost_b <> 3
  /\ V2.net_savings_fragment (V2.analyze_patch ascii_only 21 scenario_A) <> -5.
Proof. vm_compute. split; discriminate. Qed.

(** ** The combinators *)

Section RegexFacts.
Context {A : Type}.
Implicit Types (p : N -> bool) (s run rest : list N).

Lemma re_plus_inv p (k : list N -> list N -> option A) s a :
  re_plus p k s = Some a ->
  exists run rest, s = run ++ rest /\ run <> []
    /\ Forall (fun c => p c = true) run /\ k run rest = Some a.
Proof.
  revert k. induction s as [|c s IH]; intros k; simpl; [done|].
  destruct (p c) eqn:Hc; [|done].
  destruct (re_plus p (fun run => k (c :: run)) s) as [b|] eqn:E.
  - intros [= ->]. apply IH in E as (run & rest & -> & _ & Hall & Hk).
    exists (c :: run), rest. repeat split; auto.
  - intros Hk. exists [c], s. repeat split; auto.
Qed.

Lemma re_chr_inv p (k : N -> list N -> option A) s a :
  re_chr p k s = Some a ->
  exists c rest, s = c :: rest /\ p c = true /\ k c rest = Some a.
Proof.
  destruct s as [|c s]; simpl; [done|].
  destruct (p c) eqn:Hc; [|done]. intros Hk. by exists c, s.
Qed.

Lemma re_end_inv (a b : A) s :
  re_end a s = Some b -> a = b /\ (s = [] \/ s = [LF]).
Proof.
  destruct s as [|c [|d s]]; simpl; try done.
  - intros [= ->]. auto.
  - destruct (N.eqb_spec c LF) as [->|]; [|done]. intros [= ->]. auto.
Qed.

(** Under [re.DOTALL] a greedy ".*" before "$" takes the whole rest. *)
Lemma re_plus_any_end (f : list N -> A) s :
  s <> [] -> re_plus any_chr (fun run => re_end (f run)) s = Some (f s).
Proof.
  revert f. induction s as [|c s IH]; intros f Hne; [done|]. simpl.
  destruct s as [|d s]; [done|].
  by rewrite (IH (fun run => f (c :: run))).
Qed.

Lemma re_star_any_end (f : list N -> A) s :
  re_star any_chr (fun run => re_end (f run)) s = Some (f s).
Proof.
  unfold re_star. destruct s as [|c s]; [done|].
  by rewrite re_plus_any_end.
Qed.

End RegexFacts.

(** ** Sizes *)

Lemma utf8_len_chr_pos c : 1 <= utf8_len_chr c.
Proof. unfold utf8_len_chr. repeat case_match; lia. Qed.

Lemma utf8_len_app s1 s2 : utf8_len (s1 ++ s2) = utf8_len s1 + utf8_len s2.
Proof. induction s1 as [|c s1 IH]; simpl; lia. Qed.

Lemma utf8_len_ge_len s : len s <= utf8_len s.
Proof.
  unfold len. induction s as [|c s IH]; simpl; [lia|].
  pose proof (utf8_len_chr_pos c). lia.
Qed.

Lemma utf8_len_nonneg s : 0 <= utf8_len s.
Proof. pose proof (utf8_len_ge_len s). unfold len in *. lia. Qed.

Lemma rstrip_nl_prefix s : exists tail, s = rstrip_nl s ++ tail.
Proof.
  induction s as [|c s [tail IH]]; simpl; [by exists []|].
  destruct (rstrip_nl s) as [|d r] eqn:E.
  - destruct (c =? LF)%N; [by exists (c :: s)|].
    simpl in IH. subst tail. by exists s.
  - exists tail. simpl. by rewrite IH at 1.
Qed.

Lemma utf8_len_rstrip_nl s : utf8_len (rstrip_nl s) <= utf8_len s.
Proof.
  destruct (rstrip_nl_prefix s) as [tail H]. rewrite H at 2.
  rewrite utf8_len_app. pose proof (utf8_len_nonneg tail). lia.
Qed.

(** ** The shapes the patterns accept *)

Section PatternFacts.
Context (U : unicode).

Lemma def_regex_inv line var content :
  def_regex U line = Some (var, content) ->
  exists id sp, line = AT :: id ++ sp :: content /\ var = AT :: id
    /\ id <> [] /\ Forall (fun c => is_word_or_digit U c = true) id
    /\ is_space U sp = true.
Proof.
  unfold def_regex. intros H.
  apply re_chr_inv in H as (a & s1 & -> & Ha & H).
  apply N.eqb_eq in Ha as ->.
  apply re_plus_inv in H as (id & s2 & -> & Hne & Hid & H).
  apply re_chr_inv in H as (sp & s3 & -> & Hsp & H).
  rewrite (re_star_any_end (fun content => (AT :: id, content))) in H.
  injection H as <- <-. by exists id, sp.
Qed.

Lemma def_regex_no_content_inv line var :
  V2.def_regex_no_content U line = Some var ->
  exists id tail, line = AT :: id ++ tail /\ var = AT :: id
    /\ id <> [] /\ Forall (fun c => is_word_or_digit U c = true) id
    /\ (tail = [] \/ tail = [LF]).
Proof.
  unfold V2.def_regex_no_content. intros H.
  apply re_chr_inv in H as (a & s1 & -> & Ha & H).
  apply N.eqb_eq in Ha as ->.
  apply re_plus_inv in H as (id & s2 & -> & Hne & Hid & H).
  apply re_end_inv in H as [<- H]. by exists id, s2.
Qed.

Lemma block_header_regex_inv line g1 g2 g3 :
  block_header_regex U line = Some (g1, g2, g3) ->
  (exists c rest, line = c :: rest /\ is_word_or_digit U c = true)
  /\ g3 <> [] /\ Forall (fun c => is_digit U c = true) g3.
Proof.
  unfold block_header_regex. intros H.
  apply re_plus_inv in H as (r1 & s1 & -> & Hne & Hr1 & H).
  apply re_plus_inv in H as (r2 & s2 & -> & _ & _ & H).
  apply re_chr_inv in H as (ad & s3 & -> & _ & H).
  apply re_chr_inv in H as (pl & s4 & -> & _ & H).
  apply re_plus_inv in H as (r5 & s5 & -> & _ & _ & H).
  apply re_plus_inv in H as (r6 & s6 & -> & Hne6 & Hr6 & H).
  apply re_end_inv in H as [H _]. injection H as <- <- <-.
  split; [|done].
  destruct r1 as [|c r1]; [done|]. apply Forall_cons in Hr1 as [Hc _].
  by exists c, (r1 ++ r2 ++ ad :: pl :: r5 ++ r6 ++ s6).
Qed.

(** A line that starts with the sigil is neither a block header nor a
    command. *)
Lemma sigil_not_header s : block_header_regex U (AT :: s) = None.
Proof. reflexivity. Qed.

Lemma sigil_not_command s :
  is_some (command_ad_regex U (AT :: s)) || is_some (command_MR_regex U (AT :: s))
  = false.
Proof. reflexivity. Qed.

Lemma digit_value_range c : is_digit U c = true -> 0 <= digit_value U c <= 9.
Proof.
  unfold is_digit, digit_value, ascii_digit, in_range.
  destruct (c <? 128)%N.
  - intros [H1 H2]%andb_true_iff.
    apply N.leb_le in H1, H2. lia.
  - destruct (uni_decimal U c) as [d|] eqn:E; [|done].
    intros _. by apply (uni_decimal_range U c).
Qed.

Lemma int_of_digits_nonneg g :
  Forall (fun c => is_digit U c = true) g -> 0 <= int_of_digits U g.
Proof.
  unfold int_of_digits. intros Hall.
  cut (forall acc, 0 <= acc ->
         0 <= fold_left (fun acc c => acc * 10 + digit_value U c) g acc).
  { intros H. apply H. lia. }
  induction Hall as [|c g Hc Hall IH]; intros acc Hacc; simpl; [done|].
  apply IH. pose proof (digit_value_range c Hc). lia.
Qed.

End PatternFacts.

(** ** What scanning a line changes *)

Ltac keys := unfold V1.bump, V1.put, V2.bump, V2.put; simpl.

Section ScanFacts.
Context (U : unicode).

Lemma re_plus_fmap {A B} (g : A -> B) p (k : list N -> list N -> option A) s :
  re_plus p (fun run rest => g <$> k run rest) s = g <$> re_plus p k s.
Proof.
  revert k. induction s as [|c s IH]; intros k; simpl; [done|].
  destruct (p c); [|done].
  rewrite (IH (fun run => k (c :: run))).
  by destruct (re_plus p (fun run => k (c :: run)) s).
Qed.

Lemma var_usage_regex_v2_v1 s :
  V2.var_usage_regex U s =
  (fun '(id, rest) => (AT :: id, rest)) <$> V1.var_usage_regex U s.
Proof.
  unfold V2.var_usage_regex, V1.var_usage_regex. destruct s as [|c s]; [done|].
  simpl. unfold is_chr. destruct (N.eqb_spec c AT) as [->|]; [|done].
  by rewrite <- re_plus_fmap.
Qed.

Lemma findall_from_fmap {A B} (g : A -> B) m1 m2 :
  (forall s, m2 s = (fun '(a, rest) => (g a, rest)) <$> m1 s) ->
  forall s n, findall_from m2 n s = map g (findall_from m1 n s).
Proof.
  intros Hm. induction s as [|c s IH]; intros n; simpl; [done|].
  destruct n as [|n]; [|apply IH].
  rewrite Hm. destruct (m1 (c :: s)) as [[a rest]|]; simpl; [|apply IH].
  by rewrite IH.
Qed.

(** Both analyzers find the same reference tokens in a text; v1 reports
    them without the sigil and puts it back. *)
Lemma tokens_v1 s :
  tokens U s = map (cons AT) (findall (V1.var_usage_regex U) s).
Proof. apply findall_from_fmap, var_usage_regex_v2_v1. Qed.

Lemma fold_left_preserves {S X T : Type} (proj : S -> T) (f : S -> X -> S) :
  (forall st x, proj (f st x) = proj st) ->
  forall l st, proj (fold_left f l st) = proj st.
Proof.
  intros Hf. induction l as [|x l IH]; intros st; simpl; [done|].
  by rewrite IH.
Qed.

Lemma fold_left_adds {S X : Type} (proj : S -> Z) (w : X -> Z) (f : S -> X -> S) :
  (forall st x, proj (f st x) = proj st + w x) ->
  forall l st, proj (fold_left f l st) = proj st + Zsum (map w l).
Proof.
  intros Hf. induction l as [|x l IH]; intros st; simpl; [lia|].
  rewrite IH, Hf. lia.
Qed.

Lemma fold_left_counts {S X : Type} (proj : S -> gmap (list N) Z) (g : X -> list N)
    (f : S -> X -> S) :
  (forall st x, proj (f st x) = count_usage (g x) (proj st)) ->
  forall l st, proj (fold_left f l st) = count_all (map g l) (proj st).
Proof.
  intros Hf. induction l as [|x l IH]; intros st; simpl; [done|].
  by rewrite IH, Hf.
Qed.

Lemma Zsum_const_0 {X} (l : list X) : Zsum (map (fun _ => 0) l) = 0.
Proof. induction l; simpl; lia. Qed.

(** *** v1 *)

Lemma V1_scan_frame content st : V1_frame st (V1.scan U content st).
Proof.
  unfold V1.scan, V1_frame.
  repeat split;
    (rewrite fold_left_preserves by done; simpl;
     by rewrite fold_left_preserves by done).
Qed.

Lemma V1_scan_used content st :
  V1.used_vars_count (V1.scan U content st) =
  count_all (tokens U content) (V1.used_vars_count st).
Proof.
  unfold V1.scan. rewrite fold_left_preserves by done. simpl.
  rewrite tokens_v1. by apply fold_left_counts.
Qed.

Lemma V1_scan_stats content st k :
  V1.stats (V1.scan U content st) k = V1.stats st k + V1_scan_delta U content k.
Proof.
  unfold V1.scan.
  rewrite (fold_left_adds (fun st => V1.stats st k)
    (fun g => if (V1.key_index k =? 8)%nat then gap_header_len g else 0))
    by (intros; destruct k; keys; lia).
  simpl.
  rewrite (fold_left_preserves (fun st => V1.stats st)) by done.
  unfold V1_scan_delta, gaps. rewrite tokens_v1, length_map.
  destruct k; keys; rewrite ?Zsum_const_0; first [lia | reflexivity].
Qed.

(** *** v2 *)

Lemma V2_record_usage_frame st v : V2_frame st (V2.record_usage st v).
Proof.
  unfold V2.record_usage, V2_frame. simpl.
  destruct (V2.defined_vars st !! v); simpl; [|done].
  by case_bool_decide.
Qed.

Lemma V2_record_usage_used st v :
  V2.used_vars_count (V2.record_usage st v) =
  count_usage v (V2.used_vars_count st).
Proof.
  unfold V2.record_usage. simpl.
  destruct (V2.defined_vars st !! v); simpl; [|done].
  by case_bool_decide.
Qed.

Lemma V2_record_usage_stats st v k :
  V2_basic k ->
  V2.stats (V2.record_usage st v) k =
  V2.stats st k + if (V2.key_index k =? 11)%nat then utf8_len v else 0.
Proof.
  unfold V2.record_usage, V2_basic. simpl. intros Hk.
  destruct (V2.defined_vars st !! v); simpl;
    [case_bool_decide|]; destruct k; keys; simpl in Hk; lia.
Qed.

Lemma V2_fold_usages_frame usages : forall st,
  V2_frame st (fold_left V2.record_usage usages st).
Proof.
  induction usages as [|v usages IH]; intros st; simpl; [done|].
  specialize (IH (V2.record_usage st v)).
  pose proof (V2_record_usage_frame st v).
  unfold V2_frame in *. intuition congruence.
Qed.

Lemma V2_scan_frame content st : V2_frame st (V2.scan U content st).
Proof.
  unfold V2.scan.
  pose proof (V2_fold_usages_frame (findall (V2.var_usage_regex U) content) st)
    as H.
  unfold V2_frame in *.
  repeat split; (rewrite fold_left_preserves by done; apply H).
Qed.

Lemma V2_scan_used content st :
  V2.used_vars_count (V2.scan U content st) =
  count_all (tokens U content) (V2.used_vars_count st).
Proof.
  unfold V2.scan. rewrite fold_left_preserves by done.
  rewrite (fold_left_counts V2.used_vars_count id)
    by apply V2_record_usage_used.
  by rewrite map_id.
Qed.

Lemma V2_scan_stats content st k :
  V2_basic k ->
  V2.stats (V2.scan U content st) k = V2.stats st k + V2_scan_delta U content k.
Proof.
  intros Hk. unfold V2.scan.
  rewrite (fold_left_adds (fun st => V2.stats st k)
    (fun g => if (V2.key_index k =? 7)%nat then gap_header_len g else 0))
    by (intros; destruct k; keys; lia).
  rewrite (fold_left_adds (fun st => V2.stats st k)
    (fun v => if (V2.key_index k =? 11)%nat then utf8_len v else 0))
    by (intros; by apply V2_record_usage_stats).
  unfold V2_scan_delta, gaps, tokens, V2_basic in *.
  destruct k; simpl in *; rewrite ?Zsum_const_0, ?Z.add_0_r;
    first [lia | reflexivity].
Qed.

Lemma V1_scan_defined c st :
  V1.defined_vars (V1.scan U c st) = V1.defined_vars st.
Proof. apply V1_scan_frame. Qed.
Lemma V1_scan_in_block c st : V1.in_block (V1.scan U c st) = V1.in_block st.
Proof. apply V1_scan_frame. Qed.
Lemma V1_scan_remaining c st :
  V1.block_lines_remaining (V1.scan U c st) = V1.block_lines_remaining st.
Proof. apply V1_scan_frame. Qed.
Lemma V1_scan_flag c st :
  V1.compression_flag (V1.scan U c st) = V1.compression_flag st.
Proof. apply V1_scan_frame. Qed.

Lemma V2_scan_defined c st :
  V2.defined_vars (V2.scan U c st) = V2.defined_vars st.
Proof. apply V2_scan_frame. Qed.
Lemma V2_scan_full c st :
  V2.full_line_vars (V2.scan U c st) = V2.full_line_vars st.
Proof. apply V2_scan_frame. Qed.
Lemma V2_scan_fragment c st :
  V2.fragment_vars (V2.scan U c st) = V2.fragment_vars st.
Proof. apply V2_scan_frame. Qed.
Lemma V2_scan_in_block c st : V2.in_block (V2.scan U c st) = V2.in_block st.
Proof. apply V2_scan_frame. Qed.
Lemma V2_scan_remaining c st :
  V2.block_lines_remaining (V2.scan U c st) = V2.block_lines_remaining st.
Proof. apply V2_scan_frame. Qed.
Lemma V2_scan_parsing c st :
  V2.parsing_definitions (V2.scan U c st) = V2.parsing_definitions st.
Proof. apply V2_scan_frame. Qed.
Lemma V2_scan_flag c st :
  V2.compression_flag (V2.scan U c st) = V2.compression_flag st.
Proof. apply V2_scan_frame. Qed.

End ScanFacts.

Create Rewrite HintDb scan.
#[local] Hint Rewrite V1_scan_defined V1_scan_in_block V1_scan_remaining
  V1_scan_flag V1_scan_used V1_scan_stats
  V2_scan_defined V2_scan_full V2_scan_fragment V2_scan_in_block
  V2_scan_remaining V2_scan_parsing V2_scan_flag V2_scan_used : scan.
#[local] Hint Rewrite V2_scan_stats
  using (first [assumption | unfold V2_basic; simpl; lia]) : scan.

(** ** What each branch of a turn changes *)

Section Branches.
Context (U : unicode).

(** *** v1 *)

Lemma V1_block_line line n st :
  V1.defined_vars (V1.block_line U line n st) = V1.defined_vars st
  /\ V1.compression_flag (V1.block_line U line n st) = V1.compression_flag st
  /\ V1.block_lines_remaining (V1.block_line U line n st)
     = V1.block_lines_remaining st - 1
  /\ V1.in_block (V1.block_line U line n st)
     = (if V1.block_lines_remaining st - 1 =? 0 then false else V1.in_block st)
  /\ V1.used_vars_count (V1.block_line U line n st)
     = count_all (tokens U (block_content line)) (V1.used_vars_count st)
  /\ (forall k, V1.stats (V1.block_line U line n st) k
        = V1.stats st k + V1_block_delta U line n k).
Proof.
  unfold V1.block_line, V1_block_delta, block_content, has_block_prefix.
  destruct (startswith (py "a ") line || startswith (py "d ") line) eqn:E1;
  [|destruct (startswith (py "A ") line || startswith (py "D ") line) eqn:E2];
  cbv zeta iota beta; cbn [orb];
  cbn [V1.block_lines_remaining V1.set_block_lines_remaining];
  autorewrite with scan; cbn [V1.block_lines_remaining V1.with_stats];
  (destruct (V1.block_lines_remaining st - 1 =? 0) eqn:E;
   repeat split; try intros k; simpl; autorewrite with scan; try done;
   destruct k; keys; lia).
Qed.

Lemma V1_definition_line var content n st :
  V1.defined_vars (V1.definition_line var content n st)
  = <[var := content]> (V1.defined_vars st)
  /\ V1.compression_flag (V1.definition_line var content n st)
     = V1.compression_flag st
  /\ V1.block_lines_remaining (V1.definition_line var content n st)
     = V1.block_lines_remaining st
  /\ V1.in_block (V1.definition_line var content n st) = V1.in_block st
  /\ V1.used_vars_count (V1.definition_line var content n st)
     = V1.used_vars_count st
  /\ (forall k, V1.stats (V1.definition_line var content n st) k
        = V1.stats st k + V1_definition_delta n k).
Proof.
  unfold V1.definition_line. simpl. repeat split.
  intros k; destruct k; keys; lia.
Qed.

Lemma V1_header_line g3 n st :
  V1.defined_vars (V1.header_line U g3 n st) = V1.defined_vars st
  /\ V1.compression_flag (V1.header_line U g3 n st) = V1.compression_flag st
  /\ V1.block_lines_remaining (V1.header_line U g3 n st) = int_of_digits U g3
  /\ V1.in_block (V1.header_line U g3 n st) = (0 <? int_of_digits U g3)
  /\ V1.used_vars_count (V1.header_line U g3 n st) = V1.used_vars_count st
  /\ (forall k, V1.stats (V1.header_line U g3 n st) k
        = V1.stats st k + V1_header_delta n k).
Proof.
  unfold V1.header_line. simpl. repeat split.
  intros k; destruct k; keys; lia.
Qed.

Lemma V1_command_line line n st :
  V1.defined_vars (V1.command_line U line n st) = V1.defined_vars st
  /\ V1.compression_flag (V1.command_line U line n st) = V1.compression_flag st
  /\ V1.block_lines_remaining (V1.command_line U line n st)
     = V1.block_lines_remaining st
  /\ V1.in_block (V1.command_line U line n st) = V1.in_block st
  /\ V1.used_vars_count (V1.command_line U line n st)
     = count_all (tokens U line) (V1.used_vars_count st)
  /\ (forall k, V1.stats (V1.command_line U line n st) k
        = V1.stats st k + V1_command_delta U line n k).
Proof.
  unfold V1.command_line, V1_command_delta. cbv zeta.
  autorewrite with scan. simpl. repeat split.
  intros k. autorewrite with scan. destruct k; keys; lia.
Qed.

Lemma V1_other_line n st :
  V1.defined_vars (V1.other_line n st) = V1.defined_vars st
  /\ V1.compression_flag (V1.other_line n st) = V1.compression_flag st
  /\ V1.block_lines_remaining (V1.other_line n st) = V1.block_lines_remaining st
  /\ V1.in_block (V1.other_line n st) = V1.in_block st
  /\ V1.used_vars_count (V1.other_line n st) = V1.used_vars_count st
  /\ (forall k, V1.stats (V1.other_line n st) k
        = V1.stats st k + V1_other_delta n k).
Proof.
  unfold V1.other_line. simpl. repeat split.
  intros k; destruct k; keys; lia.
Qed.

(** *** v2 *)

Lemma V2_block_line line n st :
  V2.defined_vars (V2.block_line U line n st) = V2.defined_vars st
  /\ V2.full_line_vars (V2.block_line U line n st) = V2.full_line_vars st
  /\ V2.fragment_vars (V2.block_line U line n st) = V2.fragment_vars st
  /\ V2.compression_flag (V2.block_line U line n st) = V2.compression_flag st
  /\ V2.parsing_definitions (V2.block_line U line n st) = V2.parsing_definitions st
  /\ V2.block_lines_remaining (V2.block_line U line n st)
     = V2.block_lines_remaining st - 1
  /\ V2.in_block (V2.block_line U line n st)
     = (if V2.block_lines_remaining st - 1 =? 0 then false else V2.in_block st)
  /\ V2.used_vars_count (V2.block_line U line n st)
     = count_all (tokens U (block_content line)) (V2.used_vars_count st)
  /\ (forall k, V2_basic k -> V2.stats (V2.block_line U line n st) k
        = V2.stats st k + V2_block_delta U line n k).
Proof.
  unfold V2.block_line, V2_block_delta, block_content.
  rewrite <- orb_assoc. fold (has_block_prefix line).
  destruct (has_block_prefix line) eqn:E1;
  cbv zeta iota beta;
  cbn [V2.block_lines_remaining V2.set_block_lines_remaining];
  autorewrite with scan; cbn [V2.block_lines_remaining V2.with_stats];
  (destruct (V2.block_lines_remaining st - 1 =? 0) eqn:E;
   repeat split; try intros k Hk; simpl; autorewrite with scan; try done;
   unfold V2_basic in Hk; destruct k; keys; simpl in Hk; lia).
Qed.

Lemma V2_definition_line var content n st :
  V2.defined_vars (V2.definition_line U var content n st)
  = <[var := content]> (V2.defined_vars st)
  /\ V2.full_line_vars (V2.definition_line U var content n st)
     = (if (5 <? len content)
            && is_some (V2.full_line_heuristic_regex U content)
        then {[ var ]} ∪ V2.full_line_vars st else V2.full_line_vars st)
  /\ V2.fragment_vars (V2.definition_line U var content n st)
     = (if (5 <? len content)
            && is_some (V2.full_line_heuristic_regex U content)
        then V2.fragment_vars st else {[ var ]} ∪ V2.fragment_vars st)
  /\ V2.compression_flag (V2.definition_line U var content n st)
     = V2.compression_flag st
  /\ V2.parsing_definitions (V2.definition_line U var content n st)
     = V2.parsing_definitions st
  /\ V2.block_lines_remaining (V2.definition_line U var content n st)
     = V2.block_lines_remaining st
  /\ V2.in_block (V2.definition_line U var content n st) = V2.in_block st
  /\ V2.used_vars_count (V2.definition_line U var content n st)
     = V2.used_vars_count st
  /\ (forall k, V2.stats (V2.definition_line U var content n st) k
        = V2.stats st k + V2_definition_delta n k).
Proof.
  unfold V2.definition_line. cbv zeta.
  destruct (_ && _); simpl; repeat split; intros k; destruct k; keys; lia.
Qed.

Lemma V2_empty_definition_line var n st :
  V2.defined_vars (V2.empty_definition_line var n st)
  = <[var := []]> (V2.defined_vars st)
  /\ V2.full_line_vars (V2.empty_definition_line var n st)
     = V2.full_line_vars st
  /\ V2.fragment_vars (V2.empty_definition_line var n st)
     = {[ var ]} ∪ V2.fragment_vars st
  /\ V2.compression_flag (V2.empty_definition_line var n st)
     = V2.compression_flag st
  /\ V2.parsing_definitions (V2.empty_definition_line var n st)
     = V2.parsing_definitions st
  /\ V2.block_lines_remaining (V2.empty_definition_line var n st)
     = V2.block_lines_remaining st
  /\ V2.in_block (V2.empty_definition_line var n st) = V2.in_block st
  /\ V2.used_vars_count (V2.empty_definition_line var n st)
     = V2.used_vars_count st
  /\ (forall k, V2.stats (V2.empty_definition_line var n st) k
        = V2.stats st k + V2_definition_delta n k).
Proof.
  unfold V2.empty_definition_line. simpl. repeat split.
  intros k; destruct k; keys; lia.
Qed.

Lemma V2_header_line g3 n st :
  V2.defined_vars (V2.header_line U g3 n st) = V2.defined_vars st
  /\ V2.full_line_vars (V2.header_line U g3 n st) = V2.full_line_vars st
  /\ V2.fragment_vars (V2.header_line U g3 n st) = V2.fragment_vars st
  /\ V2.compression_flag (V2.header_line U g3 n st) = V2.compression_flag st
  /\ V2.parsing_definitions (V2.header_line U g3 n st) = V2.parsing_definitions st
  /\ V2.block_lines_remaining (V2.header_line U g3 n st)
     = int_of_digits U g3
  /\ V2.in_block (V2.header_line U g3 n st)
     = (0 <? int_of_digits U g3)
  /\ V2.used_vars_count (V2.header_line U g3 n st)
     = V2.used_vars_count st
  /\ (forall k, V2.stats (V2.header_line U g3 n st) k
        = V2.stats st k + V2_header_delta n k).
Proof.
  unfold V2.header_line. simpl. repeat split.
  intros k; destruct k; keys; lia.
Qed.

Lemma V2_command_line line n st :
  V2.defined_vars (V2.command_line U line n st) = V2.defined_vars st
  /\ V2.full_line_vars (V2.command_line U line n st) = V2.full_line_vars st
  /\ V2.fragment_vars (V2.command_line U line n st) = V2.fragment_vars st
  /\ V2.compression_flag (V2.command_line U line n st) = V2.compression_flag st
  /\ V2.parsing_definitions (V2.command_line U line n st) = V2.parsing_definitions st
  /\ V2.block_lines_remaining (V2.command_line U line n st)
     = V2.block_lines_remaining st
  /\ V2.in_block (V2.command_line U line n st)
     = V2.in_block st
  /\ V2.used_vars_count (V2.command_line U line n st)
     = count_all (tokens U line) (V2.used_vars_count st)
  /\ (forall k, V2_basic k -> V2.stats (V2.command_line U line n st) k
        = V2.stats st k + V2_command_delta U line n k).
Proof.
  unfold V2.command_line, V2_command_delta. cbv zeta.
  autorewrite with scan. simpl. repeat split.
  intros k Hk. autorewrite with scan.
  unfold V2_basic in Hk. destruct k; keys; simpl in Hk; lia.
Qed.

Lemma V2_other_line n st :
  V2.defined_vars (V2.other_line n st) = V2.defined_vars st
  /\ V2.full_line_vars (V2.other_line n st) = V2.full_line_vars st
  /\ V2.fragment_vars (V2.other_line n st) = V2.fragment_vars st
  /\ V2.compression_flag (V2.other_line n st) = V2.compression_flag st
  /\ V2.parsing_definitions (V2.other_line n st) = V2.parsing_definitions st
  /\ V2.block_lines_remaining (V2.other_line n st)
     = V2.block_lines_remaining st
  /\ V2.in_block (V2.other_line n st)
     = V2.in_block st
  /\ V2.used_vars_count (V2.other_line n st)
     = V2.used_vars_count st
  /\ (forall k, V2.stats (V2.other_line n st) k
        = V2.stats st k + V2_other_delta n k).
Proof.
  unfold V2.other_line. simpl. repeat split.
  intros k; destruct k; keys; lia.
Qed.

End Branches.

#[local] Arguments V1.block_line : simpl never.
#[local] Arguments V1.definition_line : simpl never.
#[local] Arguments V1.header_line : simpl never.
#[local] Arguments V1.command_line : simpl never.
#[local] Arguments V1.other_line : simpl never.
#[local] Arguments V1.scan : simpl never.
#[local] Arguments V2.block_line : simpl never.
#[local] Arguments V2.definition_line : simpl never.
#[local] Arguments V2.empty_definition_line : simpl never.
#[local] Arguments V2.header_line : simpl never.
#[local] Arguments V2.command_line : simpl never.
#[local] Arguments V2.other_line : simpl never.
#[local] Arguments V2.command_step : simpl never.
#[local] Arguments V2.scan : simpl never.

(** Splits a turn of the loop into the branches of the source. *)
Ltac v1_branches U n line st :=
  unfold V1.step; cbv zeta;
  destruct ((n =? 0)%nat && bool_decide (rstrip_nl line = [TILDE]))
    eqn:Hmarker;
  [| cbn [V1.in_block V1.with_stats];
     destruct (V1.in_block st) eqn:Hblock;
     [| destruct (def_regex U (rstrip_nl line)) as [[var content]|] eqn:Hdef;
        [| destruct (block_header_regex U (rstrip_nl line))
             as [[[g1 g2] g3]|] eqn:Hhdr;
           [| destruct (is_some (command_ad_regex U (rstrip_nl line))
                        || is_some (command_MR_regex U (rstrip_nl line)))
                eqn:Hcmd ]]]].

Ltac v2_command_branches U l st :=
  unfold V2.command_step;
  cbn [V2.in_block V2.with_stats V2.set_parsing_definitions];
  destruct (V2.in_block st) eqn:Hblock;
  [| destruct (block_header_regex U l) as [[[g1 g2] g3]|] eqn:Hhdr;
     [| destruct (is_some (command_ad_regex U l)
                  || is_some (command_MR_regex U l)) eqn:Hcmd ]].

Ltac v2_branches U n line st :=
  unfold V2.step; cbv zeta;
  destruct ((n =? 0)%nat && bool_decide (rstrip_nl line = [TILDE]))
    eqn:Hmarker;
  [| cbn [V2.parsing_definitions V2.with_stats];
     destruct (V2.parsing_definitions st) eqn:Hparsing;
     [ destruct (def_regex U (rstrip_nl line)) as [[var content]|] eqn:Hdef;
       [| destruct (V2.def_regex_no_content U (rstrip_nl line))
            as [var|] eqn:Hempty;
          [| v2_command_branches U (rstrip_nl line) st ]]
     | v2_command_branches U (rstrip_nl line) st ]].

(** Reduces the projections of a state built by the setters. *)
Ltac fields :=
  cbn [V1.stats V1.compression_flag V1.defined_vars V1.used_vars_count
       V1.in_block V1.block_lines_remaining
       V1.with_stats V1.set_compression_flag V1.with_defined_vars
       V1.with_used_vars_count V1.set_in_block V1.set_block_lines_remaining
       V2.stats V2.compression_flag V2.full_line_vars V2.fragment_vars
       V2.defined_vars V2.used_vars_count V2.in_block
       V2.block_lines_remaining V2.parsing_definitions
       V2.with_stats V2.set_compression_flag V2.add_full_line_var
       V2.add_fragment_var V2.with_defined_vars V2.with_used_vars_count
       V2.set_in_block V2.set_block_lines_remaining
       V2.set_parsing_definitions] in *.

(** Brings the facts of a branch lemma into the context. *)
Ltac facts L :=
  let H := fresh "F" in
  pose proof L as H; unfold V1_frame, V2_frame in H; fields;
  repeat match type of H with
         | _ /\ _ => let H1 := fresh "F" in destruct H as [H1 H]
         end.

(** ** Definitions come first (C3) *)

Section Ordering.
Context (U : unicode).

Lemma V2_command_step_definitions l n st :
  V2.parsing_definitions (V2.command_step U l n st) = V2.parsing_definitions st
  /\ V2.defined_vars (V2.command_step U l n st) = V2.defined_vars st
  /\ V2.full_line_vars (V2.command_step U l n st) = V2.full_line_vars st
  /\ V2.fragment_vars (V2.command_step U l n st) = V2.fragment_vars st
  /\ (forall k, (2 <= V2.key_index k <= 4)%nat ->
        V2.stats (V2.command_step U l n st) k = V2.stats st k).
Proof.
  assert (Hk : forall k, (2 <= V2.key_index k <= 4)%nat -> V2_basic k)
    by (unfold V2_basic; lia).
  v2_command_branches U l st.
  - facts (V2_block_line U l n st). repeat split; try done.
    intros k Hr. rewrite F by auto. unfold V2_block_delta.
    destruct k; simpl in *; lia.
  - facts (V2_header_line U g3 n st). repeat split; try done.
    intros k Hr. rewrite F. destruct k; simpl in *; lia.
  - facts (V2_command_line U l n st). repeat split; try done.
    intros k Hr. rewrite F by auto. unfold V2_command_delta.
    destruct k; simpl in *; lia.
  - facts (V2_other_line n st). repeat split; try done.
    intros k Hr. rewrite F. destruct k; simpl in *; lia.
Qed.

Lemma V2_step_after_definitions n line st :
  V2.parsing_definitions st = false ->
  V2.parsing_definitions (V2.step U n line st) = false
  /\ V2.defined_vars (V2.step U n line st) = V2.defined_vars st
  /\ V2.full_line_vars (V2.step U n line st) = V2.full_line_vars st
  /\ V2.fragment_vars (V2.step U n line st) = V2.fragment_vars st
  /\ (forall k, (2 <= V2.key_index k <= 4)%nat ->
        V2.stats (V2.step U n line st) k = V2.stats st k).
Proof.
  intros Hp. unfold V2.step. cbv zeta.
  destruct (_ && _).
  { fields. repeat split; try done. intros k Hk. destruct k; keys; simpl in *; lia. }
  fields. rewrite Hp.
  destruct (V2_command_step_definitions (rstrip_nl line)
    (utf8_len (rstrip_nl line)) (V2.with_stats (V2.bump V2.total_lines 1) st))
    as (H1 & H2 & H3 & H4 & H5).
  fields. repeat split; try congruence.
  intros k Hk. rewrite H5 by done. destruct k; keys; simpl in *; lia.
Qed.

Lemma V2_loop_after_definitions lines : forall n st,
  V2.parsing_definitions st = false ->
  V2.parsing_definitions (V2.loop U n lines st) = false
  /\ V2.defined_vars (V2.loop U n lines st) = V2.defined_vars st
  /\ V2.full_line_vars (V2.loop U n lines st) = V2.full_line_vars st
  /\ V2.fragment_vars (V2.loop U n lines st) = V2.fragment_vars st
  /\ (forall k, (2 <= V2.key_index k <= 4)%nat ->
        V2.stats (V2.loop U n lines st) k = V2.stats st k).
Proof.
  induction lines as [|line lines IH]; intros n st Hp; cbn [V2.loop]; [done|].
  destruct (V2_step_after_definitions n line st Hp) as (H1 & H2 & H3 & H4 & H5).
  destruct (IH (S n) _ H1) as (I1 & I2 & I3 & I4 & I5).
  repeat split; try congruence.
  intros k Hk. by rewrite I5, H5.
Qed.

(** C3 (as the code has it): in the v2 analyzer a line that is neither the
    marker line nor of a definition shape ends the definitions, and from then
    on no line is recorded as a definition, whatever its shape.  The v1
    analyzer keeps no such state: every line of definition shape that it
    reads outside a block is recorded as a definition, wherever it stands. *)
Theorem definitions_precede_commands :
  (forall n line st,
     is_marker n line = false ->
     def_regex U (rstrip_nl line) = None ->
     V2.def_regex_no_content U (rstrip_nl line) = None ->
     V2.parsing_definitions (V2.step U n line st) = false)
  /\ (forall lines n st,
       V2.parsing_definitions st = false ->
       V2.parsing_definitions (V2.loop U n lines st) = false
       /\ V2.defined_vars (V2.loop U n lines st) = V2.defined_vars st
       /\ V2.full_line_vars (V2.loop U n lines st) = V2.full_line_vars st
       /\ V2.fragment_vars (V2.loop U n lines st) = V2.fragment_vars st
       /\ V2.stats (V2.loop U n lines st) V2.definition_lines
          = V2.stats st V2.definition_lines)
  /\ (forall n line st var content,
       is_marker n line = false ->
       V1.in_block st = false ->
       def_regex U (rstrip_nl line) = Some (var, content) ->
       V1.defined_vars (V1.step U n line st)
         = <[var := content]> (V1.defined_vars st)
       /\ V1.stats (V1.step U n line st) V1.definition_lines
          = V1.stats st V1.definition_lines + 1).
Proof.
  split; [|split].
  - intros n line st Hm Hd Hn. unfold is_marker in Hm.
    unfold V2.step. cbv zeta. rewrite Hm, Hd, Hn. fields.
    destruct (V2.parsing_definitions st) eqn:Hp;
      by rewrite (proj1 (V2_command_step_definitions _ _ _)).
  - intros lines n st Hp.
    destruct (V2_loop_after_definitions lines n st Hp) as (?&?&?&?&H).
    repeat split; try done. apply H. simpl. lia.
  - intros n line st var content Hm Hb Hd. unfold is_marker in Hm.
    unfold V1.step. cbv zeta. rewrite Hm. fields. rewrite Hb, Hd.
    facts (V1_definition_line var content (utf8_len (rstrip_nl line))
             (V1.with_stats (V1.bump V1.total_lines 1) st)).
    split; [done|]. rewrite F. keys. lia.
Qed.

End Ordering.

(** C3, as the claim states it, fails for the v1 analyzer: the first line is
    a command, not a definition, and the second line is still recorded as the
    definition of "@x". *)
Lemma v1_records_late_definition :
  def_regex ascii_only (py "1 a x") = None
  /\ V1.stats (V1.analyze_lines ascii_only 0 [py "1 a x"]) V1.definition_lines = 0
  /\ V1.defined_vars (V1.analyze_lines ascii_only 0 [py "1 a x"; py "@x hello"])
       !! py "@x" = Some (py "hello")
  /\ V1.stats (V1.analyze_lines ascii_only 0 [py "1 a x"; py "@x hello"])
       V1.definition_lines = 1.
Proof. vm_compute. repeat split; reflexivity. Qed.

(** ** Block regions (C5) *)

Section Blocks.
Context (U : unicode).

Lemma header_not_definition l g :
  block_header_regex U l = Some g ->
  def_regex U l = None /\ V2.def_regex_no_content U l = None /\ l <> [TILDE].
Proof.
  destruct l as [|c rest]; [done|].
  destruct (N.eqb_spec c AT) as [->|Hne].
  - by rewrite sigil_not_header.
  - intros H. unfold def_regex, V2.def_regex_no_content, re_chr, is_chr.
    apply N.eqb_neq in Hne. rewrite Hne. repeat split; try done.
    intros [= -> ->]. discriminate H.
Qed.

Lemma header_not_marker n line g :
  block_header_regex U (rstrip_nl line) = Some g ->
  (n =? 0)%nat && bool_decide (rstrip_nl line = [TILDE]) = false.
Proof.
  intros H. apply header_not_definition in H as (_ & _ & H).
  rewrite bool_decide_eq_false_2 by done. apply andb_false_r.
Qed.

Lemma V1_step_block_ok n line st :
  block_ok (V1.in_block st) (V1.block_lines_remaining st) ->
  block_ok (V1.in_block (V1.step U n line st))
           (V1.block_lines_remaining (V1.step U n line st)).
Proof.
  unfold block_ok. v1_branches U n line st.
  - done.
  - facts (V1_block_line U (rstrip_nl line) (utf8_len (rstrip_nl line))
             (V1.with_stats (V1.bump V1.total_lines 1) st)).
    rewrite F2, F3, Hblock. intros.
    destruct (Z.eqb_spec (V1.block_lines_remaining st - 1) 0); lia.
  - facts (V1_definition_line var content (utf8_len (rstrip_nl line))
             (V1.with_stats (V1.bump V1.total_lines 1) st)).
    by rewrite F2, F3, Hblock.
  - facts (V1_header_line U g3 (utf8_len (rstrip_nl line))
             (V1.with_stats (V1.bump V1.total_lines 1) st)).
    rewrite F2, F3. intros _.
    apply block_header_regex_inv in Hhdr as (_ & _ & Hd).
    pose proof (int_of_digits_nonneg U g3 Hd).
    destruct (Z.ltb_spec 0 (int_of_digits U g3)); lia.
  - facts (V1_command_line U (rstrip_nl line) (utf8_len (rstrip_nl line))
             (V1.with_stats (V1.bump V1.total_lines 1) st)).
    by rewrite F2, F3, Hblock.
  - facts (V1_other_line (utf8_len (rstrip_nl line))
             (V1.with_stats (V1.bump V1.total_lines 1) st)).
    by rewrite F2, F3, Hblock.
Qed.

Lemma V2_command_step_block_ok line n st :
  block_ok (V2.in_block st) (V2.block_lines_remaining st) ->
  block_ok (V2.in_block (V2.command_step U (rstrip_nl line) n st))
           (V2.block_lines_remaining (V2.command_step U (rstrip_nl line) n st)).
Proof.
  unfold block_ok. v2_command_branches U (rstrip_nl line) st.
  - facts (V2_block_line U (rstrip_nl line) n st).
    rewrite F5, F6, Hblock. intros.
    destruct (Z.eqb_spec (V2.block_lines_remaining st - 1) 0); lia.
  - facts (V2_header_line U g3 n st).
    rewrite F5, F6. intros _.
    apply block_header_regex_inv in Hhdr as (_ & _ & Hd).
    pose proof (int_of_digits_nonneg U g3 Hd).
    destruct (Z.ltb_spec 0 (int_of_digits U g3)); lia.
  - facts (V2_command_line U (rstrip_nl line) n st).
    by rewrite F5, F6, Hblock.
  - facts (V2_other_line n st).
    by rewrite F5, F6, Hblock.
Qed.

Lemma V2_step_block_ok n line st :
  block_ok (V2.in_block st) (V2.block_lines_remaining st) ->
  block_ok (V2.in_block (V2.step U n line st))
           (V2.block_lines_remaining (V2.step U n line st)).
Proof.
  intros Hok. unfold V2.step. cbv zeta.
  destruct (_ && _); [done|]. fields.
  destruct (V2.parsing_definitions st);
    [|by apply V2_command_step_block_ok].
  destruct (def_regex U (rstrip_nl line)) as [[var content]|].
  { facts (V2_definition_line U var content (utf8_len (rstrip_nl line))
             (V2.with_stats (V2.bump V2.total_lines 1) st)).
    by rewrite F5, F6. }
  destruct (V2.def_regex_no_content U (rstrip_nl line)) as [var|].
  { facts (V2_empty_definition_line var (utf8_len (rstrip_nl line))
             (V2.with_stats (V2.bump V2.total_lines 1) st)).
    by rewrite F5, F6. }
  by apply V2_command_step_block_ok.
Qed.

Lemma V1_loop_block_ok lines : forall n st,
  block_ok (V1.in_block st) (V1.block_lines_remaining st) ->
  block_ok (V1.in_block (V1.loop U n lines st))
           (V1.block_lines_remaining (V1.loop U n lines st)).
Proof.
  induction lines as [|line lines IH]; intros n st Hok; simpl; [done|].
  by apply IH, V1_step_block_ok.
Qed.

Lemma V2_loop_block_ok lines : forall n st,
  block_ok (V2.in_block st) (V2.block_lines_remaining st) ->
  block_ok (V2.in_block (V2.loop U n lines st))
           (V2.block_lines_remaining (V2.loop U n lines st)).
Proof.
  induction lines as [|line lines IH]; intros n st Hok; simpl; [done|].
  by apply IH, V2_step_block_ok.
Qed.

Lemma block_ok_nonneg b r : block_ok b r -> 0 <= r.
Proof. unfold block_ok. destruct b; lia. Qed.

(** The turn that reads a block header. *)
Lemma V1_step_header n line st g1 g2 g3 :
  V1.in_block st = false ->
  block_header_regex U (rstrip_nl line) = Some (g1, g2, g3) ->
  V1.step U n line st =
  V1.header_line U g3 (utf8_len (rstrip_nl line))
    (V1.with_stats (V1.bump V1.total_lines 1) st).
Proof.
  intros Hb Hh. unfold V1.step. cbv zeta.
  rewrite (header_not_marker n line _ Hh). fields. rewrite Hb.
  destruct (header_not_definition _ _ Hh) as (-> & _ & _). by rewrite Hh.
Qed.

Lemma V2_step_header n line st g1 g2 g3 :
  V2.in_block st = false ->
  block_header_regex U (rstrip_nl line) = Some (g1, g2, g3) ->
  exists st0,
    V2.step U n line st = V2.header_line U g3 (utf8_len (rstrip_nl line)) st0
    /\ V2.in_block st0 = false
    /\ V2.defined_vars st0 = V2.defined_vars st
    /\ V2.stats st0 = V2.bump V2.total_lines 1 (V2.stats st)
    /\ (V2.parsing_definitions st0 = false
        \/ V2.parsing_definitions (V2.step U n line st) = false).
Proof.
  intros Hb Hh. unfold V2.step. cbv zeta.
  rewrite (header_not_marker n line _ Hh). fields.
  destruct (header_not_definition _ _ Hh) as (-> & -> & _).
  destruct (V2.parsing_definitions st) eqn:Hp.
  - eexists. unfold V2.command_step. fields. rewrite Hb, Hh.
    split; [done|]. fields. auto.
  - eexists. unfold V2.command_step. fields. rewrite Hb, Hh.
    split; [done|]. fields. auto.
Qed.

(** The turn that reads a line inside a block. *)
Lemma V1_step_body n line st :
  V1.in_block st = true ->
  V1.step U (S n) line st =
  V1.block_line U (rstrip_nl line) (utf8_len (rstrip_nl line))
    (V1.with_stats (V1.bump V1.total_lines 1) st).
Proof. intros Hb. unfold V1.step. cbv zeta. fields. by rewrite Hb. Qed.

Lemma V2_step_body n line st :
  V2.in_block st = true -> V2.parsing_definitions st = false ->
  V2.step U (S n) line st =
  V2.block_line U (rstrip_nl line) (utf8_len (rstrip_nl line))
    (V2.with_stats (V2.bump V2.total_lines 1) st).
Proof.
  intros Hb Hp. unfold V2.step, V2.command_step. cbv zeta. fields.
  by rewrite Hp, Hb.
Qed.

(** A run of block lines. *)
Lemma V1_body_run body : forall n st,
  V1.in_block st = true ->
  0 < V1.block_lines_remaining st ->
  Z.of_nat (length body) <= V1.block_lines_remaining st ->
  V1.block_lines_remaining (V1.loop U (S n) body st)
    = V1.block_lines_remaining st - Z.of_nat (length body)
  /\ V1.in_block (V1.loop U (S n) body st)
     = negb (V1.block_lines_remaining st - Z.of_nat (length body) =? 0)
  /\ V1.stats (V1.loop U (S n) body st) V1.command_lines
     = V1.stats st V1.command_lines + Z.of_nat (length body)
  /\ V1.stats (V1.loop U (S n) body st) V1.definition_lines
     = V1.stats st V1.definition_lines
  /\ V1.stats (V1.loop U (S n) body st) V1.other_lines
     = V1.stats st V1.other_lines
  /\ V1.defined_vars (V1.loop U (S n) body st) = V1.defined_vars st.
Proof.
  induction body as [|line body IH]; intros n st Hb Hpos Hlen.
  - simpl in *. rewrite Z.sub_0_r, Z.add_0_r.
    repeat split. destruct (Z.eqb_spec (V1.block_lines_remaining st) 0); [lia|done].
  - cbn [V1.loop]. rewrite V1_step_body by done.
    set (l := rstrip_nl line). set (st0 := V1.with_stats _ st).
    facts (V1_block_line U l (utf8_len l) st0). subst st0. fields.
    rewrite length_cons, Nat2Z.inj_succ in *.
    destruct body as [|line' body].
    + simpl. rewrite F2, F3, Hb, !F. unfold V1_block_delta. keys.
      repeat split; try lia; try done.
    + assert ((V1.block_lines_remaining st - 1 =? 0) = false) as E.
      { apply Z.eqb_neq. rewrite length_cons, Nat2Z.inj_succ in Hlen. lia. }
      rewrite E, Hb in F3.
      destruct (IH (S n) _ F3) as (I1 & I2 & I3 & I4 & I5 & I6).
      { rewrite F2. rewrite length_cons, Nat2Z.inj_succ in Hlen. lia. }
      { rewrite F2. lia. }
      rewrite I1, I2, I3, I4, I5, I6, F2, !F, F0. unfold V1_block_delta. keys.
      repeat split; try lia. f_equal. f_equal. lia.
Qed.

Lemma V2_body_run body : forall n st,
  V2.in_block st = true -> V2.parsing_definitions st = false ->
  0 < V2.block_lines_remaining st ->
  Z.of_nat (length body) <= V2.block_lines_remaining st ->
  V2.block_lines_remaining (V2.loop U (S n) body st)
    = V2.block_lines_remaining st - Z.of_nat (length body)
  /\ V2.in_block (V2.loop U (S n) body st)
     = negb (V2.block_lines_remaining st - Z.of_nat (length body) =? 0)
  /\ V2.stats (V2.loop U (S n) body st) V2.command_lines
     = V2.stats st V2.command_lines + Z.of_nat (length body)
  /\ V2.stats (V2.loop U (S n) body st) V2.definition_lines
     = V2.stats st V2.definition_lines
  /\ V2.stats (V2.loop U (S n) body st) V2.other_lines
     = V2.stats st V2.other_lines
  /\ V2.defined_vars (V2.loop U (S n) body st) = V2.defined_vars st.
Proof.
  induction body as [|line body IH]; intros n st Hb Hp Hpos Hlen.
  - simpl in *. rewrite Z.sub_0_r, Z.add_0_r.
    repeat split. destruct (Z.eqb_spec (V2.block_lines_remaining st) 0); [lia|done].
  - cbn [V2.loop]. rewrite V2_step_body by done.
    set (l := rstrip_nl line). set (st0 := V2.with_stats _ st).
    facts (V2_block_line U l (utf8_len l) st0). subst st0. fields.
    assert (Hk : forall k, (V2.key_index k <= 10)%nat -> V2_basic k)
      by (unfold V2_basic; lia).
    rewrite length_cons, Nat2Z.inj_succ in *.
    destruct body as [|line' body].
    + simpl. rewrite F5, F6, Hb, !F by (apply Hk; simpl; lia).
      unfold V2_block_delta. keys.
      repeat split; try lia; try done.
    + assert ((V2.block_lines_remaining st - 1 =? 0) = false) as E.
      { apply Z.eqb_neq. rewrite length_cons, Nat2Z.inj_succ in Hlen. lia. }
      rewrite E, Hb in F6. rewrite Hp in F4.
      destruct (IH (S n) _ F6 F4) as (I1 & I2 & I3 & I4 & I5 & I6).
      { rewrite F5. rewrite length_cons, Nat2Z.inj_succ in Hlen. lia. }
      { rewrite F5. lia. }
      rewrite I1, I2, I3, I4, I5, I6, F5, F0, !F by (apply Hk; simpl; lia).
      unfold V2_block_delta. keys.
      repeat split; try lia. f_equal. f_equal. lia.
Qed.

Lemma V1_header_then_body n line st g1 g2 g3 body :
  V1.in_block st = false ->
  block_header_regex U (rstrip_nl line) = Some (g1, g2, g3) ->
  Z.of_nat (length body) <= int_of_digits U g3 ->
  V1.block_lines_remaining (V1.loop U (S n) body (V1.step U n line st))
    = int_of_digits U g3 - Z.of_nat (length body)
  /\ V1.in_block (V1.loop U (S n) body (V1.step U n line st))
     = negb (int_of_digits U g3 - Z.of_nat (length body) =? 0)
  /\ V1.stats (V1.loop U (S n) body (V1.step U n line st)) V1.command_lines
     = V1.stats (V1.step U n line st) V1.command_lines + Z.of_nat (length body)
  /\ V1.stats (V1.loop U (S n) body (V1.step U n line st)) V1.definition_lines
     = V1.stats (V1.step U n line st) V1.definition_lines
  /\ V1.stats (V1.loop U (S n) body (V1.step U n line st)) V1.other_lines
     = V1.stats (V1.step U n line st) V1.other_lines
  /\ V1.defined_vars (V1.loop U (S n) body (V1.step U n line st))
     = V1.defined_vars (V1.step U n line st).
Proof.
  intros Hb Hh Hlen. rewrite (V1_step_header n line st g1 g2 g3 Hb Hh).
  set (st0 := V1.with_stats _ st).
  facts (V1_header_line U g3 (utf8_len (rstrip_nl line)) st0).
  destruct body as [|line' body].
  - cbn [V1.loop length Z.of_nat]. rewrite F2, F3, Z.sub_0_r, Z.add_0_r.
    repeat split.
    apply block_header_regex_inv in Hh as (_ & _ & Hd).
    pose proof (int_of_digits_nonneg U g3 Hd).
    destruct (Z.ltb_spec 0 (int_of_digits U g3)),
      (Z.eqb_spec (int_of_digits U g3) 0); simpl; lia.
  - assert (0 < int_of_digits U g3) as Hpos
      by (rewrite length_cons, Nat2Z.inj_succ in Hlen; lia).
    rewrite <- F2.
    apply V1_body_run; rewrite ?F2, ?F3; [by apply Z.ltb_lt| |]; lia.
Qed.

Lemma V2_header_then_body n line st g1 g2 g3 body :
  V2.in_block st = false ->
  block_header_regex U (rstrip_nl line) = Some (g1, g2, g3) ->
  Z.of_nat (length body) <= int_of_digits U g3 ->
  V2.block_lines_remaining (V2.loop U (S n) body (V2.step U n line st))
    = int_of_digits U g3 - Z.of_nat (length body)
  /\ V2.in_block (V2.loop U (S n) body (V2.step U n line st))
     = negb (int_of_digits U g3 - Z.of_nat (length body) =? 0)
  /\ V2.stats (V2.loop U (S n) body (V2.step U n line st)) V2.command_lines
     = V2.stats (V2.step U n line st) V2.command_lines + Z.of_nat (length body)
  /\ V2.stats (V2.loop U (S n) body (V2.step U n line st)) V2.definition_lines
     = V2.stats (V2.step U n line st) V2.definition_lines
  /\ V2.stats (V2.loop U (S n) body (V2.step U n line st)) V2.other_lines
     = V2.stats (V2.step U n line st) V2.other_lines
  /\ V2.defined_vars (V2.loop U (S n) body (V2.step U n line st))
     = V2.defined_vars (V2.step U n line st).
Proof.
  intros Hb Hh Hlen.
  destruct (V2_step_header n line st g1 g2 g3 Hb Hh)
    as (st0 & Hstep & Hb0 & _ & _ & Hp).
  facts (V2_header_line U g3 (utf8_len (rstrip_nl line)) st0).
  assert (V2.parsing_definitions (V2.step U n line st) = false) as Hp'.
  { destruct Hp as [Hp|Hp]; [|done]. by rewrite Hstep, F4. }
  rewrite Hstep in *. clear Hstep.
  destruct body as [|line' body].
  - cbn [V2.loop length Z.of_nat]. rewrite F5, F6, Z.sub_0_r, Z.add_0_r.
    repeat split.
    apply block_header_regex_inv in Hh as (_ & _ & Hd).
    pose proof (int_of_digits_nonneg U g3 Hd).
    destruct (Z.ltb_spec 0 (int_of_digits U g3)),
      (Z.eqb_spec (int_of_digits U g3) 0); simpl; lia.
  - assert (0 < int_of_digits U g3) as Hpos
      by (rewrite length_cons, Nat2Z.inj_succ in Hlen; lia).
    rewrite <- F5.
    apply V2_body_run; rewrite ?F5, ?F6; [by apply Z.ltb_lt|done| |]; lia.
Qed.

(** C5: in both analyzers a block header declaring N lines makes exactly the
    next N lines block lines, whatever their shape: before each of them the
    analyzer is inside the block with the lines still owed, each is counted
    as a command line and none as a definition or as an unrecognized line,
    and after the N-th the analyzer is back at the top level.  With N = 0
    (an empty [body]) the header itself leaves the analyzer at the top level.
    The count of lines owed is never negative. *)
Theorem block_regions :
  (forall n line st g1 g2 g3 body,
     V1.in_block st = false ->
     block_header_regex U (rstrip_nl line) = Some (g1, g2, g3) ->
     Z.of_nat (length body) = int_of_digits U g3 ->
     (forall j, (j < length body)%nat ->
        V1.in_block (V1.loop U (S n) (take j body) (V1.step U n line st))
          = true
        /\ V1.block_lines_remaining
             (V1.loop U (S n) (take j body) (V1.step U n line st))
           = int_of_digits U g3 - Z.of_nat j)
     /\ V1.in_block (V1.loop U (S n) body (V1.step U n line st)) = false
     /\ V1.block_lines_remaining
          (V1.loop U (S n) body (V1.step U n line st)) = 0
     /\ V1.stats (V1.loop U (S n) body (V1.step U n line st))
          V1.command_lines
        = V1.stats (V1.step U n line st) V1.command_lines
          + Z.of_nat (length body)
     /\ V1.stats (V1.loop U (S n) body (V1.step U n line st))
          V1.definition_lines
        = V1.stats (V1.step U n line st) V1.definition_lines
     /\ V1.stats (V1.loop U (S n) body (V1.step U n line st))
          V1.other_lines
        = V1.stats (V1.step U n line st) V1.other_lines
     /\ V1.defined_vars (V1.loop U (S n) body (V1.step U n line st))
        = V1.defined_vars (V1.step U n line st))
  /\ (forall n line st g1 g2 g3 body,
     V2.in_block st = false ->
     block_header_regex U (rstrip_nl line) = Some (g1, g2, g3) ->
     Z.of_nat (length body) = int_of_digits U g3 ->
     (forall j, (j < length body)%nat ->
        V2.in_block (V2.loop U (S n) (take j body) (V2.step U n line st))
          = true
        /\ V2.block_lines_remaining
             (V2.loop U (S n) (take j body) (V2.step U n line st))
           = int_of_digits U g3 - Z.of_nat j)
     /\ V2.in_block (V2.loop U (S n) body (V2.step U n line st)) = false
     /\ V2.block_lines_remaining
          (V2.loop U (S n) body (V2.step U n line st)) = 0
     /\ V2.stats (V2.loop U (S n) body (V2.step U n line st))
          V2.command_lines
        = V2.stats (V2.step U n line st) V2.command_lines
          + Z.of_nat (length body)
     /\ V2.stats (V2.loop U (S n) body (V2.step U n line st))
          V2.definition_lines
        = V2.stats (V2.step U n line st) V2.definition_lines
     /\ V2.stats (V2.loop U (S n) body (V2.step U n line st))
          V2.other_lines
        = V2.stats (V2.step U n line st) V2.other_lines
     /\ V2.defined_vars (V2.loop U (S n) body (V2.step U n line st))
        = V2.defined_vars (V2.step U n line st))
  /\ (forall size lines,
       0 <= V1.block_lines_remaining (V1.analyze_lines U size lines)
       /\ 0 <= V2.block_lines_remaining (V2.analyze_lines U size lines)).
Proof.
  split; [|split].
  - intros n line st g1 g2 g3 body Hb Hh Hlen. split.
    + intros j Hj.
      destruct (V1_header_then_body n line st g1 g2 g3 (take j body) Hb Hh)
        as (H1 & H2 & _); rewrite length_take, Nat.min_l in * by lia;
        [lia|].
      split; [|done]. rewrite H2.
      destruct (Z.eqb_spec (int_of_digits U g3 - Z.of_nat j) 0); [lia|done].
    + destruct (V1_header_then_body n line st g1 g2 g3 body Hb Hh)
        as (H1 & H2 & H3 & H4 & H5 & H6); [lia|].
      rewrite H1, H2, H3, H4, H5, H6, Hlen, Z.sub_diag. by repeat split.
  - intros n line st g1 g2 g3 body Hb Hh Hlen. split.
    + intros j Hj.
      destruct (V2_header_then_body n line st g1 g2 g3 (take j body) Hb Hh)
        as (H1 & H2 & _); rewrite length_take, Nat.min_l in * by lia;
        [lia|].
      split; [|done]. rewrite H2.
      destruct (Z.eqb_spec (int_of_digits U g3 - Z.of_nat j) 0); [lia|done].
    + destruct (V2_header_then_body n line st g1 g2 g3 body Hb Hh)
        as (H1 & H2 & H3 & H4 & H5 & H6); [lia|].
      rewrite H1, H2, H3, H4, H5, H6, Hlen, Z.sub_diag. by repeat split.
  - intros size lines. split.
    + eapply block_ok_nonneg, V1_loop_block_ok. by simpl.
    + eapply block_ok_nonneg, V2_loop_block_ok. by simpl.
Qed.

End Blocks.

(** ** Lines as [readlines] cuts them *)

Lemma rstrip_nl_id body : LF ∉ body -> rstrip_nl body = body.
Proof.
  induction body as [|c body IH]; [done|].
  intros [Hc Hb]%not_elem_of_cons. simpl. rewrite IH by done.
  destruct body; [|done]. by destruct (N.eqb_spec c LF).
Qed.

Lemma rstrip_nl_terminated body : LF ∉ body -> rstrip_nl (body ++ [LF]) = body.
Proof.
  induction body as [|c body IH]; [done|].
  intros [Hc Hb]%not_elem_of_cons. simpl. rewrite IH by done.
  destruct body; [|done]. by destruct (N.eqb_spec c LF).
Qed.

Lemma readlines_aux_lines s : forall cur line,
  LF ∉ cur -> line ∈ readlines_aux cur s ->
  exists body, (LF ∉ body) /\ (line = body \/ line = body ++ [LF]).
Proof.
  induction s as [|c s IH]; intros cur line Hcur; simpl.
  - destruct cur as [|d cur]; [by intros ?%elem_of_nil|].
    intros ->%list_elem_of_singleton. exists (rev (d :: cur)).
    split; [|by left]. intros H. apply Hcur.
    by apply list_elem_of_In, in_rev, list_elem_of_In.
  - destruct (N.eqb_spec c LF) as [->|Hc].
    + intros [->|Hin]%elem_of_cons.
      * exists (rev cur). split; [|by right].
        intros H. apply Hcur.
        by apply list_elem_of_In, in_rev, list_elem_of_In.
      * apply (IH [] line); [apply not_elem_of_nil | done].
    + apply IH. rewrite not_elem_of_cons. auto.
Qed.

(** A line of the file, once its terminator is stripped, holds no line feed. *)
Lemma readlines_no_newline text line :
  line ∈ readlines text -> LF ∉ rstrip_nl line.
Proof.
  intros Hin.
  destruct (readlines_aux_lines _ [] line (not_elem_of_nil _) Hin)
    as (body & Hb & [->| ->]).
  - by rewrite rstrip_nl_id.
  - by rewrite rstrip_nl_terminated.
Qed.

(** ** The classification heuristic (C2) *)

Section Heuristic.
Context (U : unicode).

Lemma re_plus_dot_end s (k : list N -> list N -> option unit) :
  LF ∉ s -> s <> [] -> (forall run, k run [] = Some tt) ->
  re_plus not_newline k s = Some tt.
Proof.
  revert k. induction s as [|c s IH]; intros k Hs Hne Hk; [done|].
  apply not_elem_of_cons in Hs as [Hc Hs]. simpl.
  unfold not_newline at 1. destruct (N.eqb_spec c LF); [done|]. simpl.
  destruct s as [|d s]; [apply Hk|].
  by rewrite IH.
Qed.

Lemma re_star_dot_end s :
  LF ∉ s -> re_star not_newline (fun _ => re_end tt) s = Some tt.
Proof.
  intros Hs. unfold re_star. destruct s as [|c s]; [done|].
  by rewrite re_plus_dot_end.
Qed.

Lemma heuristic_first_alternative s :
  LF ∉ s ->
  is_some (re_plus (is_space U) (fun _ =>
             re_star not_newline (fun _ => re_end tt)) s)
  = starts_with_whitespace U s.
Proof.
  destruct s as [|c s]; [done|]. intros [_ Hs]%not_elem_of_cons. simpl.
  destruct (is_space U c); [|done].
  destruct (re_plus _ _ s) as [[]|]; [done|]. by rewrite re_star_dot_end.
Qed.

Lemma heuristic_second_plus c s :
  LF ∉ s ->
  is_some (re_plus not_newline (fun _ =>
             re_chr (fun c => is_chr 125 c || is_chr 59 c) (fun _ => re_end tt))
             (c :: s))
  = not_newline c && ends_with_brace_or_semicolon s.
Proof.
  revert c. induction s as [|d s IH]; intros c Hs; simpl.
  - by destruct (not_newline c).
  - destruct (not_newline c); [|done]. simpl.
    apply not_elem_of_cons in Hs as [Hd Hs].
    specialize (IH d Hs). simpl in IH.
    assert (not_newline d = true) as Hnd
      by (unfold not_newline; by destruct (N.eqb_spec d LF)).
    rewrite Hnd in *. simpl in IH.
    destruct (match re_plus not_newline _ s with Some a => Some a | None => _ end)
      as [[]|] eqn:E.
    + simpl in IH. unfold ends_with_brace_or_semicolon in *.
      destruct s as [|e s]; [done|]. by rewrite last_cons_cons.
    + simpl in IH. unfold ends_with_brace_or_semicolon in *.
      destruct s as [|e s].
      * simpl. by destruct (is_chr 125 d || is_chr 59 d).
      * rewrite last_cons_cons, <- IH.
        destruct (is_chr 125 d || is_chr 59 d); [|done]. simpl.
        destruct s as [|f s]; [|done].
        apply not_elem_of_cons in Hs as [He _].
        by destruct (N.eqb_spec e LF).
Qed.

Lemma heuristic_second_alternative s :
  LF ∉ s ->
  is_some (re_star not_newline (fun _ =>
             re_chr (fun c => is_chr 125 c || is_chr 59 c) (fun _ => re_end tt)) s)
  = ends_with_brace_or_semicolon s.
Proof.
  intros Hs. unfold re_star. destruct s as [|c s]; [done|].
  pose proof (heuristic_second_plus c s) as H.
  apply not_elem_of_cons in Hs as [Hc Hs]. specialize (H Hs).
  assert (not_newline c = true) as Hnc
    by (unfold not_newline; by destruct (N.eqb_spec c LF)).
  rewrite Hnc in H. cbn [andb] in H.
  unfold ends_with_brace_or_semicolon in *.
  destruct (re_plus not_newline _ (c :: s)) as [[]|]; cbn [is_some] in *.
  - destruct s as [|d s]; [done|]. by rewrite last_cons_cons.
  - destruct s as [|d s].
    + simpl. by destruct (is_chr 125 c || is_chr 59 c).
    + rewrite last_cons_cons, <- H. simpl.
      destruct (is_chr 125 c || is_chr 59 c); [|done].
      destruct s as [|e s]; [|done].
      apply not_elem_of_cons in Hs as [Hd _].
      by destruct (N.eqb_spec d LF).
Qed.

Lemma full_line_heuristic_spec content :
  LF ∉ content ->
  (5 <? len content) && is_some (V2.full_line_heuristic_regex U content)
  = spec_full_line U content.
Proof.
  intros Hc. unfold spec_full_line, V2.full_line_heuristic_regex, re_alt.
  rewrite <- heuristic_first_alternative, <- heuristic_second_alternative by done.
  f_equal.
  - destruct (Z.ltb_spec 5 (len content));
      [by rewrite bool_decide_eq_true_2 | by rewrite bool_decide_eq_false_2; lia].
  - by destruct (re_plus (is_space U) _ content) as [[]|].
Qed.

End Heuristic.

(** What a turn does to the buckets: a line of the file that the v2 analyzer
    records as a definition with
    content is put into the full-line bucket exactly when its content has
    more than 5 characters and starts with a whitespace character or ends
    with a closing brace or a semicolon, and into the fragment bucket
    otherwise; a definition without content goes into the fragment bucket, as
    does any definition whose content is empty.  The turn takes the id out
    of no bucket. *)
Theorem definition_classification (U : unicode) text n line st :
  line ∈ readlines text ->
  is_marker n line = false ->
  V2.parsing_definitions st = true ->
  (forall var content,
     def_regex U (rstrip_nl line) = Some (var, content) ->
     V2.defined_vars (V2.step U n line st)
       = <[var := content]> (V2.defined_vars st)
     /\ if spec_full_line U content
        then V2.full_line_vars (V2.step U n line st)
               = {[ var ]} ∪ V2.full_line_vars st
             /\ V2.fragment_vars (V2.step U n line st) = V2.fragment_vars st
        else V2.full_line_vars (V2.step U n line st) = V2.full_line_vars st
             /\ V2.fragment_vars (V2.step U n line st)
                = {[ var ]} ∪ V2.fragment_vars st)
  /\ (forall var,
        def_regex U (rstrip_nl line) = None ->
        V2.def_regex_no_content U (rstrip_nl line) = Some var ->
        V2.defined_vars (V2.step U n line st) = <[var := []]> (V2.defined_vars st)
        /\ V2.full_line_vars (V2.step U n line st) = V2.full_line_vars st
        /\ V2.fragment_vars (V2.step U n line st)
           = {[ var ]} ∪ V2.fragment_vars st)
  /\ spec_full_line U [] = false.
Proof.
  intros Hin Hm Hp. apply readlines_no_newline in Hin.
  unfold is_marker in Hm. split; [|split; [|done]].
  - intros var content Hd. unfold V2.step. cbv zeta. rewrite Hm. fields.
    rewrite Hp, Hd.
    facts (V2_definition_line U var content (utf8_len (rstrip_nl line))
             (V2.with_stats (V2.bump V2.total_lines 1) st)).
    apply def_regex_inv in Hd as (id & sp & Hl & _).
    assert (LF ∉ content) as Hc.
    { intros Hc. apply Hin. rewrite Hl.
      apply elem_of_cons. right. apply elem_of_app. right.
      apply elem_of_cons. by right. }
    rewrite (full_line_heuristic_spec U content Hc) in F1, F2.
    split; [done|]. by destruct (spec_full_line U content).
  - intros var Hd He. unfold V2.step. cbv zeta. rewrite Hm. fields.
    rewrite Hp, Hd, He.
    facts (V2_empty_definition_line var (utf8_len (rstrip_nl line))
             (V2.with_stats (V2.bump V2.total_lines 1) st)).
    done.
Qed.

Lemma definition_classification_witness :
  V2.full_line_vars
    (V2.step ascii_only 0 (py "@x  foo bar;" ++ [LF]) (V2.init 0))
    = {[ py "@x" ]} ∪ ∅
  /\ V2.fragment_vars
       (V2.step ascii_only 0 (py "@x  foo bar;" ++ [LF]) (V2.init 0)) = ∅.
Proof.
  assert (py "@x  foo bar;" ++ [LF] ∈ readlines (py "@x  foo bar;" ++ [LF]))
    as Hin by (vm_compute; constructor).
  destruct (definition_classification ascii_only _ 0 _ (V2.init 0) Hin
              eq_refl eq_refl) as [H _].
  destruct (H (py "@x") (py " foo bar;") eq_refl) as [_ Hb].
  exact Hb.
Defined.

(** ** Redefinition (C4) *)

(** C4 fails on the code: when "@x" is first defined with a full-line
    content and then again without content, the last content wins in
    [defined_vars], but "@x" stays in the full-line bucket and also enters
    the fragment bucket; its reference and its definition cost are charged to
    the full-line bucket although its content, being empty, is a fragment. *)
Theorem redefinition_keeps_stale_bucket (U : unicode) (size : Z) :
  let st := V2.analyze_patch U size
    (py "@x  foo bar;" ++ [LF] ++ py "@x" ++ [LF] ++ py "1 a @x" ++ [LF]) in
  V2.defined_vars st = {[ py "@x" := [] ]}
  /\ spec_full_line U [] = false
  /\ V2.full_line_vars st = {[ py "@x" ]}
  /\ V2.fragment_vars st = {[ py "@x" ]}
  /\ V2.stats st V2.full_line_ref_cost_b = 2
  /\ V2.stats st V2.fragment_ref_cost_b = 0
  /\ V2.def_cost_full_b st = 2
  /\ V2.def_cost_fragment_b st = 0.
Proof. vm_compute. repeat split; reflexivity. Qed.

(** ** Definition lines are not scanned (C10) *)

Section Scanned.
Context (U : unicode).

Lemma count_usage_other (v var : list N) (used : gmap (list N) Z) :
  v <> var -> count_usage v used !! var = used !! var.
Proof. intros H. unfold count_usage. by rewrite lookup_insert_ne. Qed.

Lemma count_all_other ts : forall (var : list N) (used : gmap (list N) Z),
  var ∉ ts -> count_all ts used !! var = used !! var.
Proof.
  induction ts as [|v ts IH]; intros var used Hin; [done|].
  apply not_elem_of_cons in Hin as [Hv Hin]. unfold count_all in *. simpl.
  rewrite IH by done. by apply count_usage_other.
Qed.

Lemma startswith_2 a b l :
  startswith [a; b] l = true -> exists rest, l = a :: b :: rest.
Proof.
  destruct l as [|c [|d rest]]; simpl; try done.
  - by rewrite andb_false_r.
  - intros [Ha [Hb _]%andb_true_iff]%andb_true_iff.
    apply N.eqb_eq in Ha as ->, Hb as ->. by exists rest.
Qed.

Lemma tokens_skip c s : c <> AT -> tokens U (c :: s) = tokens U s.
Proof.
  intros Hc. unfold tokens, findall. simpl. unfold is_chr.
  by apply N.eqb_neq in Hc as ->.
Qed.

Lemma gaps_skip c s : c <> HASH -> gaps U (c :: s) = gaps U s.
Proof.
  intros Hc. unfold gaps, findall. simpl. unfold is_chr.
  by apply N.eqb_neq in Hc as ->.
Qed.

Lemma has_block_prefix_inv l :
  has_block_prefix l = true ->
  exists c rest, l = c :: SPACE :: rest /\ c <> AT /\ c <> HASH.
Proof.
  unfold has_block_prefix.
  intros [[H|H]%orb_true_iff|[H|H]%orb_true_iff]%orb_true_iff;
    apply startswith_2 in H as [rest ->]; eexists _, rest; by repeat split.
Qed.

(** Stripping the prefix of a block line loses no reference and no literal
    header. *)
Lemma tokens_block_content l : tokens U (block_content l) = tokens U l.
Proof.
  unfold block_content. destruct (has_block_prefix l) eqn:E; [|done].
  apply has_block_prefix_inv in E as (c & rest & -> & Hc & _).
  by rewrite (tokens_skip c), (tokens_skip SPACE).
Qed.

Lemma gaps_block_content l : gaps U (block_content l) = gaps U l.
Proof.
  unfold block_content. destruct (has_block_prefix l) eqn:E; [|done].
  apply has_block_prefix_inv in E as (c & rest & -> & _ & Hc).
  by rewrite (gaps_skip c), (gaps_skip SPACE).
Qed.

(** What a turn of the v1 loop does to the definitions count, to the usage
    table and to H3. *)
Lemma V1_step_usage n line st :
  (V1.stats (V1.step U n line st) V1.definition_lines
     = V1.stats st V1.definition_lines + 1
   /\ V1.used_vars_count (V1.step U n line st) = V1.used_vars_count st
   /\ V1.stats (V1.step U n line st) V1.command_at_overhead_b
      = V1.stats st V1.command_at_overhead_b)
  \/ (V1.stats (V1.step U n line st) V1.definition_lines
        = V1.stats st V1.definition_lines
      /\ (V1.used_vars_count (V1.step U n line st) = V1.used_vars_count st
          /\ V1.stats (V1.step U n line st) V1.command_at_overhead_b
             = V1.stats st V1.command_at_overhead_b
          \/ V1.used_vars_count (V1.step U n line st)
             = count_all (tokens U (rstrip_nl line)) (V1.used_vars_count st)
          /\ V1.stats (V1.step U n line st) V1.command_at_overhead_b
             = V1.stats st V1.command_at_overhead_b
               + Z.of_nat (length (tokens U (rstrip_nl line))))).
Proof.
  v1_branches U n line st.
  - right. fields. keys. split; [lia|]. left. split; [done|lia].
  - facts (V1_block_line U (rstrip_nl line) (utf8_len (rstrip_nl line))
             (V1.with_stats (V1.bump V1.total_lines 1) st)).
    right. rewrite !F, F4. unfold V1_block_delta.
    rewrite tokens_block_content. keys. rewrite tokens_block_content.
    split; [lia|]. right. split; [done|lia].
  - facts (V1_definition_line var content (utf8_len (rstrip_nl line))
             (V1.with_stats (V1.bump V1.total_lines 1) st)).
    left. rewrite !F, F4. keys. repeat split; lia.
  - facts (V1_header_line U g3 (utf8_len (rstrip_nl line))
             (V1.with_stats (V1.bump V1.total_lines 1) st)).
    right. rewrite !F, F4. keys. split; [lia|]. left. split; [done|lia].
  - facts (V1_command_line U (rstrip_nl line) (utf8_len (rstrip_nl line))
             (V1.with_stats (V1.bump V1.total_lines 1) st)).
    right. rewrite !F, F4. unfold V1_command_delta. keys.
    split; [lia|]. right. split; [done|lia].
  - facts (V1_other_line (utf8_len (rstrip_nl line))
             (V1.with_stats (V1.bump V1.total_lines 1) st)).
    right. rewrite !F, F4. keys. split; [lia|]. left. split; [done|lia].
Qed.

Lemma V2_command_step_usage l n st :
  V2.stats (V2.command_step U l n st) V2.definition_lines
    = V2.stats st V2.definition_lines
  /\ (V2.used_vars_count (V2.command_step U l n st) = V2.used_vars_count st
      /\ V2.stats (V2.command_step U l n st) V2.total_reference_cost_b
         = V2.stats st V2.total_reference_cost_b
      \/ V2.used_vars_count (V2.command_step U l n st)
         = count_all (tokens U l) (V2.used_vars_count st)
      /\ V2.stats (V2.command_step U l n st) V2.total_reference_cost_b
         = V2.stats st V2.total_reference_cost_b
           + Zsum (map utf8_len (tokens U l))).
Proof.
  v2_command_branches U l st.
  - facts (V2_block_line U l n st).
    rewrite !F, F7 by (unfold V2_basic; simpl; lia). unfold V2_block_delta.
    rewrite tokens_block_content. keys. rewrite tokens_block_content.
    split; [lia|]. right. split; [done|lia].
  - facts (V2_header_line U g3 n st).
    rewrite !F, F7. keys. split; [lia|]. left. split; [done|lia].
  - facts (V2_command_line U l n st).
    rewrite !F, F7 by (unfold V2_basic; simpl; lia). unfold V2_command_delta.
    keys. split; [lia|]. right. split; [done|lia].
  - facts (V2_other_line n st).
    rewrite !F, F7. keys. split; [lia|]. left. split; [done|lia].
Qed.

(** The same for the v2 loop. *)
Lemma V2_step_usage n line st :
  (V2.stats (V2.step U n line st) V2.definition_lines
     = V2.stats st V2.definition_lines + 1
   /\ V2.used_vars_count (V2.step U n line st) = V2.used_vars_count st
   /\ V2.stats (V2.step U n line st) V2.total_reference_cost_b
      = V2.stats st V2.total_reference_cost_b)
  \/ (V2.stats (V2.step U n line st) V2.definition_lines
        = V2.stats st V2.definition_lines
      /\ (V2.used_vars_count (V2.step U n line st) = V2.used_vars_count st
          /\ V2.stats (V2.step U n line st) V2.total_reference_cost_b
             = V2.stats st V2.total_reference_cost_b
          \/ V2.used_vars_count (V2.step U n line st)
             = count_all (tokens U (rstrip_nl line)) (V2.used_vars_count st)
          /\ V2.stats (V2.step U n line st) V2.total_reference_cost_b
             = V2.stats st V2.total_reference_cost_b
               + Zsum (map utf8_len (tokens U (rstrip_nl line))))).
Proof.
  unfold V2.step. cbv zeta.
  destruct (_ && _).
  { right. fields. keys. split; [lia|]. left. split; [done|lia]. }
  fields.
  assert (Hcmd : forall st0,
    V2.stats st0 = V2.bump V2.total_lines 1 (V2.stats st) ->
    V2.used_vars_count st0 = V2.used_vars_count st ->
    V2.stats (V2.command_step U (rstrip_nl line) (utf8_len (rstrip_nl line)) st0)
      V2.definition_lines = V2.stats st V2.definition_lines
    /\ (V2.used_vars_count
          (V2.command_step U (rstrip_nl line) (utf8_len (rstrip_nl line)) st0)
        = V2.used_vars_count st
        /\ V2.stats
             (V2.command_step U (rstrip_nl line) (utf8_len (rstrip_nl line)) st0)
             V2.total_reference_cost_b
           = V2.stats st V2.total_reference_cost_b
        \/ V2.used_vars_count
             (V2.command_step U (rstrip_nl line) (utf8_len (rstrip_nl line)) st0)
           = count_all (tokens U (rstrip_nl line)) (V2.used_vars_count st)
        /\ V2.stats
             (V2.command_step U (rstrip_nl line) (utf8_len (rstrip_nl line)) st0)
             V2.total_reference_cost_b
           = V2.stats st V2.total_reference_cost_b
             + Zsum (map utf8_len (tokens U (rstrip_nl line))))).
  { intros st0 Hs Hu.
    destruct (V2_command_step_usage (rstrip_nl line)
                (utf8_len (rstrip_nl line)) st0) as [H1 H2].
    rewrite Hs, Hu in *. revert H1 H2. keys. intros H1 H2.
    split; [lia|]. destruct H2 as [[? ?]|[? ?]]; [left|right]; split;
      try done; lia. }
  destruct (V2.parsing_definitions st); [|right; by apply Hcmd].
  destruct (def_regex U (rstrip_nl line)) as [[var content]|].
  { facts (V2_definition_line U var content (utf8_len (rstrip_nl line))
             (V2.with_stats (V2.bump V2.total_lines 1) st)).
    left. rewrite !F, F7. keys. repeat split; lia. }
  destruct (V2.def_regex_no_content U (rstrip_nl line)) as [var|].
  { facts (V2_empty_definition_line var (utf8_len (rstrip_nl line))
             (V2.with_stats (V2.bump V2.total_lines 1) st)).
    left. rewrite !F, F7. keys. repeat split; lia. }
  right. by apply Hcmd.
Qed.

Lemma V1_loop_snoc lines : forall n line st,
  V1.loop U n (lines ++ [line]) st
  = V1.step U (n + length lines) line (V1.loop U n lines st).
Proof.
  induction lines as [|l lines IH]; intros n line st; simpl.
  - by rewrite Nat.add_0_r.
  - rewrite IH. f_equal. lia.
Qed.

Lemma V2_loop_snoc lines : forall n line st,
  V2.loop U n (lines ++ [line]) st
  = V2.step U (n + length lines) line (V2.loop U n lines st).
Proof.
  induction lines as [|l lines IH]; intros n line st; simpl.
  - by rewrite Nat.add_0_r.
  - rewrite IH. f_equal. lia.
Qed.

Lemma V1_unscanned_unused size lines : forall var,
  (forall i line, lines !! i = Some line ->
     V1.stats (V1.analyze_lines U size (take (S i) lines)) V1.definition_lines
       <> V1.stats (V1.analyze_lines U size (take i lines)) V1.definition_lines
     \/ var ∉ tokens U (rstrip_nl line)) ->
  V1.used_vars_count (V1.analyze_lines U size lines) !! var = None.
Proof.
  induction lines as [|line lines IH] using rev_ind; intros var H; [done|].
  unfold V1.analyze_lines in *. rewrite V1_loop_snoc.
  assert (V1.used_vars_count (V1.loop U 0 lines (V1.init size)) !! var = None)
    as Hprev.
  { apply IH. intros i l Hl.
    pose proof (lookup_lt_Some _ _ _ Hl) as Hi.
    specialize (H i l). rewrite lookup_app_l, !take_app_le in H by lia. auto. }
  specialize (H (length lines) line).
  rewrite list_lookup_middle, take_app_length in H by done.
  replace (take (S (length lines)) (lines ++ [line])) with (lines ++ [line]) in H
    by (rewrite take_ge; [done | rewrite length_app; simpl; lia]).
  specialize (H eq_refl). rewrite V1_loop_snoc in H.
  destruct (V1_step_usage (0 + length lines) line
              (V1.loop U 0 lines (V1.init size)))
    as [(_ & -> & _)|(Hd & [(-> & _)|(-> & _)])]; try done.
  destruct H as [H|H]; [done|]. by rewrite count_all_other.
Qed.

Lemma V2_unscanned_unused size lines : forall var,
  (forall i line, lines !! i = Some line ->
     V2.stats (V2.analyze_lines U size (take (S i) lines)) V2.definition_lines
       <> V2.stats (V2.analyze_lines U size (take i lines)) V2.definition_lines
     \/ var ∉ tokens U (rstrip_nl line)) ->
  V2.used_vars_count (V2.analyze_lines U size lines) !! var = None.
Proof.
  induction lines as [|line lines IH] using rev_ind; intros var H; [done|].
  unfold V2.analyze_lines in *. rewrite V2_loop_snoc.
  assert (V2.used_vars_count (V2.loop U 0 lines (V2.init size)) !! var = None)
    as Hprev.
  { apply IH. intros i l Hl.
    pose proof (lookup_lt_Some _ _ _ Hl) as Hi.
    specialize (H i l). rewrite lookup_app_l, !take_app_le in H by lia. auto. }
  specialize (H (length lines) line).
  rewrite list_lookup_middle, take_app_length in H by done.
  replace (take (S (length lines)) (lines ++ [line])) with (lines ++ [line]) in H
    by (rewrite take_ge; [done | rewrite length_app; simpl; lia]).
  specialize (H eq_refl). rewrite V2_loop_snoc in H.
  destruct (V2_step_usage (0 + length lines) line
              (V2.loop U 0 lines (V2.init size)))
    as [(_ & -> & _)|(Hd & [(-> & _)|(-> & _)])]; try done.
  destruct H as [H|H]; [done|]. by rewrite count_all_other.
Qed.

(** C10: in both analyzers a line that is recorded as a definition (the
    count of definition lines changes) adds nothing to the usage table and
    nothing to H3.  Hence an id whose occurrences as a reference token all
    lie on lines recorded as definitions is never tallied, and when it is
    defined it is reported as stray. *)
Theorem definitions_are_not_usages :
  (forall n line st,
     V1.stats (V1.step U n line st) V1.definition_lines
       <> V1.stats st V1.definition_lines ->
     V1.used_vars_count (V1.step U n line st) = V1.used_vars_count st
     /\ V1.stats (V1.step U n line st) V1.command_at_overhead_b
        = V1.stats st V1.command_at_overhead_b)
  /\ (forall n line st,
       V2.stats (V2.step U n line st) V2.definition_lines
         <> V2.stats st V2.definition_lines ->
       V2.used_vars_count (V2.step U n line st) = V2.used_vars_count st
       /\ V2.stats (V2.step U n line st) V2.total_reference_cost_b
          = V2.stats st V2.total_reference_cost_b)
  /\ (forall size lines var,
       (forall i line, lines !! i = Some line ->
          V1.stats (V1.analyze_lines U size (take (S i) lines))
            V1.definition_lines
          <> V1.stats (V1.analyze_lines U size (take i lines))
               V1.definition_lines
          \/ var ∉ tokens U (rstrip_nl line)) ->
       V1.used_vars_count (V1.analyze_lines U size lines) !! var = None
       /\ (var ∈ dom (V1.defined_vars (V1.analyze_lines U size lines)) ->
           var ∈ V1.unused_vars (V1.analyze_lines U size lines)))
  /\ (forall size lines var,
       (forall i line, lines !! i = Some line ->
          V2.stats (V2.analyze_lines U size (take (S i) lines))
            V2.definition_lines
          <> V2.stats (V2.analyze_lines U size (take i lines))
               V2.definition_lines
          \/ var ∉ tokens U (rstrip_nl line)) ->
       V2.used_vars_count (V2.analyze_lines U size lines) !! var = None
       /\ (var ∈ dom (V2.defined_vars (V2.analyze_lines U size lines)) ->
           var ∈ V2.unused_vars (V2.analyze_lines U size lines))).
Proof.
  split; [|split; [|split]].
  - intros n line st Hd.
    destruct (V1_step_usage n line st) as [(_ & ? & ?)|(? & _)]; done.
  - intros n line st Hd.
    destruct (V2_step_usage n line st) as [(_ & ? & ?)|(? & _)]; done.
  - intros size lines var H.
    pose proof (V1_unscanned_unused size lines var H) as Hu.
    split; [done|]. intros Hdef. unfold V1.unused_vars.
    apply elem_of_difference. split; [done|]. by apply not_elem_of_dom.
  - intros size lines var H.
    pose proof (V2_unscanned_unused size lines var H) as Hu.
    split; [done|]. intros Hdef. unfold V2.unused_vars.
    apply elem_of_difference. split; [done|]. by apply not_elem_of_dom.
Qed.

End Scanned.

(** An instance of C10: "@a" occurs only in the content of the definition of
    "@b"; both analyzers report "@a" (and "@b") as stray. *)
Example reference_inside_definition :
  V1.unused_vars (V1.analyze_lines ascii_only 0 [py "@a x"; py "@b @a"])
    = {[ py "@a"; py "@b" ]}
  /\ V2.unused_vars (V2.analyze_lines ascii_only 0 [py "@a x"; py "@b @a"])
     = {[ py "@a"; py "@b" ]}
  /\ V2.stats (V2.analyze_lines ascii_only 0 [py "@a x"; py "@b @a"])
       V2.total_reference_cost_b = 0.
Proof. vm_compute. repeat split; reflexivity. Qed.

(** ** Tallies (C8) *)

Section Tallies.
Context (U : unicode).

Lemma occurrences_count_usage (v : list N) (used : gmap (list N) Z) :
  occurrences (count_usage v used) = occurrences used + 1.
Proof.
  unfold occurrences, count_usage.
  destruct (used !! v) as [c|] eqn:E; simpl.
  - rewrite <- insert_delete_eq.
    rewrite map_fold_insert_L by (intros; lia || apply lookup_delete_eq).
    rewrite (map_fold_delete_L _ _ v c used) by (intros; lia || done). lia.
  - rewrite map_fold_insert_L by (intros; lia || done). lia.
Qed.

Lemma occurrence_bytes_count_usage (v : list N) (used : gmap (list N) Z) :
  occurrence_bytes (count_usage v used) = occurrence_bytes used + utf8_len v.
Proof.
  unfold occurrence_bytes, count_usage.
  destruct (used !! v) as [c|] eqn:E; simpl.
  - rewrite <- insert_delete_eq.
    rewrite map_fold_insert_L by (intros; lia || apply lookup_delete_eq).
    rewrite (map_fold_delete_L _ _ v c used) by (intros; lia || done). lia.
  - rewrite map_fold_insert_L by (intros; lia || done). lia.
Qed.

Lemma occurrences_count_all ts : forall used : gmap (list N) Z,
  occurrences (count_all ts used) = occurrences used + Z.of_nat (length ts).
Proof.
  induction ts as [|v ts IH]; intros used; unfold count_all in *; simpl; [lia|].
  rewrite IH, occurrences_count_usage. lia.
Qed.

Lemma occurrence_bytes_count_all ts : forall used : gmap (list N) Z,
  occurrence_bytes (count_all ts used)
  = occurrence_bytes used + Zsum (map utf8_len ts).
Proof.
  induction ts as [|v ts IH]; intros used; unfold count_all in *; simpl; [lia|].
  rewrite IH, occurrence_bytes_count_usage. lia.
Qed.

Lemma findall_from_Forall {A} (P : A -> Prop) (m : list N -> option (A * list N)) :
  (forall s a rest, m s = Some (a, rest) -> P a) ->
  forall s n, Forall P (findall_from m n s).
Proof.
  intros Hm. induction s as [|c s IH]; intros n; simpl; [done|].
  destruct n as [|n]; [|apply IH].
  destruct (m (c :: s)) as [[a rest]|] eqn:E; [|apply IH].
  constructor; [by eapply Hm | apply IH].
Qed.

Lemma var_usage_regex_inv s token rest :
  V2.var_usage_regex U s = Some (token, rest) ->
  exists id, s = token ++ rest /\ token = AT :: id /\ id <> []
    /\ Forall (fun c => is_word_or_digit U c = true) id.
Proof.
  unfold V2.var_usage_regex. intros H.
  apply re_chr_inv in H as (a & s1 & -> & Ha & H).
  apply N.eqb_eq in Ha as ->.
  apply re_plus_inv in H as (id & s2 & -> & Hne & Hid & H).
  injection H as <- <-. by exists id.
Qed.

(** A reference token takes at least two bytes: the sigil and an id. *)
Lemma tokens_at_least_two s : Forall (fun t => 2 <= utf8_len t) (tokens U s).
Proof.
  apply findall_from_Forall. intros s' t rest H.
  apply var_usage_regex_inv in H as (id & _ & -> & Hne & _).
  destruct id as [|c id]; [done|]. simpl. change (utf8_len_chr AT) with 1.
  pose proof (utf8_len_chr_pos c). pose proof (utf8_len_nonneg id). lia.
Qed.

Lemma tokens_bytes_ge_count s :
  Z.of_nat (length (tokens U s)) <= Zsum (map utf8_len (tokens U s)).
Proof.
  induction (tokens_at_least_two s) as [|t ts Ht _ IH]; simpl; lia.
Qed.

Lemma same_scan_neutral st1 st2 st1' st2' :
  same_scan st1 st2 -> V1_neutral st1 st1' -> V2_neutral st2 st2' ->
  same_scan st1' st2'.
Proof.
  intros (H1 & H2 & H3 & H4 & H5) (A1 & A2 & A3 & A4) (B1 & B2 & B3 & B4 & B5).
  unfold same_scan. rewrite A1, A2, A3, A4, B1, B2, B3, B4.
  repeat split; auto.
Qed.

Lemma V1_neutral_bump st :
  V1_neutral st (V1.with_stats (V1.bump V1.total_lines 1) st).
Proof. unfold V1_neutral. fields. keys. repeat split; lia. Qed.

Lemma V2_neutral_bump st :
  V2_neutral st (V2.with_stats (V2.bump V2.total_lines 1) st).
Proof. unfold V2_neutral. fields. keys. repeat split; auto; lia. Qed.

Lemma V2_neutral_stop st :
  V2_neutral st
    (V2.set_parsing_definitions false
       (V2.with_stats (V2.bump V2.total_lines 1) st)).
Proof. unfold V2_neutral. fields. keys. repeat split; auto; lia. Qed.

Lemma V1_neutral_definition var content n st :
  V1_neutral st (V1.definition_line var content n st).
Proof.
  destruct (V1_definition_line var content n st) as (_ & _ & A2 & A3 & A4 & A).
  unfold V1_neutral. rewrite A2, A3, A4, A. keys. repeat split; lia.
Qed.

Lemma V1_neutral_other n st : V1_neutral st (V1.other_line n st).
Proof.
  destruct (V1_other_line n st) as (_ & _ & A2 & A3 & A4 & A).
  unfold V1_neutral. rewrite A2, A3, A4, A. keys. repeat split; lia.
Qed.

Lemma V2_neutral_definition var content n st :
  V2_neutral st (V2.definition_line U var content n st).
Proof.
  destruct (V2_definition_line U var content n st)
    as (_ & _ & _ & _ & B4 & B5 & B6 & B7 & B).
  unfold V2_neutral. rewrite B4, B5, B6, B7, B. keys. repeat split; auto; lia.
Qed.

Lemma V2_neutral_empty_definition var n st :
  V2_neutral st (V2.empty_definition_line var n st).
Proof.
  destruct (V2_empty_definition_line var n st)
    as (_ & _ & _ & _ & B4 & B5 & B6 & B7 & B).
  unfold V2_neutral. rewrite B4, B5, B6, B7, B. keys. repeat split; auto; lia.
Qed.

Lemma V2_neutral_other n st : V2_neutral st (V2.other_line n st).
Proof.
  destruct (V2_other_line n st) as (_ & _ & _ & _ & B4 & B5 & B6 & B7 & B).
  unfold V2_neutral. rewrite B4, B5, B6, B7, B. keys. repeat split; auto; lia.
Qed.

Lemma same_scan_block l n st1 st2 :
  same_scan st1 st2 -> V2.parsing_definitions st2 = false ->
  same_scan (V1.block_line U l n st1) (V2.block_line U l n st2).
Proof.
  intros (H1 & H2 & H3 & H4 & H5) Hp.
  destruct (V1_block_line U l n st1) as (_ & _ & A2 & A3 & A4 & A).
  destruct (V2_block_line U l n st2) as (_ & _ & _ & _ & B4 & B5 & B6 & B7 & B).
  unfold same_scan.
  rewrite A2, A3, A4, A, B4, B5, B6, B7, B by (unfold V2_basic; simpl; lia).
  rewrite H1, H2, H3, Hp. unfold V1_block_delta, V2_block_delta. keys.
  pose proof (tokens_bytes_ge_count (block_content l)).
  repeat split; try done. lia.
Qed.

Lemma same_scan_header g3 n st1 st2 :
  same_scan st1 st2 -> V2.parsing_definitions st2 = false ->
  same_scan (V1.header_line U g3 n st1) (V2.header_line U g3 n st2).
Proof.
  intros (H1 & H2 & H3 & H4 & H5) Hp.
  destruct (V1_header_line U g3 n st1) as (_ & _ & A2 & A3 & A4 & A).
  destruct (V2_header_line U g3 n st2) as (_ & _ & _ & _ & B4 & B5 & B6 & B7 & B).
  unfold same_scan. rewrite A2, A3, A4, A, B4, B5, B6, B7, B.
  rewrite H3, Hp. keys. repeat split; try done. lia.
Qed.

Lemma same_scan_command l n st1 st2 :
  same_scan st1 st2 ->
  same_scan (V1.command_line U l n st1) (V2.command_line U l n st2).
Proof.
  intros (H1 & H2 & H3 & H4 & H5).
  destruct (V1_command_line U l n st1) as (_ & _ & A2 & A3 & A4 & A).
  destruct (V2_command_line U l n st2) as (_ & _ & _ & _ & B4 & B5 & B6 & B7 & B).
  unfold same_scan.
  rewrite A2, A3, A4, A, B4, B5, B6, B7, B by (unfold V2_basic; simpl; lia).
  rewrite H1, H2, H3. unfold V1_command_delta, V2_command_delta. keys.
  pose proof (tokens_bytes_ge_count l).
  repeat split; try done. lia.
Qed.

(** The part of a turn after the definitions does in v2 what the turn of v1
    does on a line that is not of definition shape. *)
Lemma same_scan_command_step l st1 st2 :
  same_scan st1 st2 -> V2.parsing_definitions st2 = false ->
  def_regex U l = None \/ V1.in_block st1 = true ->
  same_scan
    (if V1.in_block st1 then V1.block_line U l (utf8_len l) st1
     else match block_header_regex U l with
          | Some (_, _, g3) => V1.header_line U g3 (utf8_len l) st1
          | None =>
              if is_some (command_ad_regex U l) || is_some (command_MR_regex U l)
              then V1.command_line U l (utf8_len l) st1
              else V1.other_line (utf8_len l) st1
          end)
    (V2.command_step U l (utf8_len l) st2).
Proof.
  intros H Hp _. unfold V2.command_step.
  pose proof H as (H1 & _). rewrite <- H1.
  destruct (V1.in_block st1); [by apply same_scan_block|].
  destruct (block_header_regex U l) as [[[g1 g2] g3]|];
    [by apply same_scan_header|].
  destruct (_ || _); [by apply same_scan_command|].
  eapply same_scan_neutral; [done|apply V1_neutral_other|apply V2_neutral_other].
Qed.

Lemma same_scan_step n line st1 st2 :
  same_scan st1 st2 ->
  same_scan (V1.step U n line st1) (V2.step U n line st2).
Proof.
  intros H. unfold V1.step, V2.step. cbv zeta.
  destruct (_ && _).
  { eapply same_scan_neutral; [done| |].
    - unfold V1_neutral. fields. keys. repeat split; lia.
    - unfold V2_neutral. fields. keys. repeat split; auto; lia. }
  set (l := rstrip_nl line).
  pose proof (same_scan_neutral _ _ _ _ H (V1_neutral_bump st1)
                (V2_neutral_bump st2)) as Hbump.
  pose proof (same_scan_neutral _ _ _ _ H (V1_neutral_bump st1)
                (V2_neutral_stop st2)) as Hstop.
  cbn [V1.in_block V2.parsing_definitions V1.with_stats V2.with_stats].
  pose proof H as (H1 & _ & _ & _ & H5).
  destruct (V2.parsing_definitions st2) eqn:Hp.
  - (* v2 still reads definitions: neither analyzer is inside a block *)
    rewrite H1, (H5 eq_refl).
    destruct (def_regex U l) as [[var content]|] eqn:Hd.
    { apply (same_scan_neutral _ _ _ _ Hbump);
        [apply V1_neutral_definition | apply V2_neutral_definition]. }
    destruct (V2.def_regex_no_content U l) as [var|] eqn:He.
    + (* an empty definition for v2, an unrecognized line for v1 *)
      apply def_regex_no_content_inv in He as (id & tail & Hl & _).
      rewrite Hl, sigil_not_header, sigil_not_command.
      apply (same_scan_neutral _ _ _ _ Hbump);
        [apply V1_neutral_other | apply V2_neutral_empty_definition].
    + pose proof (same_scan_command_step l _ _ Hstop eq_refl (or_introl Hd)) as Hc.
      cbn [V1.in_block V1.with_stats] in Hc. by rewrite H1, (H5 eq_refl) in Hc.
  - destruct (V1.in_block st1) eqn:Hb.
    + pose proof (same_scan_command_step l _ _ Hbump Hp (or_intror Hb)) as Hc.
      cbn [V1.in_block V1.with_stats] in Hc. by rewrite Hb in Hc.
    + destruct (def_regex U l) as [[var content]|] eqn:Hd.
      * (* a definition for v1, an unrecognized line for v2 *)
        apply def_regex_inv in Hd as (id & sp & Hl & _).
        unfold V2.command_step. cbn [V2.in_block V2.with_stats].
        rewrite <- H1, Hl, sigil_not_header, sigil_not_command.
        apply (same_scan_neutral _ _ _ _ Hbump);
          [apply V1_neutral_definition | apply V2_neutral_other].
      * pose proof (same_scan_command_step l _ _ Hbump Hp (or_introl Hd)) as Hc.
        cbn [V1.in_block V1.with_stats] in Hc. by rewrite Hb in Hc.
Qed.

Lemma same_scan_loop lines : forall n st1 st2,
  same_scan st1 st2 ->
  same_scan (V1.loop U n lines st1) (V2.loop U n lines st2).
Proof.
  induction lines as [|line lines IH]; intros n st1 st2 H; simpl; [done|].
  by apply IH, same_scan_step.
Qed.

Lemma V1_loop_occurrences lines : forall n st,
  V1.stats st V1.command_at_overhead_b = occurrences (V1.used_vars_count st) ->
  V1.stats (V1.loop U n lines st) V1.command_at_overhead_b
  = occurrences (V1.used_vars_count (V1.loop U n lines st)).
Proof.
  induction lines as [|line lines IH]; intros n st H; simpl; [done|].
  apply IH.
  destruct (V1_step_usage U n line st)
    as [(_ & -> & ->)|(_ & [(-> & ->)|(-> & ->)])]; try done.
  rewrite occurrences_count_all. lia.
Qed.

Lemma V2_loop_occurrence_bytes lines : forall n st,
  V2.stats st V2.total_reference_cost_b
  = occurrence_bytes (V2.used_vars_count st) ->
  V2.stats (V2.loop U n lines st) V2.total_reference_cost_b
  = occurrence_bytes (V2.used_vars_count (V2.loop U n lines st)).
Proof.
  induction lines as [|line lines IH]; intros n st H; simpl; [done|].
  apply IH.
  destruct (V2_step_usage U n line st)
    as [(_ & -> & ->)|(_ & [(-> & ->)|(-> & ->)])]; try done.
  rewrite occurrence_bytes_count_all. lia.
Qed.

(** C8: on every file the two analyzers tally the same reference
    occurrences; H3 of v1 is their number (one byte each), H3 of v2 is the sum
    of the encoded sizes of the tokens; so H3 of v2 is at least H3 of v1. *)
Theorem v2_reference_cost_covers_v1 size lines :
  V1.used_vars_count (V1.analyze_lines U size lines)
    = V2.used_vars_count (V2.analyze_lines U size lines)
  /\ V1.stats (V1.analyze_lines U size lines) V1.command_at_overhead_b
     = occurrences (V1.used_vars_count (V1.analyze_lines U size lines))
  /\ V2.stats (V2.analyze_lines U size lines) V2.total_reference_cost_b
     = occurrence_bytes (V2.used_vars_count (V2.analyze_lines U size lines))
  /\ V1.stats (V1.analyze_lines U size lines) V1.command_at_overhead_b
     <= V2.stats (V2.analyze_lines U size lines) V2.total_reference_cost_b.
Proof.
  unfold V1.analyze_lines, V2.analyze_lines.
  assert (same_scan (V1.init size) (V2.init size)) as H0.
  { unfold same_scan. simpl. keys. repeat split; auto; lia. }
  destruct (same_scan_loop lines 0 _ _ H0) as (_ & _ & Hu & Hle & _).
  repeat split; try done.
  - by apply V1_loop_occurrences.
  - by apply V2_loop_occurrence_bytes.
Qed.

End Tallies.

(** ** Stray definitions (C7) *)

Section Stray.
Context (U : unicode).

Lemma Zsum_Permutation l1 l2 : l1 ≡ₚ l2 -> Zsum l1 = Zsum l2.
Proof. induction 1; simpl; lia. Qed.

Lemma Zsum_submseteq {X} (w : X -> Z) l1 l2 :
  (forall x, 0 <= w x) -> l1 ⊆+ l2 -> Zsum (map w l1) <= Zsum (map w l2).
Proof.
  intros Hw. induction 1 as [|x l1 l2 _ IH|x y l|x l1 l2 _ IH|l1 l2 l3 _ IH1 _ IH2];
    simpl; try lia.
  pose proof (Hw x). lia.
Qed.

Lemma definition_cost_nonneg content : 0 <= definition_cost content.
Proof. unfold definition_cost. pose proof (utf8_len_nonneg content). lia. Qed.

Lemma definitions_cost_insert_new (defined : gmap (list N) (list N)) var content :
  defined !! var = None ->
  definitions_cost (<[var := content]> defined)
  = definitions_cost defined + definition_cost content.
Proof.
  intros H. unfold definitions_cost.
  by rewrite map_fold_insert_L by (intros; lia || done).
Qed.

Lemma definitions_cost_insert (defined : gmap (list N) (list N)) var content :
  definitions_cost (<[var := content]> defined)
  <= definitions_cost defined + definition_cost content.
Proof.
  destruct (defined !! var) as [old|] eqn:E.
  - rewrite <- insert_delete_eq.
    rewrite definitions_cost_insert_new by apply lookup_delete_eq.
    unfold definitions_cost at 2.
    rewrite (map_fold_delete_L _ _ var old defined) by (intros; lia || done).
    fold (definitions_cost (delete var defined)).
    pose proof (definition_cost_nonneg old). lia.
  - rewrite definitions_cost_insert_new by done. lia.
Qed.

(** Summed over all the ids of the table, the dead weight is the cost of the
    table. *)
Lemma spec_dead_weight_dom (defined : gmap (list N) (list N)) :
  spec_dead_weight defined (dom defined) = definitions_cost defined.
Proof.
  induction defined as [|var content defined Hnew IH] using map_ind.
  - unfold spec_dead_weight, definitions_cost.
    by rewrite dom_empty_L, elements_empty, map_fold_empty.
  - rewrite definitions_cost_insert_new by done. rewrite <- IH.
    unfold spec_dead_weight. rewrite dom_insert_L.
    assert (var ∉ dom defined) as Hvar by by apply not_elem_of_dom.
    rewrite (Zsum_Permutation _ _
      (Permutation_map _ (elements_union_singleton _ _ Hvar))).
    simpl. rewrite lookup_insert_eq. simpl. fold (definition_cost content).
    cut (map (fun v => 1 + 1 + utf8_len (default [] (<[var:=content]> defined !! v)))
             (elements (dom defined))
         = map (fun v => 1 + 1 + utf8_len (default [] (defined !! v)))
               (elements (dom defined))).
    { intros ->. lia. }
    apply map_ext_in. intros v Hv%list_elem_of_In%elem_of_elements.
    rewrite lookup_insert_ne; [done|]. by intros <-.
Qed.

Lemma spec_dead_weight_subseteq (defined : gmap (list N) (list N)) X Y :
  X ⊆ Y -> spec_dead_weight defined X <= spec_dead_weight defined Y.
Proof.
  intros H. unfold spec_dead_weight. apply Zsum_submseteq.
  - intros v. pose proof (utf8_len_nonneg (default [] (defined !! v))). lia.
  - by apply elements_submseteq.
Qed.

(** The loop over the stray ids never misses a key, and adds up the dead
    weight. *)
Lemma dead_weight_loop (defined : gmap (list N) (list N)) (X : gset (list N)) :
  X ⊆ dom defined ->
  set_fold (fun var_name acc =>
    match acc, defined !! var_name with
    | Some n, Some content => Some (n + (1 + 1 + utf8_len content))
    | _, _ => None
    end) (Some 0) X
  = Some (spec_dead_weight defined X).
Proof.
  intros HX. unfold set_fold, spec_dead_weight. simpl.
  assert (Forall (fun v => is_Some (defined !! v)) (elements X)) as Hall.
  { apply Forall_forall. intros v Hv%elem_of_elements.
    by apply elem_of_dom, HX. }
  induction Hall as [|v l [content Hv] _ IH]; simpl; [done|].
  rewrite IH, Hv. simpl. f_equal. lia.
Qed.

Lemma def_line_cost line var content :
  def_regex U line = Some (var, content) ->
  definition_cost content <= utf8_len line.
Proof.
  intros (id & sp & -> & _ & Hne & _)%def_regex_inv.
  unfold definition_cost. simpl. rewrite utf8_len_app. simpl.
  change (utf8_len_chr AT) with 1.
  destruct id as [|c id]; [done|]. simpl.
  pose proof (utf8_len_chr_pos c). pose proof (utf8_len_chr_pos sp).
  pose proof (utf8_len_nonneg id). lia.
Qed.

Lemma empty_def_line_cost line var :
  V2.def_regex_no_content U line = Some var ->
  definition_cost [] <= utf8_len line.
Proof.
  intros (id & tail & -> & _ & Hne & _)%def_regex_no_content_inv.
  unfold definition_cost. simpl. rewrite utf8_len_app.
  change (utf8_len_chr AT) with 1.
  destruct id as [|c id]; [done|]. simpl.
  pose proof (utf8_len_chr_pos c). pose proof (utf8_len_nonneg tail).
  pose proof (utf8_len_nonneg id). lia.
Qed.

Lemma V1_step_definitions_cost n line st :
  definitions_cost (V1.defined_vars st) <= V1.stats st V1.definition_size_b ->
  definitions_cost (V1.defined_vars (V1.step U n line st))
  <= V1.stats (V1.step U n line st) V1.definition_size_b.
Proof.
  intros H. v1_branches U n line st.
  - fields. keys. lia.
  - facts (V1_block_line U (rstrip_nl line) (utf8_len (rstrip_nl line))
             (V1.with_stats (V1.bump V1.total_lines 1) st)).
    rewrite F0, F. unfold V1_block_delta. keys. lia.
  - facts (V1_definition_line var content (utf8_len (rstrip_nl line))
             (V1.with_stats (V1.bump V1.total_lines 1) st)).
    rewrite F0, F. keys.
    pose proof (definitions_cost_insert (V1.defined_vars st) var content).
    pose proof (def_line_cost _ _ _ Hdef). lia.
  - facts (V1_header_line U g3 (utf8_len (rstrip_nl line))
             (V1.with_stats (V1.bump V1.total_lines 1) st)).
    rewrite F0, F. keys. lia.
  - facts (V1_command_line U (rstrip_nl line) (utf8_len (rstrip_nl line))
             (V1.with_stats (V1.bump V1.total_lines 1) st)).
    rewrite F0, F. unfold V1_command_delta. keys. lia.
  - facts (V1_other_line (utf8_len (rstrip_nl line))
             (V1.with_stats (V1.bump V1.total_lines 1) st)).
    rewrite F0, F. keys. lia.
Qed.

Lemma V2_step_definitions_cost n line st :
  definitions_cost (V2.defined_vars st) <= V2.stats st V2.definition_size_b ->
  definitions_cost (V2.defined_vars (V2.step U n line st))
  <= V2.stats (V2.step U n line st) V2.definition_size_b.
Proof.
  intros H. unfold V2.step. cbv zeta.
  destruct (_ && _); [fields; keys; lia|]. fields.
  assert (Hcmd : forall st0,
    V2.stats st0 = V2.bump V2.total_lines 1 (V2.stats st) ->
    V2.defined_vars st0 = V2.defined_vars st ->
    definitions_cost (V2.defined_vars
      (V2.command_step U (rstrip_nl line) (utf8_len (rstrip_nl line)) st0))
    <= V2.stats
         (V2.command_step U (rstrip_nl line) (utf8_len (rstrip_nl line)) st0)
         V2.definition_size_b).
  { intros st0 Hs Hd.
    destruct (V2_command_step_definitions U (rstrip_nl line)
                (utf8_len (rstrip_nl line)) st0) as (_ & Hsame & _ & _ & Hk).
    rewrite Hsame, Hk, Hs, Hd by (simpl; lia). keys. lia. }
  destruct (V2.parsing_definitions st); [|by apply Hcmd].
  destruct (def_regex U (rstrip_nl line)) as [[var content]|] eqn:Hdef.
  { facts (V2_definition_line U var content (utf8_len (rstrip_nl line))
             (V2.with_stats (V2.bump V2.total_lines 1) st)).
    rewrite F0, F. keys.
    pose proof (definitions_cost_insert (V2.defined_vars st) var content).
    pose proof (def_line_cost _ _ _ Hdef). lia. }
  destruct (V2.def_regex_no_content U (rstrip_nl line)) as [var|] eqn:Hempty.
  { facts (V2_empty_definition_line var (utf8_len (rstrip_nl line))
             (V2.with_stats (V2.bump V2.total_lines 1) st)).
    rewrite F0, F. keys.
    pose proof (definitions_cost_insert (V2.defined_vars st) var []).
    pose proof (empty_def_line_cost _ _ Hempty). lia. }
  by apply Hcmd.
Qed.

Lemma V1_loop_definitions_cost lines : forall n st,
  definitions_cost (V1.defined_vars st) <= V1.stats st V1.definition_size_b ->
  definitions_cost (V1.defined_vars (V1.loop U n lines st))
  <= V1.stats (V1.loop U n lines st) V1.definition_size_b.
Proof.
  induction lines as [|line lines IH]; intros n st H; simpl; [done|].
  by apply IH, V1_step_definitions_cost.
Qed.

Lemma V2_loop_definitions_cost lines : forall n st,
  definitions_cost (V2.defined_vars st) <= V2.stats st V2.definition_size_b ->
  definitions_cost (V2.defined_vars (V2.loop U n lines st))
  <= V2.stats (V2.loop U n lines st) V2.definition_size_b.
Proof.
  induction lines as [|line lines IH]; intros n st H; simpl; [done|].
  by apply IH, V2_step_definitions_cost.
Qed.

(** C7: in both analyzers the stray set is the ids of the table of
    definitions less the ids of the usage table: an id is stray exactly when
    it is defined and was never tallied; so the stray ids are defined ids.
    The loop over them raises no [KeyError] and adds up, for each id that is
    defined and not used, 1 + 1 + the byte length of its content; and this
    dead weight is at most the accumulated size of the definition lines. *)
Theorem stray_definitions size lines :
  (V1.unused_vars (V1.analyze_lines U size lines)
     = dom (V1.defined_vars (V1.analyze_lines U size lines))
       ∖ dom (V1.used_vars_count (V1.analyze_lines U size lines))
   /\ (forall var,
         var ∈ V1.unused_vars (V1.analyze_lines U size lines)
         <-> is_Some (V1.defined_vars (V1.analyze_lines U size lines) !! var)
             /\ V1.used_vars_count (V1.analyze_lines U size lines) !! var = None)
   /\ V1.unused_vars (V1.analyze_lines U size lines)
        ⊆ dom (V1.defined_vars (V1.analyze_lines U size lines))
   /\ V1.unused_size_b (V1.analyze_lines U size lines)
      = Some (spec_dead_weight
                (V1.defined_vars (V1.analyze_lines U size lines))
                (dom (V1.defined_vars (V1.analyze_lines U size lines))
                 ∖ dom (V1.used_vars_count (V1.analyze_lines U size lines))))
   /\ spec_dead_weight
        (V1.defined_vars (V1.analyze_lines U size lines))
        (dom (V1.defined_vars (V1.analyze_lines U size lines))
         ∖ dom (V1.used_vars_count (V1.analyze_lines U size lines)))
      <= V1.stats (V1.analyze_lines U size lines) V1.definition_size_b)
  /\ (V2.unused_vars (V2.analyze_lines U size lines)
       = dom (V2.defined_vars (V2.analyze_lines U size lines))
         ∖ dom (V2.used_vars_count (V2.analyze_lines U size lines))
     /\ (forall var,
           var ∈ V2.unused_vars (V2.analyze_lines U size lines)
           <-> is_Some (V2.defined_vars (V2.analyze_lines U size lines) !! var)
               /\ V2.used_vars_count (V2.analyze_lines U size lines) !! var = None)
     /\ V2.unused_vars (V2.analyze_lines U size lines)
          ⊆ dom (V2.defined_vars (V2.analyze_lines U size lines))
     /\ V2.unused_size_b (V2.analyze_lines U size lines)
        = Some (spec_dead_weight
                  (V2.defined_vars (V2.analyze_lines U size lines))
                  (dom (V2.defined_vars (V2.analyze_lines U size lines))
                   ∖ dom (V2.used_vars_count (V2.analyze_lines U size lines))))
     /\ spec_dead_weight
          (V2.defined_vars (V2.analyze_lines U size lines))
          (dom (V2.defined_vars (V2.analyze_lines U size lines))
           ∖ dom (V2.used_vars_count (V2.analyze_lines U size lines)))
        <= V2.stats (V2.analyze_lines U size lines) V2.definition_size_b).
Proof.
  split.
  - set (st := V1.analyze_lines U size lines).
    assert (V1.unused_vars st ⊆ dom (V1.defined_vars st)) as Hsub
      by (intros v [Hv _]%elem_of_difference; exact Hv).
    split; [done|]. split.
    { intros var. unfold V1.unused_vars.
      by rewrite elem_of_difference, elem_of_dom, not_elem_of_dom. }
    split; [done|].
    fold (V1.unused_vars st).
    split; [by apply dead_weight_loop|].
    etrans; [by apply spec_dead_weight_subseteq|].
    rewrite spec_dead_weight_dom. apply V1_loop_definitions_cost.
    unfold definitions_cost. simpl. rewrite map_fold_empty. keys. lia.
  - set (st := V2.analyze_lines U size lines).
    assert (V2.unused_vars st ⊆ dom (V2.defined_vars st)) as Hsub
      by (intros v [Hv _]%elem_of_difference; exact Hv).
    split; [done|]. split.
    { intros var. unfold V2.unused_vars.
      by rewrite elem_of_difference, elem_of_dom, not_elem_of_dom. }
    split; [done|].
    fold (V2.unused_vars st).
    split; [by apply dead_weight_loop|].
    etrans; [by apply spec_dead_weight_subseteq|].
    rewrite spec_dead_weight_dom. apply V2_loop_definitions_cost.
    unfold definitions_cost. simpl. rewrite map_fold_empty. keys. lia.
Qed.

End Stray.

(** ** The overhead is part of the file (C6) *)

Section Overhead.
Context (U : unicode).

Lemma Zsum_cons x l : Zsum (x :: l) = x + Zsum l.
Proof. reflexivity. Qed.

Lemma literal_gap_regex_inv s digits rest :
  literal_gap_regex U s = Some (digits, rest) ->
  exists sp, s = HASH :: digits ++ sp :: rest /\ digits <> []
    /\ Forall (fun c => is_digit U c = true) digits /\ is_space U sp = true.
Proof.
  unfold literal_gap_regex. intros H.
  apply re_chr_inv in H as (a & s1 & -> & Ha & H).
  apply N.eqb_eq in Ha as ->.
  apply re_plus_inv in H as (ds & s2 & -> & Hne & Hds & H).
  apply re_chr_inv in H as (sp & s3 & -> & Hsp & H).
  injection H as <- <-. by exists sp.
Qed.

Lemma word_not_hash c : is_word_or_digit U c = true -> c <> HASH.
Proof. by intros H ->. Qed.

Lemma digit_not_at c : is_digit U c = true -> c <> AT.
Proof. by intros H ->. Qed.

Lemma space_not_at c : is_space U c = true -> c <> AT.
Proof. by intros H ->. Qed.

(** The reference tokens and the literal headers of a text do not overlap:
    together they take no more bytes than the text has.  [k1] and [k2] are
    the characters that the two searches still have to pass over. *)
Lemma scan_within_text s : forall k1 k2 : nat,
  k1 = 0%nat \/ k2 = 0%nat ->
  Forall (fun c => c <> HASH) (take k1 s) ->
  Forall (fun c => c <> AT) (take k2 s) ->
  Zsum (map utf8_len (findall_from (V2.var_usage_regex U) k1 s))
  + Zsum (map gap_header_len (findall_from (literal_gap_regex U) k2 s))
  + utf8_len (take (k1 + k2) s)
  <= utf8_len s.
Proof.
  induction s as [|c s IH]; intros k1 k2 Hk H1 H2.
  - rewrite take_nil. simpl. lia.
  - destruct k1 as [|k1], k2 as [|k2]; try (destruct Hk; discriminate).
    + (* both searches try a match at [c] *)
      cbn [findall_from].
      destruct (V2.var_usage_regex U (c :: s)) as [[t rest]|] eqn:ET.
      * apply var_usage_regex_inv in ET as (id & Hs & -> & Hne & Hid).
        injection Hs as -> ->.
        assert (literal_gap_regex U (AT :: id ++ rest) = None) as -> by done.
        rewrite length_app, Nat.add_sub, take_0.
        specialize (IH (length id) 0%nat (or_intror eq_refl)).
        rewrite Nat.add_0_r, take_app_length, take_0 in IH.
        specialize (IH (Forall_impl _ _ _ Hid word_not_hash) (Forall_nil_2 _)).
        cbn [map utf8_len] in *. rewrite Zsum_cons, !utf8_len_app in *.
        cbn [utf8_len]. lia.
      * destruct (literal_gap_regex U (c :: s)) as [[ds rest]|] eqn:EG.
        -- apply literal_gap_regex_inv in EG as (sp & Hs & Hne & Hds & Hsp).
           injection Hs as -> ->.
           replace (length (ds ++ sp :: rest) - length rest)%nat
             with (length (ds ++ [sp])) by (rewrite !length_app; simpl; lia).
           specialize (IH 0%nat (length (ds ++ [sp])) (or_introl eq_refl)).
           rewrite Nat.add_0_l, take_0 in IH.
           replace (ds ++ sp :: rest) with ((ds ++ [sp]) ++ rest) in *
             by by rewrite <- app_assoc.
           rewrite take_app_length in IH.
           assert (Forall (fun c => c <> AT) (ds ++ [sp])) as Hat.
           { apply Forall_app. split.
             - by apply (Forall_impl _ _ _ Hds), digit_not_at.
             - repeat constructor. by apply space_not_at. }
           specialize (IH (Forall_nil_2 _) Hat).
           pose proof (utf8_len_ge_len (ds ++ [sp])) as Hlen.
           unfold gap_header_len, len in *.
           rewrite take_0. cbn [map utf8_len length] in *.
           rewrite Zsum_cons, !utf8_len_app, !length_app in *.
           change (utf8_len_chr HASH) with 1. cbn [length] in *. lia.
        -- specialize (IH 0%nat 0%nat (or_introl eq_refl)).
           rewrite take_0 in *. specialize (IH (Forall_nil_2 _) (Forall_nil_2 _)).
           pose proof (utf8_len_chr_pos c). simpl in *. lia.
    + (* inside a literal header *)
      rewrite Nat.add_0_l in *. rewrite firstn_cons in H2.
      apply Forall_cons in H2 as [Hc H2].
      cbn [findall_from].
      assert (V2.var_usage_regex U (c :: s) = None) as ->.
      { unfold V2.var_usage_regex, re_chr, is_chr.
        by apply N.eqb_neq in Hc as ->. }
      specialize (IH 0%nat k2 (or_introl eq_refl) (Forall_nil_2 _) H2).
      rewrite Nat.add_0_l in IH. rewrite firstn_cons. simpl. lia.
    + (* inside a reference token *)
      rewrite Nat.add_0_r in *. rewrite firstn_cons in H1.
      apply Forall_cons in H1 as [Hc H1].
      cbn [findall_from].
      assert (literal_gap_regex U (c :: s) = None) as ->.
      { unfold literal_gap_regex, re_chr, is_chr.
        by apply N.eqb_neq in Hc as ->. }
      specialize (IH k1 0%nat (or_intror eq_refl) H1 (Forall_nil_2 _)).
      rewrite Nat.add_0_r in IH. rewrite firstn_cons. simpl. lia.
Qed.

Lemma scan_bound s :
  Zsum (map utf8_len (tokens U s)) + Zsum (map gap_header_len (gaps U s))
  <= utf8_len s.
Proof.
  pose proof (scan_within_text s 0 0 (or_introl eq_refl)) as H.
  rewrite take_0 in H. specialize (H (Forall_nil_2 _) (Forall_nil_2 _)).
  simpl in H. unfold tokens, gaps, findall. lia.
Qed.

Lemma tokens_bytes_nonneg s : 0 <= Zsum (map utf8_len (tokens U s)).
Proof. pose proof (tokens_bytes_ge_count U s). lia. Qed.

Lemma gaps_bytes_nonneg s : 0 <= Zsum (map gap_header_len (gaps U s)).
Proof.
  induction (gaps U s) as [|g gs IH]; simpl; [lia|].
  unfold gap_header_len at 1, len. lia.
Qed.

Lemma block_bound l :
  (if has_block_prefix l then 2 else 0)
  + Zsum (map utf8_len (tokens U (block_content l)))
  + Zsum (map gap_header_len (gaps U (block_content l)))
  <= utf8_len l.
Proof.
  pose proof (scan_bound (block_content l)) as H. unfold block_content in *.
  destruct (has_block_prefix l) eqn:E; [|lia].
  apply has_block_prefix_inv in E as (c & rest & -> & _).
  simpl in *. change (utf8_len_chr SPACE) with 1.
  pose proof (utf8_len_chr_pos c). rewrite ?drop_0 in *. lia.
Qed.

Lemma V1_step_overhead n line st :
  V1.stats (V1.step U n line st) V1.total_size_b = V1.stats st V1.total_size_b
  /\ V1.total_overhead st <= V1.total_overhead (V1.step U n line st)
     <= V1.total_overhead st + utf8_len (rstrip_nl line).
Proof.
  pose proof (utf8_len_nonneg (rstrip_nl line)) as Hlen.
  unfold V1.total_overhead. v1_branches U n line st.
  - fields. keys. lia.
  - facts (V1_block_line U (rstrip_nl line) (utf8_len (rstrip_nl line))
             (V1.with_stats (V1.bump V1.total_lines 1) st)).
    rewrite !F. unfold V1_block_delta. keys.
    pose proof (block_bound (rstrip_nl line)).
    pose proof (tokens_bytes_ge_count U (block_content (rstrip_nl line))).
    pose proof (gaps_bytes_nonneg (block_content (rstrip_nl line))).
    destruct (has_block_prefix (rstrip_nl line)); lia.
  - facts (V1_definition_line var content (utf8_len (rstrip_nl line))
             (V1.with_stats (V1.bump V1.total_lines 1) st)).
    rewrite !F. keys.
    pose proof (def_line_cost U _ _ _ Hdef) as Hc. unfold definition_cost in Hc.
    pose proof (utf8_len_nonneg content). lia.
  - facts (V1_header_line U g3 (utf8_len (rstrip_nl line))
             (V1.with_stats (V1.bump V1.total_lines 1) st)).
    rewrite !F. keys. lia.
  - facts (V1_command_line U (rstrip_nl line) (utf8_len (rstrip_nl line))
             (V1.with_stats (V1.bump V1.total_lines 1) st)).
    rewrite !F. unfold V1_command_delta. keys.
    pose proof (scan_bound (rstrip_nl line)).
    pose proof (tokens_bytes_ge_count U (rstrip_nl line)).
    pose proof (gaps_bytes_nonneg (rstrip_nl line)). lia.
  - facts (V1_other_line (utf8_len (rstrip_nl line))
             (V1.with_stats (V1.bump V1.total_lines 1) st)).
    rewrite !F. keys. lia.
Qed.

Lemma V2_command_step_overhead l st :
  V2.stats (V2.command_step U l (utf8_len l) st) V2.total_size_b
  = V2.stats st V2.total_size_b
  /\ V2.total_overhead st <= V2.total_overhead (V2.command_step U l (utf8_len l) st)
     <= V2.total_overhead st + utf8_len l.
Proof.
  pose proof (utf8_len_nonneg l) as Hlen.
  unfold V2.total_overhead. v2_command_branches U l st.
  - facts (V2_block_line U l (utf8_len l) st).
    rewrite !F by (unfold V2_basic; simpl; lia). unfold V2_block_delta. keys.
    pose proof (block_bound l).
    pose proof (tokens_bytes_nonneg (block_content l)).
    pose proof (gaps_bytes_nonneg (block_content l)).
    destruct (has_block_prefix l); lia.
  - facts (V2_header_line U g3 (utf8_len l) st).
    rewrite !F. keys. lia.
  - facts (V2_command_line U l (utf8_len l) st).
    rewrite !F by (unfold V2_basic; simpl; lia). unfold V2_command_delta. keys.
    pose proof (scan_bound l).
    pose proof (tokens_bytes_nonneg l).
    pose proof (gaps_bytes_nonneg l). lia.
  - facts (V2_other_line (utf8_len l) st).
    rewrite !F. keys. lia.
Qed.

Lemma V2_step_overhead n line st :
  V2.stats (V2.step U n line st) V2.total_size_b = V2.stats st V2.total_size_b
  /\ V2.total_overhead st <= V2.total_overhead (V2.step U n line st)
     <= V2.total_overhead st + utf8_len (rstrip_nl line).
Proof.
  pose proof (utf8_len_nonneg (rstrip_nl line)) as Hlen.
  unfold V2.step. cbv zeta.
  destruct (_ && _); [unfold V2.total_overhead; fields; keys; lia|]. fields.
  assert (Hcmd : forall st0,
    V2.stats st0 = V2.bump V2.total_lines 1 (V2.stats st) ->
    V2.stats (V2.command_step U (rstrip_nl line) (utf8_len (rstrip_nl line)) st0)
      V2.total_size_b = V2.stats st V2.total_size_b
    /\ V2.total_overhead st
       <= V2.total_overhead
            (V2.command_step U (rstrip_nl line) (utf8_len (rstrip_nl line)) st0)
       <= V2.total_overhead st + utf8_len (rstrip_nl line)).
  { intros st0 Hs.
    destruct (V2_command_step_overhead (rstrip_nl line) st0) as [H1 H2].
    assert (V2.total_overhead st0 = V2.total_overhead st) as H0
      by (unfold V2.total_overhead; rewrite Hs; keys; lia).
    rewrite H1, Hs. rewrite H0 in H2. keys. lia. }
  destruct (V2.parsing_definitions st); [|by apply Hcmd].
  destruct (def_regex U (rstrip_nl line)) as [[var content]|] eqn:Hdef.
  { facts (V2_definition_line U var content (utf8_len (rstrip_nl line))
             (V2.with_stats (V2.bump V2.total_lines 1) st)).
    unfold V2.total_overhead. rewrite !F. keys.
    pose proof (def_line_cost U _ _ _ Hdef) as Hc. unfold definition_cost in Hc.
    pose proof (utf8_len_nonneg content). lia. }
  destruct (V2.def_regex_no_content U (rstrip_nl line)) as [var|] eqn:Hempty.
  { facts (V2_empty_definition_line var (utf8_len (rstrip_nl line))
             (V2.with_stats (V2.bump V2.total_lines 1) st)).
    unfold V2.total_overhead. rewrite !F. keys.
    pose proof (empty_def_line_cost U _ _ Hempty) as Hc.
    unfold definition_cost in Hc. simpl in Hc. lia. }
  by apply Hcmd.
Qed.

Lemma V1_loop_overhead lines : forall n st,
  V1.stats (V1.loop U n lines st) V1.total_size_b = V1.stats st V1.total_size_b
  /\ V1.total_overhead st <= V1.total_overhead (V1.loop U n lines st)
     <= V1.total_overhead st + Zsum (map utf8_len lines).
Proof.
  induction lines as [|line lines IH]; intros n st; simpl; [lia|].
  destruct (IH (S n) (V1.step U n line st)) as [I1 I2].
  destruct (V1_step_overhead n line st) as [H1 H2].
  pose proof (utf8_len_rstrip_nl line). split; [congruence | lia].
Qed.

Lemma V2_loop_overhead lines : forall n st,
  V2.stats (V2.loop U n lines st) V2.total_size_b = V2.stats st V2.total_size_b
  /\ V2.total_overhead st <= V2.total_overhead (V2.loop U n lines st)
     <= V2.total_overhead st + Zsum (map utf8_len lines).
Proof.
  induction lines as [|line lines IH]; intros n st; simpl; [lia|].
  destruct (IH (S n) (V2.step U n line st)) as [I1 I2].
  destruct (V2_step_overhead n line st) as [H1 H2].
  pose proof (utf8_len_rstrip_nl line). split; [congruence | lia].
Qed.

Lemma percent_bounds a b :
  0 < b -> 0 <= a <= b ->
  QArith_base.Qle (QArith_base.inject_Z 0) (percent a b)
  /\ QArith_base.Qle (percent a b) (QArith_base.inject_Z 100).
Proof.
  intros Hb Ha. unfold percent, QArith_base.Qle, QArith_base.Qmult,
    QArith_base.Qdiv, QArith_base.Qinv, QArith_base.inject_Z.
  destruct b as [|b|b]; try lia. simpl. split; nia.
Qed.

(** C6: when the size reported for a non-empty file is the sum of the encoded
    sizes of its lines, terminators included, the total syntax overhead of
    either analyzer lies between 0 and that size, and the overhead percentage
    is reported and lies between 0 and 100. *)
Theorem overhead_within_file size lines :
  size = Zsum (map utf8_len lines) ->
  0 < size ->
  (0 <= V1.total_overhead (V1.analyze_lines U size lines)
     <= V1.stats (V1.analyze_lines U size lines) V1.total_size_b
   /\ exists p, V1.overhead_percent (V1.analyze_lines U size lines) = Some p
        /\ QArith_base.Qle (QArith_base.inject_Z 0) p
        /\ QArith_base.Qle p (QArith_base.inject_Z 100))
  /\ (0 <= V2.total_overhead (V2.analyze_lines U size lines)
       <= V2.stats (V2.analyze_lines U size lines) V2.total_size_b
     /\ exists p, V2.overhead_percent (V2.analyze_lines U size lines) = Some p
          /\ QArith_base.Qle (QArith_base.inject_Z 0) p
          /\ QArith_base.Qle p (QArith_base.inject_Z 100)).
Proof.
  intros Hsize Hpos. split.
  - unfold V1.analyze_lines, V1.overhead_percent.
    destruct (V1_loop_overhead lines 0 (V1.init size)) as [H1 H2].
    rewrite H1. change (V1.stats (V1.init size) V1.total_size_b) with size.
    change (V1.total_overhead (V1.init size)) with 0 in H2.
    split; [lia|]. apply Z.ltb_lt in Hpos as Hlt. rewrite Hlt.
    eexists. split; [done|]. apply percent_bounds; lia.
  - unfold V2.analyze_lines, V2.overhead_percent.
    destruct (V2_loop_overhead lines 0 (V2.init size)) as [H1 H2].
    rewrite H1. change (V2.stats (V2.init size) V2.total_size_b) with size.
    change (V2.total_overhead (V2.init size)) with 0 in H2.
    split; [lia|]. apply Z.ltb_lt in Hpos as Hlt. rewrite Hlt.
    eexists. split; [done|]. apply percent_bounds; lia.
Qed.

End Overhead.

Lemma overhead_within_file_witness :
  0 <= V2.total_overhead
         (V2.analyze_lines ascii_only 21 (readlines scenario_A)) <= 21
  /\ 0 <= V1.total_overhead
            (V1.analyze_lines ascii_only 21 (readlines scenario_A)) <= 21.
Proof.
  destruct (overhead_within_file ascii_only 21 (readlines scenario_A)
              eq_refl eq_refl) as [[H1 _] [H2 _]].
  split; [exact H2 | exact H1].
Defined.

(** ** More on Base58 *)

Lemma decodeBase58_nonempty c s :
  decodeBase58 (PyStr (c :: s))
  = if forallb in_alphabet (c :: s) then base58_value (c :: s) else -1.
Proof.
  unfold decodeBase58, base58_value.
  change (negb (truthy (PyStr (c :: s))) || negb (isinstance_str (PyStr (c :: s))))
    with false. cbv iota.
  change 1 with (58 ^ 0).
  rewrite (decode_loop_spec (rev (c :: s)) 0 0) by lia.
  rewrite forallb_rev. destruct (forallb in_alphabet (c :: s)); [lia|done].
Qed.

(** What a string that decodes is: not empty, and over the alphabet. *)
Lemma decodeBase58_valid s :
  decodeBase58 (PyStr s) <> -1 <->
  s <> [] /\ forallb in_alphabet s = true.
Proof.
  destruct s as [|c s]; [by split; [|intros [? _]]|].
  rewrite decodeBase58_nonempty.
  destruct (forallb in_alphabet (c :: s)) eqn:E; [|by split; [|intros [_ ?]]].
  split; [done|]. intros _.
  pose proof (positional_sum_nonneg (rev (c :: s)) 0 ltac:(lia)).
  unfold base58_value. lia.
Qed.

Lemma decodeBase58_value s :
  s <> [] -> forallb in_alphabet s = true ->
  decodeBase58 (PyStr s) = base58_value s.
Proof.
  destruct s as [|c s]; [done|]. intros _ H.
  by rewrite decodeBase58_nonempty, H.
Qed.

Lemma positional_sum_shift chars : forall position,
  0 <= position ->
  positional_sum chars (position + 1) = 58 * positional_sum chars position.
Proof.
  induction chars as [|c rest IH]; intros position Hp; simpl; [lia|].
  rewrite IH by lia. rewrite Z.pow_add_r, Z.pow_1_r by lia. lia.
Qed.

Lemma positional_sum_scale chars : forall position,
  0 <= position ->
  positional_sum chars position = 58 ^ position * positional_sum chars 0.
Proof.
  intros position Hp. pattern position.
  apply natlike_ind; [lia| |done].
  intros p Hp0 IH. unfold Z.succ.
  rewrite positional_sum_shift, IH, Z.pow_add_r, Z.pow_1_r by lia. lia.
Qed.

Lemma positional_sum_app l1 l2 : forall position,
  0 <= position ->
  positional_sum (l1 ++ l2) position
  = positional_sum l1 position + positional_sum l2 (position + len l1).
Proof.
  unfold len. induction l1 as [|c l1 IH]; intros position Hp; simpl.
  - by rewrite Z.add_0_r.
  - rewrite IH by lia.
    replace (position + 1 + Z.of_nat (length l1))
      with (position + Z.of_nat (S (length l1))) by lia.
    lia.
Qed.

Lemma base58_value_app s1 s2 :
  base58_value (s1 ++ s2) = base58_value s1 * 58 ^ len s2 + base58_value s2.
Proof.
  unfold base58_value. rewrite rev_app_distr, positional_sum_app by lia.
  rewrite (positional_sum_scale (rev s1) (0 + len (rev s2)))
    by (unfold len; lia).
  unfold len. rewrite length_rev, Z.add_0_l. lia.
Qed.

Lemma base58_value_snoc s c :
  base58_value (s ++ [c]) = base58_value s * 58 + base58_index c.
Proof.
  rewrite base58_value_app.
  change (58 ^ len [c]) with 58.
  change (base58_value [c]) with (base58_index c * 1 + 0). lia.
Qed.

Lemma index_in_lt c alphabet i : index_in c alphabet = Some i -> i < len alphabet.
Proof.
  unfold len. revert i. induction alphabet as [|a rest IH]; simpl; intros i; [done|].
  destruct (c =? a)%N; [intros [= <-]; lia|].
  destruct (index_in c rest) as [j|]; [|done].
  intros [= <-]. specialize (IH j eq_refl). lia.
Qed.

Lemma base58_index_lt c : base58_index c < 58.
Proof.
  unfold base58_index.
  destruct (index_in c BASE58_ALPHABET) as [i|] eqn:E; [|lia].
  by apply index_in_lt in E.
Qed.

Lemma index_in_inj c d alphabet i :
  index_in c alphabet = Some i -> index_in d alphabet = Some i -> c = d.
Proof.
  revert i. induction alphabet as [|a rest IH]; simpl; intros i; [done|].
  destruct (N.eqb_spec c a) as [->|Hc], (N.eqb_spec d a) as [->|Hd].
  - done.
  - intros [= <-]. destruct (index_in d rest) as [j|] eqn:E; [|done].
    intros [= Hj]. apply index_in_nonneg in E. lia.
  - destruct (index_in c rest) as [j|] eqn:E; [|done].
    intros [= <-] [= Hj]. apply index_in_nonneg in E. lia.
  - destruct (index_in c rest) as [j|] eqn:Ec; [|done].
    destruct (index_in d rest) as [k|] eqn:Ed; [|done].
    intros [= <-] [= Hk]. apply (IH j); [done|]. f_equal. lia.
Qed.

Lemma base58_index_inj c d :
  in_alphabet c = true -> in_alphabet d = true ->
  base58_index c = base58_index d -> c = d.
Proof.
  unfold in_alphabet, base58_index.
  destruct (index_in c BASE58_ALPHABET) as [i|] eqn:Ec; [|done].
  destruct (index_in d BASE58_ALPHABET) as [j|] eqn:Ed; [|done].
  intros _ _ ->. by eapply index_in_inj.
Qed.

Lemma base58_value_nonneg s : 0 <= base58_value s.
Proof. apply positional_sum_nonneg. lia. Qed.

Lemma base58_value_lt s : base58_value s < 58 ^ len s.
Proof.
  induction s as [|c s IH] using rev_ind; [done|].
  rewrite base58_value_snoc. unfold len in *. rewrite length_app. simpl.
  replace (Z.of_nat (length s + 1)) with (Z.of_nat (length s) + 1) by lia.
  rewrite Z.pow_add_r by lia.
  pose proof (base58_index_lt c). pose proof (base58_index_nonneg c). lia.
Qed.

Lemma base58_value_inj s1 : forall s2,
  length s1 = length s2 ->
  forallb in_alphabet s1 = true -> forallb in_alphabet s2 = true ->
  base58_value s1 = base58_value s2 -> s1 = s2.
Proof.
  induction s1 as [|c1 s1 IH] using rev_ind; intros s2 Hlen H1 H2 Hv.
  - by destruct s2.
  - destruct s2 as [|c2 s2 _] using rev_ind;
      [rewrite length_app in Hlen; simpl in Hlen; lia|].
    rewrite !length_app in Hlen. simpl in Hlen.
    rewrite forallb_app in H1, H2. simpl in H1, H2.
    apply andb_true_iff in H1 as [H1 Hc1], H2 as [H2 Hc2].
    rewrite andb_true_r in Hc1, Hc2.
    rewrite !base58_value_snoc in Hv.
    pose proof (base58_index_lt c1). pose proof (base58_index_nonneg c1).
    pose proof (base58_index_lt c2). pose proof (base58_index_nonneg c2).
    assert (base58_index c1 = base58_index c2 /\ base58_value s1 = base58_value s2)
      as [Hi Hr] by lia.
    f_equal; [apply IH; [lia|done..] | f_equal; by apply base58_index_inj].
Qed.

(** X1: leading characters '1' (the digit zero of the alphabet) do not
    change the value of a string: [decodeBase58] returns the same for a
    non-empty string and for that string with any number of '1' put before
    it, and 0 for a string of '1' only.  So strings of different lengths
    decode to the same number. *)
Theorem decodeBase58_leading_ones :
  (forall (n : nat) (c : N) (s : list N),
     decodeBase58 (PyStr (replicate n ONE ++ c :: s))
     = decodeBase58 (PyStr (c :: s)))
  /\ (forall n : nat, decodeBase58 (PyStr (replicate (S n) ONE)) = 0).
Proof.
  assert (Hone : forall s, decodeBase58 (PyStr (ONE :: s)) =
            match s with [] => 0 | _ => decodeBase58 (PyStr s) end).
  { intros s. rewrite decodeBase58_nonempty.
    change (ONE :: s) with ([ONE] ++ s). rewrite base58_value_app.
    change (forallb in_alphabet ([ONE] ++ s)) with (forallb in_alphabet s).
    change (base58_value [ONE]) with 0.
    destruct s as [|c s]; [done|]. rewrite decodeBase58_nonempty.
    destruct (forallb in_alphabet (c :: s)); lia. }
  split.
  - intros n c s. induction n as [|n IH]; [done|]. simpl. rewrite Hone.
    destruct n; simpl in *; exact IH.
  - intros n. induction n as [|n IH]; [done|].
    change (replicate (S (S n)) ONE) with (ONE :: replicate (S n) ONE).
    rewrite Hone. exact IH.
Qed.

(** X2: decoding is positional.  When two strings decode (neither gives
    -1), their concatenation decodes to the value of the first, shifted by
    as many base-58 digits as the second has characters, plus the value of
    the second. *)
Theorem decodeBase58_app (s1 s2 : list N) :
  decodeBase58 (PyStr s1) <> -1 ->
  decodeBase58 (PyStr s2) <> -1 ->
  decodeBase58 (PyStr (s1 ++ s2))
  = decodeBase58 (PyStr s1) * 58 ^ len s2 + decodeBase58 (PyStr s2).
Proof.
  intros [Hne1 H1]%decodeBase58_valid [Hne2 H2]%decodeBase58_valid.
  rewrite !decodeBase58_value; try done.
  - apply base58_value_app.
  - by destruct s1.
  - by rewrite forallb_app, H1, H2.
Qed.

Lemma decodeBase58_app_witness :
  decodeBase58 (PyStr (py "2" ++ py "1z"))
  = decodeBase58 (PyStr (py "2")) * 58 ^ len (py "1z")
    + decodeBase58 (PyStr (py "1z")).
Proof.
  apply (decodeBase58_app (py "2") (py "1z")); vm_compute; discriminate.
Defined.

(** X3: a string of n characters that decodes has a value from 0 to
    58^n - 1, and among the strings of one length no two decode to the same
    number. *)
Theorem decodeBase58_fixed_length (s1 s2 : list N) :
  decodeBase58 (PyStr s1) <> -1 ->
  0 <= decodeBase58 (PyStr s1) < 58 ^ len s1
  /\ (length s1 = length s2 ->
      decodeBase58 (PyStr s1) = decodeBase58 (PyStr s2) -> s1 = s2).
Proof.
  intros Hd. pose proof Hd as [Hne1 H1]%decodeBase58_valid.
  split.
  - rewrite decodeBase58_value by done.
    split; [apply base58_value_nonneg | apply base58_value_lt].
  - intros Hlen Heq.
    assert (decodeBase58 (PyStr s2) <> -1) as [Hne2 H2]%decodeBase58_valid
      by congruence.
    rewrite !decodeBase58_value in Heq by done.
    by apply base58_value_inj.
Qed.

Lemma decodeBase58_fixed_length_witness :
  0 <= decodeBase58 (PyStr (py "zz")) < 58 ^ len (py "zz")
  /\ (length (py "zz") = length (py "zz") ->
      decodeBase58 (PyStr (py "zz")) = decodeBase58 (PyStr (py "zz")) ->
      py "zz" = py "zz").
Proof.
  apply (decodeBase58_fixed_length (py "zz") (py "zz")). vm_compute. discriminate.
Defined.

Lemma index_in_lookup alphabet : forall (i : nat) c,
  NoDup alphabet -> alphabet !! i = Some c ->
  index_in c alphabet = Some (Z.of_nat i).
Proof.
  induction alphabet as [|a rest IH]; intros i c Hnd Hi; [done|].
  apply NoDup_cons in Hnd as [Ha Hnd]. simpl.
  destruct i as [|i]; simpl in Hi.
  - injection Hi as ->. by rewrite N.eqb_refl.
  - destruct (N.eqb_spec c a) as [->|Hne].
    + exfalso. apply Ha. by eapply list_elem_of_lookup_2.
    + rewrite (IH i c Hnd Hi). f_equal. lia.
Qed.

Lemma base58_digit r :
  0 <= r < 58 -> exists c, in_alphabet c = true /\ base58_index c = r.
Proof.
  intros Hr.
  destruct (lookup_lt_is_Some_2 BASE58_ALPHABET (Z.to_nat r)) as [c Hc].
  { change (length BASE58_ALPHABET) with 58%nat. lia. }
  apply index_in_lookup in Hc; [|apply BASE58_ALPHABET_NoDup].
  exists c. unfold in_alphabet, base58_index. rewrite Hc. simpl.
  split; [done|lia].
Qed.

(** X4: every non-negative integer is the value of some string: the
    decoder can return any number from 0 on, and -1 only as the error
    value. *)
Theorem decodeBase58_onto :
  (forall n : Z, 0 <= n -> exists s : list N, decodeBase58 (PyStr s) = n)
  /\ (forall s : list N, -1 <= decodeBase58 (PyStr s)).
Proof.
  split.
  - intros n Hn. pattern n. apply Zlt_0_ind; [|exact Hn].
    clear n Hn. intros n IH Hn.
    destruct (base58_digit (n mod 58)) as (c & Hc & Hi);
      [apply Z.mod_pos_bound; lia|].
    destruct (Z_lt_ge_dec n 58) as [Hlt|Hge].
    + exists [c]. rewrite decodeBase58_value; [|done|by simpl; rewrite Hc].
      change (base58_value [c]) with (base58_index c * 1 + 0).
      rewrite Hi, Z.mod_small; lia.
    + destruct (IH (n / 58)) as [s Hs].
      { split; [apply Z.div_pos; lia | apply Z.div_lt; lia]. }
      assert (decodeBase58 (PyStr s) <> -1) as [Hne Hv]%decodeBase58_valid.
      { rewrite Hs. pose proof (Z.div_pos n 58). lia. }
      exists (s ++ [c]).
      rewrite decodeBase58_value;
        [|by destruct s|by rewrite forallb_app, Hv; simpl; rewrite Hc].
      rewrite base58_value_snoc, <- (decodeBase58_value s), Hs, Hi by done.
      pose proof (Z.div_mod n 58). lia.
  - intros s. destruct (decide (decodeBase58 (PyStr s) = -1)) as [->|Hd]; [lia|].
    apply decodeBase58_valid in Hd as [Hne Hv].
    rewrite decodeBase58_value by done. pose proof (base58_value_nonneg s). lia.
Qed.

Lemma decodeBase58_onto_witness :
  exists s : list N, decodeBase58 (PyStr s) = 58.
Proof. apply (proj1 decodeBase58_onto 58). lia. Defined.

(** ** The turns of the loop *)

Section Turns.
Context (U : unicode).

Lemma command_turn_cases b l :
  match command_turn U b l with
  | Marker | Defines | DefinesEmpty => False
  | _ => True
  end.
Proof. unfold command_turn. by repeat case_match. Qed.

Lemma V2_record_usage_efficiency st v k :
  V2_efficiency k ->
  V2.stats (V2.record_usage st v) k
  = V2.stats st k
    + usage_weight (V2.defined_vars st) (V2.full_line_vars st) k v.
Proof.
  unfold V2.record_usage, V2_efficiency, usage_weight, replaced_b. simpl.
  intros Hk.
  destruct (V2.defined_vars st !! v) as [content|] eqn:E; simpl.
  - rewrite (bool_decide_eq_true_2 (v ∈ dom (V2.defined_vars st)))
      by (apply elem_of_dom; eauto).
    case_bool_decide; destruct k; keys; simpl in Hk; lia.
  - rewrite (bool_decide_eq_false_2 (v ∈ dom (V2.defined_vars st)))
      by (by apply not_elem_of_dom).
    destruct k; keys; simpl in Hk; try lia; case_bool_decide; lia.
Qed.

Lemma V2_fold_usages_efficiency k usages : forall st,
  V2_efficiency k ->
  V2.stats (fold_left V2.record_usage usages st) k
  = V2.stats st k
    + Zsum (map (usage_weight (V2.defined_vars st) (V2.full_line_vars st) k)
                usages).
Proof.
  induction usages as [|v usages IH]; intros st Hk; simpl; [lia|].
  rewrite IH, V2_record_usage_efficiency by done.
  destruct (V2_record_usage_frame st v) as (-> & -> & _). lia.
Qed.

Lemma V2_scan_efficiency content st k :
  (12 <= V2.key_index k)%nat ->
  V2.stats (V2.scan U content st) k
  = V2.stats st k
    + Zsum (map (usage_weight (V2.defined_vars st) (V2.full_line_vars st) k)
                (tokens U content)).
Proof.
  intros Hk. unfold V2.scan.
  rewrite (fold_left_adds (fun st => V2.stats st k) (fun _ => 0))
    by (intros; destruct k; keys; simpl in Hk; lia).
  rewrite V2_fold_usages_efficiency by (unfold V2_efficiency; lia).
  rewrite Zsum_const_0. unfold tokens. lia.
Qed.

Lemma V2_block_line_efficiency l n st k :
  (12 <= V2.key_index k)%nat ->
  V2.stats (V2.block_line U l n st) k
  = V2.stats st k
    + Zsum (map (usage_weight (V2.defined_vars st) (V2.full_line_vars st) k)
                (tokens U l)).
Proof.
  intros Hk. rewrite <- (tokens_block_content U l).
  unfold V2.block_line, block_content.
  rewrite <- orb_assoc. fold (has_block_prefix l).
  destruct (has_block_prefix l); cbv zeta iota beta;
    (destruct (_ =? 0); fields; rewrite V2_scan_efficiency by done; fields;
     destruct k; keys; simpl in Hk; lia).
Qed.

Lemma V2_command_line_efficiency l n st k :
  (12 <= V2.key_index k)%nat ->
  V2.stats (V2.command_line U l n st) k
  = V2.stats st k
    + Zsum (map (usage_weight (V2.defined_vars st) (V2.full_line_vars st) k)
                (tokens U l)).
Proof.
  intros Hk. unfold V2.command_line. cbv zeta.
  rewrite V2_scan_efficiency by done. fields.
  destruct k; keys; simpl in Hk; lia.
Qed.

Lemma V1_step_turn n line st :
  (forall k, V1.stats (V1.step U n line st) k
     = V1.stats st k + V1_turn_delta U (V1_turn U n line st) (rstrip_nl line) k)
  /\ V1.compression_flag (V1.step U n line st)
     = match V1_turn U n line st with
       | Marker => true
       | _ => V1.compression_flag st
       end
  /\ V1.defined_vars (V1.step U n line st)
     = V1_defines U (V1_turn U n line st) (rstrip_nl line) (V1.defined_vars st).
Proof.
  unfold V1_turn, V1_defines, command_turn, is_marker.
  v1_branches U n line st; cbn [is_some].
  - fields. repeat split. intros k. unfold V1_turn_delta. destruct k; keys; lia.
  - facts (V1_block_line U (rstrip_nl line) (utf8_len (rstrip_nl line))
             (V1.with_stats (V1.bump V1.total_lines 1) st)).
    repeat split; try done. intros k. rewrite F.
    unfold V1_turn_delta. destruct k; keys; lia.
  - facts (V1_definition_line var content (utf8_len (rstrip_nl line))
             (V1.with_stats (V1.bump V1.total_lines 1) st)).
    repeat split; try done. intros k. rewrite F.
    unfold V1_turn_delta. destruct k; keys; lia.
  - facts (V1_header_line U g3 (utf8_len (rstrip_nl line))
             (V1.with_stats (V1.bump V1.total_lines 1) st)).
    repeat split; try done. intros k. rewrite F.
    unfold V1_turn_delta. destruct k; keys; lia.
  - facts (V1_command_line U (rstrip_nl line) (utf8_len (rstrip_nl line))
             (V1.with_stats (V1.bump V1.total_lines 1) st)).
    repeat split; try done. intros k. rewrite F.
    unfold V1_turn_delta. destruct k; keys; lia.
  - facts (V1_other_line (utf8_len (rstrip_nl line))
             (V1.with_stats (V1.bump V1.total_lines 1) st)).
    repeat split; try done. intros k. rewrite F.
    unfold V1_turn_delta. destruct k; keys; lia.
Qed.

Lemma V2_command_step_turn l st0 st :
  V2.stats st0 = V2.bump V2.total_lines 1 (V2.stats st) ->
  V2.in_block st0 = V2.in_block st ->
  V2.compression_flag st0 = V2.compression_flag st ->
  V2.defined_vars st0 = V2.defined_vars st ->
  V2.used_vars_count st0 = V2.used_vars_count st ->
  V2.full_line_vars st0 = V2.full_line_vars st ->
  V2.fragment_vars st0 = V2.fragment_vars st ->
  (forall k, V2_basic k ->
     V2.stats (V2.command_step U l (utf8_len l) st0) k
     = V2.stats st k + V2_turn_delta U (command_turn U (V2.in_block st) l) l k)
  /\ V2.compression_flag (V2.command_step U l (utf8_len l) st0)
     = V2.compression_flag st
  /\ V2.defined_vars (V2.command_step U l (utf8_len l) st0) = V2.defined_vars st
  /\ V2.parsing_definitions (V2.command_step U l (utf8_len l) st0)
     = V2.parsing_definitions st0
  /\ V2.used_vars_count (V2.command_step U l (utf8_len l) st0)
     = turn_uses U (command_turn U (V2.in_block st) l) l (V2.used_vars_count st)
  /\ V2.full_line_vars (V2.command_step U l (utf8_len l) st0)
     = V2.full_line_vars st
  /\ V2.fragment_vars (V2.command_step U l (utf8_len l) st0)
     = V2.fragment_vars st
  /\ (forall k, (12 <= V2.key_index k)%nat ->
        V2.stats (V2.command_step U l (utf8_len l) st0) k
        = V2.stats st k
          + V2_efficiency_delta U (command_turn U (V2.in_block st) l) l
              (V2.defined_vars st) (V2.full_line_vars st) k).
Proof.
  intros Hs Hb Hf Hd Hu Hfull Hfrag. unfold command_turn. rewrite <- Hb.
  assert (Hhigh : forall k, (12 <= V2.key_index k)%nat ->
            V2.stats st0 k = V2.stats st k)
    by (intros k Hk; rewrite Hs; destruct k; keys; simpl in Hk; lia).
  v2_command_branches U l st0; cbn [is_some turn_uses V2_efficiency_delta].
  - facts (V2_block_line U l (utf8_len l) st0).
    rewrite tokens_block_content in F7.
    repeat split; try congruence.
    + intros k Hk. rewrite F, Hs by done.
      unfold V2_turn_delta. destruct k; keys; lia.
    + intros k Hk. rewrite V2_block_line_efficiency, Hhigh, Hd, Hfull by done.
      done.
  - facts (V2_header_line U g3 (utf8_len l) st0).
    repeat split; try congruence.
    + intros k Hk. rewrite F, Hs.
      unfold V2_turn_delta. destruct k; keys; lia.
    + intros k Hk. rewrite F, Hhigh by done. destruct k; simpl in *; lia.
  - facts (V2_command_line U l (utf8_len l) st0).
    repeat split; try congruence.
    + intros k Hk. rewrite F, Hs by done.
      unfold V2_turn_delta. destruct k; keys; lia.
    + intros k Hk. rewrite V2_command_line_efficiency, Hhigh, Hd, Hfull by done.
      done.
  - facts (V2_other_line (utf8_len l) st0).
    repeat split; try congruence.
    + intros k Hk. rewrite F, Hs.
      unfold V2_turn_delta. destruct k; keys; lia.
    + intros k Hk. rewrite F, Hhigh by done. destruct k; simpl in *; lia.
Qed.

Lemma V2_step_turn n line st :
  (forall k, V2_basic k ->
     V2.stats (V2.step U n line st) k
     = V2.stats st k + V2_turn_delta U (V2_turn U n line st) (rstrip_nl line) k)
  /\ V2.compression_flag (V2.step U n line st)
     = match V2_turn U n line st with
       | Marker => true
       | _ => V2.compression_flag st
       end
  /\ V2.defined_vars (V2.step U n line st)
     = V2_defines U (V2_turn U n line st) (rstrip_nl line) (V2.defined_vars st)
  /\ V2.parsing_definitions (V2.step U n line st)
     = match V2_turn U n line st with
       | Marker | Defines | DefinesEmpty => V2.parsing_definitions st
       | _ => false
       end
  /\ V2.used_vars_count (V2.step U n line st)
     = turn_uses U (V2_turn U n line st) (rstrip_nl line) (V2.used_vars_count st)
  /\ (V2.full_line_vars (V2.step U n line st),
      V2.fragment_vars (V2.step U n line st))
     = V2_buckets U (V2_turn U n line st) (rstrip_nl line)
         (V2.full_line_vars st, V2.fragment_vars st)
  /\ (forall k, (12 <= V2.key_index k)%nat ->
        V2.stats (V2.step U n line st) k
        = V2.stats st k
          + V2_efficiency_delta U (V2_turn U n line st) (rstrip_nl line)
              (V2.defined_vars st) (V2.full_line_vars st) k).
Proof.
  unfold V2_turn, V2_defines, V2_buckets, is_marker, V2.step. cbv zeta.
  destruct ((n =? 0)%nat && bool_decide (rstrip_nl line = [TILDE])).
  { fields. repeat split.
    - intros k _. unfold V2_turn_delta. destruct k; keys; lia.
    - intros k Hk. destruct k; keys; simpl in Hk; lia. }
  cbn [V2.parsing_definitions V2.with_stats].
  set (l := rstrip_nl line).
  assert (Hcmd : forall st0,
    V2.stats st0 = V2.bump V2.total_lines 1 (V2.stats st) ->
    V2.in_block st0 = V2.in_block st ->
    V2.compression_flag st0 = V2.compression_flag st ->
    V2.defined_vars st0 = V2.defined_vars st ->
    V2.used_vars_count st0 = V2.used_vars_count st ->
    V2.full_line_vars st0 = V2.full_line_vars st ->
    V2.fragment_vars st0 = V2.fragment_vars st ->
    V2.parsing_definitions st0 = false ->
    (forall k, V2_basic k ->
       V2.stats (V2.command_step U l (utf8_len l) st0) k
       = V2.stats st k + V2_turn_delta U (command_turn U (V2.in_block st) l) l k)
    /\ V2.compression_flag (V2.command_step U l (utf8_len l) st0)
       = match command_turn U (V2.in_block st) l with
         | Marker => true
         | _ => V2.compression_flag st
         end
    /\ V2.defined_vars (V2.command_step U l (utf8_len l) st0)
       = match command_turn U (V2.in_block st) l with
         | Defines =>
             match def_regex U l with
             | Some (var, content) => <[var := content]> (V2.defined_vars st)
             | None => V2.defined_vars st
             end
         | DefinesEmpty =>
             match V2.def_regex_no_content U l with
             | Some var => <[var := []]> (V2.defined_vars st)
             | None => V2.defined_vars st
             end
         | _ => V2.defined_vars st
         end
    /\ V2.parsing_definitions (V2.command_step U l (utf8_len l) st0)
       = match command_turn U (V2.in_block st) l with
         | Marker | Defines | DefinesEmpty => V2.parsing_definitions st
         | _ => false
         end
    /\ V2.used_vars_count (V2.command_step U l (utf8_len l) st0)
       = turn_uses U (command_turn U (V2.in_block st) l) l (V2.used_vars_count st)
    /\ (V2.full_line_vars (V2.command_step U l (utf8_len l) st0),
        V2.fragment_vars (V2.command_step U l (utf8_len l) st0))
       = match command_turn U (V2.in_block st) l with
         | Defines =>
             match def_regex U l with
             | Some (var, content) =>
                 if (5 <? len content)
                    && is_some (V2.full_line_heuristic_regex U content)
                 then ({[ var ]} ∪ fst (V2.full_line_vars st, V2.fragment_vars st),
                       snd (V2.full_line_vars st, V2.fragment_vars st))
                 else (fst (V2.full_line_vars st, V2.fragment_vars st),
                       {[ var ]} ∪ snd (V2.full_line_vars st, V2.fragment_vars st))
             | None => (V2.full_line_vars st, V2.fragment_vars st)
             end
         | DefinesEmpty =>
             match V2.def_regex_no_content U l with
             | Some var =>
                 (fst (V2.full_line_vars st, V2.fragment_vars st),
                  {[ var ]} ∪ snd (V2.full_line_vars st, V2.fragment_vars st))
             | None => (V2.full_line_vars st, V2.fragment_vars st)
             end
         | _ => (V2.full_line_vars st, V2.fragment_vars st)
         end
    /\ (forall k, (12 <= V2.key_index k)%nat ->
          V2.stats (V2.command_step U l (utf8_len l) st0) k
          = V2.stats st k
            + V2_efficiency_delta U (command_turn U (V2.in_block st) l) l
                (V2.defined_vars st) (V2.full_line_vars st) k)).
  { intros st0 Hs Hb Hf Hd Hu Hfull Hfrag Hp.
    destruct (V2_command_step_turn l st0 st Hs Hb Hf Hd Hu Hfull Hfrag)
      as (H1 & H2 & H3 & H4 & H5 & H6 & H7 & H8).
    rewrite H2, H3, H4, H5, H6, H7, Hp. split; [done|].
    pose proof (command_turn_cases (V2.in_block st) l) as Hc.
    repeat split; try done; by destruct (command_turn U (V2.in_block st) l). }
  destruct (V2.parsing_definitions st) eqn:Hp; [|by apply Hcmd].
  destruct (def_regex U l) as [[var content]|] eqn:Hdef; cbn [is_some].
  { facts (V2_definition_line U var content (utf8_len l)
             (V2.with_stats (V2.bump V2.total_lines 1) st)).
    rewrite F1, F2. cbn [fst snd turn_uses V2_efficiency_delta].
    repeat split; try congruence.
    - intros k _. rewrite F.
      unfold V2_turn_delta. destruct k; keys; lia.
    - by destruct (_ && _).
    - intros k Hk. rewrite F. destruct k; keys; simpl in Hk; lia. }
  destruct (V2.def_regex_no_content U l) as [var|] eqn:Hempty; cbn [is_some].
  { facts (V2_empty_definition_line var (utf8_len l)
             (V2.with_stats (V2.bump V2.total_lines 1) st)).
    rewrite F1, F2. cbn [fst snd turn_uses V2_efficiency_delta].
    repeat split; try congruence.
    - intros k _. rewrite F.
      unfold V2_turn_delta. destruct k; keys; lia.
    - intros k Hk. rewrite F. destruct k; keys; simpl in Hk; lia. }
  by apply Hcmd.
Qed.

End Turns.

(** ** The tallies of the general statistics *)



Section Accounting.
Context (U : unicode).

Lemma V1_turn_spec n line st :
  match V1_turn U n line st with
  | Marker => n = 0%nat /\ rstrip_nl line = [TILDE]
  | Defines => exists var content,
      def_regex U (rstrip_nl line) = Some (var, content)
  | DefinesEmpty => False
  | _ => is_marker n line = false
  end.
Proof.
  unfold V1_turn, is_marker.
  destruct (Nat.eqb_spec n 0) as [->|Hn]; cbn [andb].
  - case_bool_decide as Hl; [done|].
    destruct (V1.in_block st); [done|].
    destruct (def_regex U (rstrip_nl line)) as [[var content]|]; cbn [is_some];
      [by eexists _, _|].
    pose proof (command_turn_cases U false (rstrip_nl line)). by case_match.
  - destruct (V1.in_block st); [done|].
    destruct (def_regex U (rstrip_nl line)) as [[var content]|]; cbn [is_some];
      [by eexists _, _|].
    pose proof (command_turn_cases U false (rstrip_nl line)). by case_match.
Qed.

Lemma V2_turn_spec n line st :
  match V2_turn U n line st with
  | Marker => n = 0%nat /\ rstrip_nl line = [TILDE]
  | Defines => V2.parsing_definitions st = true /\ exists var content,
      def_regex U (rstrip_nl line) = Some (var, content)
  | DefinesEmpty => V2.parsing_definitions st = true
      /\ def_regex U (rstrip_nl line) = None
      /\ exists var, V2.def_regex_no_content U (rstrip_nl line) = Some var
  | _ => is_marker n line = false
  end.
Proof.
  unfold V2_turn, is_marker.
  pose proof (command_turn_cases U (V2.in_block st) (rstrip_nl line)) as Hc.
  destruct (Nat.eqb_spec n 0) as [->|Hn]; cbn [andb].
  - case_bool_decide as Hl; [done|].
    destruct (V2.parsing_definitions st); [|by case_match].
    destruct (def_regex U (rstrip_nl line)) as [[var content]|]; cbn [is_some];
      [by split; [|eexists _, _]|].
    destruct (V2.def_regex_no_content U (rstrip_nl line)) as [var|]; cbn [is_some];
      [by repeat split; eexists|].
    by case_match.
  - destruct (V2.parsing_definitions st); [|by case_match].
    destruct (def_regex U (rstrip_nl line)) as [[var content]|]; cbn [is_some];
      [by split; [|eexists _, _]|].
    destruct (V2.def_regex_no_content U (rstrip_nl line)) as [var|]; cbn [is_some];
      [by repeat split; eexists|].
    by case_match.
Qed.

Lemma def_line_min line var content :
  def_regex U line = Some (var, content) -> 3 <= utf8_len line.
Proof.
  intros (id & sp & -> & _ & Hne & _)%def_regex_inv.
  simpl. rewrite utf8_len_app. simpl. change (utf8_len_chr AT) with 1.
  destruct id as [|c id]; [done|]. simpl.
  pose proof (utf8_len_chr_pos c). pose proof (utf8_len_chr_pos sp).
  pose proof (utf8_len_nonneg id). pose proof (utf8_len_nonneg content). lia.
Qed.

Lemma empty_def_line_min line var :
  V2.def_regex_no_content U line = Some var -> 2 <= utf8_len line.
Proof.
  intros H%empty_def_line_cost. unfold definition_cost in H. simpl in H. lia.
Qed.

Lemma size_dom_insert (defined : gmap (list N) (list N)) var content :
  Z.of_nat (size (dom (<[var := content]> defined)))
  <= Z.of_nat (size (dom defined)) + 1.
Proof.
  rewrite dom_insert_L, size_union_alt, size_singleton.
  assert (dom defined ∖ {[var]} ⊆ dom defined) as Hsub
    by (intros v [Hv _]%elem_of_difference; exact Hv).
  apply subseteq_size in Hsub. lia.
Qed.


Lemma V1_step_tally n line st :
  (n = 0%nat -> V1.compression_flag st = false) ->
  V1_tally st (V1.step U n line st) 1 (utf8_len (rstrip_nl line))
  /\ V1.compression_flag (V1.step U n line st)
     = V1.compression_flag st || is_marker n line.
Proof.
  intros Hflag.
  destruct (V1_step_turn U n line st) as (Hs & Hf & Hd).
  pose proof (V1_turn_spec n line st) as Ht.
  pose proof (utf8_len_nonneg (rstrip_nl line)) as Hlen.
  unfold V1_tally. rewrite !Hs, Hf, Hd. unfold V1_turn_delta, V1_defines.
  destruct (V1_turn U n line st); try done.
  - (* the marker *)
    destruct Ht as [-> Hl]. rewrite Hflag, Hl by done.
    unfold is_marker. rewrite Hl, bool_decide_eq_true_2 by done.
    change (utf8_len [TILDE]) with 1. simpl. repeat split; lia.
  - (* a definition *)
    destruct Ht as (var & content & Hdef). rewrite Hdef.
    pose proof (def_line_min _ _ _ Hdef).
    pose proof (size_dom_insert (V1.defined_vars st) var content).
    assert (is_marker n line = false) as ->.
    { unfold is_marker. destruct (n =? 0)%nat; [|done].
      rewrite bool_decide_eq_false_2; [done|]. intros Hl. by rewrite Hl in Hdef. }
    rewrite orb_false_r. simpl. repeat split; lia.
  - rewrite Ht, orb_false_r. unfold V1_block_delta.
    simpl. repeat split; lia.
  - rewrite Ht, orb_false_r. simpl. repeat split; lia.
  - rewrite Ht, orb_false_r. unfold V1_command_delta. simpl. repeat split; lia.
  - rewrite Ht, orb_false_r. simpl. repeat split; lia.
Qed.

Lemma V2_step_tally n line st :
  (n = 0%nat -> V2.compression_flag st = false) ->
  V2_tally st (V2.step U n line st) 1 (utf8_len (rstrip_nl line))
  /\ V2.compression_flag (V2.step U n line st)
     = V2.compression_flag st || is_marker n line.
Proof.
  intros Hflag.
  destruct (V2_step_turn U n line st) as (Hs & Hf & Hd & _).
  pose proof (V2_turn_spec n line st) as Ht.
  pose proof (utf8_len_nonneg (rstrip_nl line)) as Hlen.
  unfold V2_tally. rewrite !Hs, Hf, Hd by (unfold V2_basic; simpl; lia).
  unfold V2_turn_delta, V2_defines.
  destruct (V2_turn U n line st).
  - (* the marker *)
    destruct Ht as [-> Hl]. rewrite Hflag, Hl by done.
    unfold is_marker. rewrite Hl, bool_decide_eq_true_2 by done.
    change (utf8_len [TILDE]) with 1. simpl. repeat split; lia.
  - (* a definition *)
    destruct Ht as (_ & var & content & Hdef). rewrite Hdef.
    pose proof (def_line_min _ _ _ Hdef).
    pose proof (size_dom_insert (V2.defined_vars st) var content).
    assert (is_marker n line = false) as ->.
    { unfold is_marker. destruct (n =? 0)%nat; [|done].
      rewrite bool_decide_eq_false_2; [done|]. intros Hl. by rewrite Hl in Hdef. }
    rewrite orb_false_r. simpl. repeat split; lia.
  - (* a definition without content *)
    destruct Ht as (_ & _ & var & Hdef). rewrite Hdef.
    pose proof (empty_def_line_min _ _ Hdef).
    pose proof (size_dom_insert (V2.defined_vars st) var []).
    assert (is_marker n line = false) as ->.
    { unfold is_marker. destruct (n =? 0)%nat; [|done].
      rewrite bool_decide_eq_false_2; [done|]. intros Hl. by rewrite Hl in Hdef. }
    rewrite orb_false_r. simpl. repeat split; lia.
  - rewrite Ht, orb_false_r. unfold V2_block_delta.
    simpl. repeat split; lia.
  - rewrite Ht, orb_false_r. simpl. repeat split; lia.
  - rewrite Ht, orb_false_r. unfold V2_command_delta. simpl. repeat split; lia.
  - rewrite Ht, orb_false_r. simpl. repeat split; lia.
Qed.

Lemma V1_tally_trans st1 st2 st3 a b c d :
  V1_tally st1 st2 a b -> V1_tally st2 st3 c d -> V1_tally st1 st3 (a + c) (b + d).
Proof. unfold V1_tally. intros H1 H2. repeat split; lia. Qed.

Lemma V2_tally_trans st1 st2 st3 a b c d :
  V2_tally st1 st2 a b -> V2_tally st2 st3 c d -> V2_tally st1 st3 (a + c) (b + d).
Proof. unfold V2_tally. intros H1 H2. repeat split; lia. Qed.

Lemma V1_loop_tally lines : forall n st,
  (n = 0%nat -> V1.compression_flag st = false) ->
  V1_tally st (V1.loop U n lines st) (Z.of_nat (length lines))
    (stripped_bytes lines)
  /\ V1.compression_flag (V1.loop U n lines st)
     = V1.compression_flag st || (n =? 0)%nat && starts_with_marker lines.
Proof.
  induction lines as [|line lines IH]; intros n st Hflag.
  - cbn [V1.loop starts_with_marker]. rewrite andb_false_r, orb_false_r.
    split; [|done]. unfold V1_tally, stripped_bytes. simpl. repeat split; lia.
  - cbn [V1.loop]. destruct (V1_step_tally n line st Hflag) as [H1 F1].
    destruct (IH (S n) (V1.step U n line st) ltac:(done)) as [H2 F2].
    split.
    + replace (Z.of_nat (length (line :: lines)))
        with (1 + Z.of_nat (length lines)) by (simpl; lia).
      by eapply V1_tally_trans.
    + rewrite F2, F1. simpl. by rewrite orb_false_r.
Qed.

Lemma V2_loop_tally lines : forall n st,
  (n = 0%nat -> V2.compression_flag st = false) ->
  V2_tally st (V2.loop U n lines st) (Z.of_nat (length lines))
    (stripped_bytes lines)
  /\ V2.compression_flag (V2.loop U n lines st)
     = V2.compression_flag st || (n =? 0)%nat && starts_with_marker lines.
Proof.
  induction lines as [|line lines IH]; intros n st Hflag.
  - cbn [V2.loop starts_with_marker]. rewrite andb_false_r, orb_false_r.
    split; [|done]. unfold V2_tally, stripped_bytes. simpl. repeat split; lia.
  - cbn [V2.loop]. destruct (V2_step_tally n line st Hflag) as [H1 F1].
    destruct (IH (S n) (V2.step U n line st) ltac:(done)) as [H2 F2].
    split.
    + replace (Z.of_nat (length (line :: lines)))
        with (1 + Z.of_nat (length lines)) by (simpl; lia).
      by eapply V2_tally_trans.
    + rewrite F2, F1. simpl. by rewrite orb_false_r.
Qed.

Lemma V1_analyze_tally size lines :
  V1_tally (V1.init size) (V1.analyze_lines U size lines)
    (Z.of_nat (length lines)) (stripped_bytes lines)
  /\ V1.compression_flag (V1.analyze_lines U size lines)
     = starts_with_marker lines.
Proof. by apply V1_loop_tally. Qed.

Lemma V2_analyze_tally size lines :
  V2_tally (V2.init size) (V2.analyze_lines U size lines)
    (Z.of_nat (length lines)) (stripped_bytes lines)
  /\ V2.compression_flag (V2.analyze_lines U size lines)
     = starts_with_marker lines.
Proof. by apply V2_loop_tally. Qed.

Lemma stripped_bytes_nonneg lines : 0 <= stripped_bytes lines.
Proof.
  unfold stripped_bytes. induction lines as [|line lines IH]; simpl; [lia|].
  pose proof (utf8_len_nonneg (rstrip_nl line)). lia.
Qed.

Lemma stripped_bytes_le lines : stripped_bytes lines <= Zsum (map utf8_len lines).
Proof.
  unfold stripped_bytes. induction lines as [|line lines IH]; simpl; [lia|].
  pose proof (utf8_len_rstrip_nl line). lia.
Qed.

(** X5: every line of the file is counted once.  In both analyzers the
    count of lines is the number of lines read, and it is the sum of the
    counts of definition lines, command lines and other lines, plus one for
    the marker line when the compression flag is set; no count is
    negative. *)
Theorem lines_are_counted_once size lines :
  (V1.stats (V1.analyze_lines U size lines) V1.total_lines
     = Z.of_nat (length lines)
   /\ V1.stats (V1.analyze_lines U size lines) V1.total_lines
      = (if V1.compression_flag (V1.analyze_lines U size lines) then 1 else 0)
        + V1.stats (V1.analyze_lines U size lines) V1.definition_lines
        + V1.stats (V1.analyze_lines U size lines) V1.command_lines
        + V1.stats (V1.analyze_lines U size lines) V1.other_lines
   /\ 0 <= V1.stats (V1.analyze_lines U size lines) V1.definition_lines
   /\ 0 <= V1.stats (V1.analyze_lines U size lines) V1.command_lines
   /\ 0 <= V1.stats (V1.analyze_lines U size lines) V1.other_lines)
  /\ (V2.stats (V2.analyze_lines U size lines) V2.total_lines
        = Z.of_nat (length lines)
      /\ V2.stats (V2.analyze_lines U size lines) V2.total_lines
         = (if V2.compression_flag (V2.analyze_lines U size lines) then 1 else 0)
           + V2.stats (V2.analyze_lines U size lines) V2.definition_lines
           + V2.stats (V2.analyze_lines U size lines) V2.command_lines
           + V2.stats (V2.analyze_lines U size lines) V2.other_lines
      /\ 0 <= V2.stats (V2.analyze_lines U size lines) V2.definition_lines
      /\ 0 <= V2.stats (V2.analyze_lines U size lines) V2.command_lines
      /\ 0 <= V2.stats (V2.analyze_lines U size lines) V2.other_lines).
Proof.
  split.
  - destruct (V1_analyze_tally size lines) as [H _]. unfold V1_tally in H.
    revert H. fold (b2z (V1.compression_flag (V1.analyze_lines U size lines))).
    simpl. keys. intros H. repeat split; lia.
  - destruct (V2_analyze_tally size lines) as [H _]. unfold V2_tally in H.
    revert H. fold (b2z (V2.compression_flag (V2.analyze_lines U size lines))).
    simpl. keys. intros H. repeat split; lia.
Qed.

(** X6: the sizes of the three kinds of line add up to the size of the
    lines read.  In both analyzers the sizes of the definition lines, of the
    command lines and of the other lines, plus one byte for the marker line
    when the compression flag is set, are together the encoded size of all
    the lines without their terminators; no size is negative. *)
Theorem line_sizes_are_counted_once size lines :
  ((if V1.compression_flag (V1.analyze_lines U size lines) then 1 else 0)
   + V1.stats (V1.analyze_lines U size lines) V1.definition_size_b
   + V1.stats (V1.analyze_lines U size lines) V1.command_size_b
   + V1.stats (V1.analyze_lines U size lines) V1.other_size_b
   = stripped_bytes lines
   /\ 0 <= V1.stats (V1.analyze_lines U size lines) V1.definition_size_b
   /\ 0 <= V1.stats (V1.analyze_lines U size lines) V1.command_size_b
   /\ 0 <= V1.stats (V1.analyze_lines U size lines) V1.other_size_b)
  /\ ((if V2.compression_flag (V2.analyze_lines U size lines) then 1 else 0)
      + V2.stats (V2.analyze_lines U size lines) V2.definition_size_b
      + V2.stats (V2.analyze_lines U size lines) V2.command_size_b
      + V2.stats (V2.analyze_lines U size lines) V2.other_size_b
      = stripped_bytes lines
      /\ 0 <= V2.stats (V2.analyze_lines U size lines) V2.definition_size_b
      /\ 0 <= V2.stats (V2.analyze_lines U size lines) V2.command_size_b
      /\ 0 <= V2.stats (V2.analyze_lines U size lines) V2.other_size_b)
  /\ 0 <= stripped_bytes lines <= Zsum (map utf8_len lines).
Proof.
  split; [|split].
  - destruct (V1_analyze_tally size lines) as [H _]. unfold V1_tally in H.
    revert H. fold (b2z (V1.compression_flag (V1.analyze_lines U size lines))).
    simpl. keys. intros H. repeat split; lia.
  - destruct (V2_analyze_tally size lines) as [H _]. unfold V2_tally in H.
    revert H. fold (b2z (V2.compression_flag (V2.analyze_lines U size lines))).
    simpl. keys. intros H. repeat split; lia.
  - split; [apply stripped_bytes_nonneg | apply stripped_bytes_le].
Qed.

(** X7: the compression flag says whether the file starts with the marker.
    In both analyzers the flag is set exactly when the first line, stripped
    of its terminator, is "~"; a line "~" anywhere else does not set it,
    and the file size recorded before the loop is never changed. *)
Theorem flag_is_first_line size lines :
  V1.compression_flag (V1.analyze_lines U size lines) = starts_with_marker lines
  /\ V2.compression_flag (V2.analyze_lines U size lines)
     = starts_with_marker lines
  /\ V1.stats (V1.analyze_lines U size lines) V1.total_size_b = size
  /\ V2.stats (V2.analyze_lines U size lines) V2.total_size_b = size.
Proof.
  destruct (V1_analyze_tally size lines) as [(_ & H1 & _) F1].
  destruct (V2_analyze_tally size lines) as [(_ & H2 & _) F2].
  repeat split; try done.
Qed.

(** X8: definitions in numbers.  In both analyzers H2 is the count of
    definition lines (one sigil each), and the table of definitions holds
    at most as many ids as there are definition lines.  A definition line
    of v1 has at least 3 bytes (sigil, id, separator), one of v2 at least 2
    (a definition without content); so the average size v1 prints, when it
    prints one, is at least 3. *)
Theorem definitions_in_numbers file_size lines :
  (V1.stats (V1.analyze_lines U file_size lines) V1.definition_at_overhead_b
     = V1.stats (V1.analyze_lines U file_size lines) V1.definition_lines
   /\ Z.of_nat (size (dom (V1.defined_vars (V1.analyze_lines U file_size lines))))
      <= V1.stats (V1.analyze_lines U file_size lines) V1.definition_lines
   /\ 3 * V1.stats (V1.analyze_lines U file_size lines) V1.definition_lines
      <= V1.stats (V1.analyze_lines U file_size lines) V1.definition_size_b
   /\ match V1.avg_def_size (V1.analyze_lines U file_size lines) with
      | Some avg =>
          0 < V1.stats (V1.analyze_lines U file_size lines) V1.definition_lines
          /\ QArith_base.Qle (QArith_base.inject_Z 3) avg
      | None =>
          V1.stats (V1.analyze_lines U file_size lines) V1.definition_lines = 0
      end)
  /\ (V2.stats (V2.analyze_lines U file_size lines) V2.definition_at_overhead_b
        = V2.stats (V2.analyze_lines U file_size lines) V2.definition_lines
      /\ Z.of_nat (size (dom (V2.defined_vars (V2.analyze_lines U file_size lines))))
         <= V2.stats (V2.analyze_lines U file_size lines) V2.definition_lines
      /\ 2 * V2.stats (V2.analyze_lines U file_size lines) V2.definition_lines
         <= V2.stats (V2.analyze_lines U file_size lines) V2.definition_size_b).
Proof.
  split.
  - destruct (V1_analyze_tally file_size lines) as [H _]. unfold V1_tally in H.
    revert H. simpl. rewrite dom_empty_L, size_empty. keys. intros H.
    repeat split; try lia.
    unfold V1.avg_def_size.
    destruct (Z.ltb_spec 0 (V1.stats (V1.analyze_lines U file_size lines)
                              V1.definition_lines)) as [Hpos|Hle]; [|lia].
    split; [done|].
    unfold QArith_base.Qle, QArith_base.Qdiv, QArith_base.Qmult,
      QArith_base.Qinv, QArith_base.inject_Z.
    destruct (V1.stats (V1.analyze_lines U file_size lines) V1.definition_lines)
      as [|p|p] eqn:E; try lia.
    simpl. lia.
  - destruct (V2_analyze_tally file_size lines) as [H _]. unfold V2_tally in H.
    revert H. simpl. rewrite dom_empty_L, size_empty. keys. intros H.
    repeat split; lia.
Qed.

End Accounting.

(** ** The two analyzers side by side *)


Section SideBySide.
Context (U : unicode).

Lemma sigil_turn s : command_turn U false (AT :: s) = Other.
Proof.
  unfold command_turn. by rewrite sigil_not_header, sigil_not_command.
Qed.

(** The turn v1 takes, given the turn v2 takes on the same line. *)
Lemma turns_side_by_side n line st1 st2 :
  same_scan st1 st2 ->
  match V2_turn U n line st2 with
  | DefinesEmpty => V1_turn U n line st1 = Other
  | Other => V1_turn U n line st1 = Other \/ V1_turn U n line st1 = Defines
  | t => V1_turn U n line st1 = t
  end.
Proof.
  intros (Hb & _ & _ & _ & Hp). unfold V1_turn, V2_turn.
  destruct (is_marker n line); [done|]. rewrite Hb.
  pose proof (command_turn_cases U (V2.in_block st2) (rstrip_nl line)) as Hc.
  destruct (V2.parsing_definitions st2).
  - rewrite (Hp eq_refl) in *.
    destruct (def_regex U (rstrip_nl line)) as [[var content]|]; cbn [is_some];
      [done|].
    destruct (V2.def_regex_no_content U (rstrip_nl line)) as [var|] eqn:He;
      cbn [is_some].
    + apply def_regex_no_content_inv in He as (id & tail & -> & _).
      apply sigil_turn.
    + destruct (command_turn U false (rstrip_nl line)); try done; auto.
  - destruct (V2.in_block st2) eqn:Hb2; [done|].
    destruct (def_regex U (rstrip_nl line)) as [[var content]|] eqn:Hd;
      cbn [is_some].
    + apply def_regex_inv in Hd as (id & sp & -> & _).
      rewrite sigil_turn. auto.
    + destruct (command_turn U false (rstrip_nl line)); try done; auto.
Qed.

Lemma agree_step n line st1 st2 :
  same_scan st1 st2 -> agree st1 st2 ->
  agree (V1.step U n line st1) (V2.step U n line st2).
Proof.
  intros Hsame Hagree.
  destruct (V1_step_turn U n line st1) as (Hs1 & Hf1 & _).
  destruct (V2_step_turn U n line st2) as (Hs2 & Hf2 & _).
  pose proof (turns_side_by_side n line st1 st2 Hsame) as Ht.
  unfold agree in *. rewrite !Hs1, Hf1, !Hs2, Hf2 by (unfold V2_basic; simpl; lia).
  unfold V1_turn_delta, V2_turn_delta.
  destruct (V2_turn U n line st2); try destruct Ht as [Ht|Ht]; rewrite Ht;
    unfold V1_block_delta, V2_block_delta, V1_command_delta, V2_command_delta;
    simpl; repeat split; first [lia | tauto].
Qed.

Lemma agree_loop lines : forall n st1 st2,
  same_scan st1 st2 -> agree st1 st2 ->
  agree (V1.loop U n lines st1) (V2.loop U n lines st2).
Proof.
  induction lines as [|line lines IH]; intros n st1 st2 Hs Ha; simpl; [done|].
  apply IH; [by apply same_scan_step | by apply agree_step].
Qed.

Lemma same_scan_init size : same_scan (V1.init size) (V2.init size).
Proof. unfold same_scan. simpl. keys. repeat split; auto; lia. Qed.

Lemma agree_init size : agree (V1.init size) (V2.init size).
Proof. unfold agree. simpl. keys. repeat split; lia. Qed.

(** X9: on every file the two analyzers report the same general and
    command statistics: the same flag, count of lines and file size, the
    same count and size of command lines, the same H1 and H4 (and, by C8,
    the same usage table).  They may sort a line differently only between
    the definitions and the other lines, so the counts of these two kinds,
    and their sizes, agree when added. *)
Theorem analyzers_agree_on_commands size lines :
  V1.compression_flag (V1.analyze_lines U size lines)
  = V2.compression_flag (V2.analyze_lines U size lines)
  /\ V1.stats (V1.analyze_lines U size lines) V1.total_lines
     = V2.stats (V2.analyze_lines U size lines) V2.total_lines
  /\ V1.stats (V1.analyze_lines U size lines) V1.total_size_b
     = V2.stats (V2.analyze_lines U size lines) V2.total_size_b
  /\ V1.stats (V1.analyze_lines U size lines) V1.command_lines
     = V2.stats (V2.analyze_lines U size lines) V2.command_lines
  /\ V1.stats (V1.analyze_lines U size lines) V1.command_size_b
     = V2.stats (V2.analyze_lines U size lines) V2.command_size_b
  /\ V1.stats (V1.analyze_lines U size lines) V1.block_prefix_overhead_b
     = V2.stats (V2.analyze_lines U size lines) V2.block_prefix_overhead_b
  /\ V1.stats (V1.analyze_lines U size lines) V1.literal_gap_overhead_b
     = V2.stats (V2.analyze_lines U size lines) V2.literal_gap_overhead_b
  /\ V1.stats (V1.analyze_lines U size lines) V1.definition_lines
     + V1.stats (V1.analyze_lines U size lines) V1.other_lines
     = V2.stats (V2.analyze_lines U size lines) V2.definition_lines
       + V2.stats (V2.analyze_lines U size lines) V2.other_lines
  /\ V1.stats (V1.analyze_lines U size lines) V1.definition_size_b
     + V1.stats (V1.analyze_lines U size lines) V1.other_size_b
     = V2.stats (V2.analyze_lines U size lines) V2.definition_size_b
       + V2.stats (V2.analyze_lines U size lines) V2.other_size_b.
Proof.
  apply (agree_loop lines 0 _ _ (same_scan_init size) (agree_init size)).
Qed.

Lemma agree_on_definitions_step n line st1 st2 :
  V1_turn U n line st1 = V2_turn U n line st2 ->
  agree_on_definitions st1 st2 ->
  agree_on_definitions (V1.step U n line st1) (V2.step U n line st2).
Proof.
  intros Ht Hagree.
  destruct (V1_step_turn U n line st1) as (Hs1 & _ & Hd1).
  destruct (V2_step_turn U n line st2) as (Hs2 & _ & Hd2 & _).
  pose proof (V1_turn_spec U n line st1) as Hspec.
  unfold agree_on_definitions in *.
  rewrite !Hs1, Hd1, !Hs2, Hd2 by (unfold V2_basic; simpl; lia).
  rewrite Ht in *. unfold V1_turn_delta, V2_turn_delta, V1_defines, V2_defines.
  destruct Hagree as (-> & Hagree).
  destruct (V2_turn U n line st2); try done;
    unfold V1_block_delta, V2_block_delta, V1_command_delta, V2_command_delta;
    simpl; repeat split; try lia.
  all: by repeat case_match.
Qed.

(** A line of definition shape, and a line that is not a definition for
    either analyzer. *)
Lemma layout_definition_turn n line st1 st2 :
  same_scan st1 st2 -> V2.parsing_definitions st2 = true ->
  is_some (def_regex U (rstrip_nl line)) = true ->
  V1_turn U n line st1 = Defines /\ V2_turn U n line st2 = Defines.
Proof.
  intros (Hb & _ & _ & _ & Hp) Hparsing Hd. unfold V1_turn, V2_turn.
  assert (is_marker n line = false) as ->.
  { unfold is_marker. destruct (n =? 0)%nat; [|done].
    rewrite bool_decide_eq_false_2; [done|]. intros Hl. by rewrite Hl in Hd. }
  by rewrite Hb, (Hp Hparsing), Hparsing, Hd.
Qed.

Lemma layout_plain_turn n line st1 st2 :
  same_scan st1 st2 ->
  def_regex U (rstrip_nl line) = None ->
  V2.def_regex_no_content U (rstrip_nl line) = None ->
  V1_turn U n line st1 = V2_turn U n line st2.
Proof.
  intros (Hb & _) Hd He. unfold V1_turn, V2_turn.
  rewrite Hb, Hd, He. cbn [is_some].
  destruct (is_marker n line); [done|].
  unfold command_turn.
  by destruct (V2.parsing_definitions st2), (V2.in_block st2).
Qed.

Lemma layout_definitions defs : forall n st1 st2,
  same_scan st1 st2 -> V2.parsing_definitions st2 = true ->
  agree_on_definitions st1 st2 ->
  Forall (fun line => is_some (def_regex U (rstrip_nl line)) = true) defs ->
  same_scan (V1.loop U n defs st1) (V2.loop U n defs st2)
  /\ V2.parsing_definitions (V2.loop U n defs st2) = true
  /\ agree_on_definitions (V1.loop U n defs st1) (V2.loop U n defs st2).
Proof.
  induction defs as [|line defs IH]; intros n st1 st2 Hs Hp Ha Hall; [done|].
  apply Forall_cons in Hall as [Hline Hall]. cbn [V1.loop V2.loop].
  destruct (layout_definition_turn n line st1 st2 Hs Hp Hline) as [Ht1 Ht2].
  apply IH; [by apply same_scan_step| |apply agree_on_definitions_step|done].
  - destruct (V2_step_turn U n line st2) as (_ & _ & _ & -> & _). by rewrite Ht2.
  - congruence.
  - done.
Qed.

Lemma layout_plain cmds : forall n st1 st2,
  same_scan st1 st2 -> agree_on_definitions st1 st2 ->
  Forall (fun line => def_regex U (rstrip_nl line) = None
            /\ V2.def_regex_no_content U (rstrip_nl line) = None) cmds ->
  agree_on_definitions (V1.loop U n cmds st1) (V2.loop U n cmds st2).
Proof.
  induction cmds as [|line cmds IH]; intros n st1 st2 Hs Ha Hall; [done|].
  apply Forall_cons in Hall as [[Hd He] Hall]. cbn [V1.loop V2.loop].
  apply IH; [by apply same_scan_step| |done].
  apply agree_on_definitions_step; [by apply layout_plain_turn | done].
Qed.

Lemma V1_loop_app l1 : forall l2 n st,
  V1.loop U n (l1 ++ l2) st
  = V1.loop U (n + length l1) l2 (V1.loop U n l1 st).
Proof.
  induction l1 as [|line l1 IH]; intros l2 n st; simpl.
  - by rewrite Nat.add_0_r.
  - rewrite IH. f_equal. lia.
Qed.

Lemma V2_loop_app l1 : forall l2 n st,
  V2.loop U n (l1 ++ l2) st
  = V2.loop U (n + length l1) l2 (V2.loop U n l1 st).
Proof.
  induction l1 as [|line l1 IH]; intros l2 n st; simpl.
  - by rewrite Nat.add_0_r.
  - rewrite IH. f_equal. lia.
Qed.

Lemma agree_on_definitions_init size :
  agree_on_definitions (V1.init size) (V2.init size).
Proof. unfold agree_on_definitions. simpl. keys. repeat split; lia. Qed.

(** X10: on a file laid out as v2 expects, v2 reports what v1 reports.
    When the file is an optional marker line, then lines of the shape of a
    definition with content, then lines that are definitions for neither
    analyzer, both analyzers record the same definitions, and the same
    counts and sizes of definition lines and of other lines, the same H2,
    the same stray ids and the same dead weight (with X9: all the
    statistics both analyzers keep, H3 apart). *)
Theorem analyzers_agree_on_layout size (pre defs cmds : list (list N)) :
  (length pre <= 1)%nat ->
  Forall (fun line => rstrip_nl line = [TILDE]) pre ->
  Forall (fun line => is_some (def_regex U (rstrip_nl line)) = true) defs ->
  Forall (fun line => def_regex U (rstrip_nl line) = None
            /\ V2.def_regex_no_content U (rstrip_nl line) = None) cmds ->
  V1.defined_vars (V1.analyze_lines U size (pre ++ defs ++ cmds))
  = V2.defined_vars (V2.analyze_lines U size (pre ++ defs ++ cmds))
  /\ V1.stats (V1.analyze_lines U size (pre ++ defs ++ cmds)) V1.definition_lines
     = V2.stats (V2.analyze_lines U size (pre ++ defs ++ cmds)) V2.definition_lines
  /\ V1.stats (V1.analyze_lines U size (pre ++ defs ++ cmds)) V1.definition_size_b
     = V2.stats (V2.analyze_lines U size (pre ++ defs ++ cmds)) V2.definition_size_b
  /\ V1.stats (V1.analyze_lines U size (pre ++ defs ++ cmds))
       V1.definition_at_overhead_b
     = V2.stats (V2.analyze_lines U size (pre ++ defs ++ cmds))
         V2.definition_at_overhead_b
  /\ V1.stats (V1.analyze_lines U size (pre ++ defs ++ cmds)) V1.other_lines
     = V2.stats (V2.analyze_lines U size (pre ++ defs ++ cmds)) V2.other_lines
  /\ V1.stats (V1.analyze_lines U size (pre ++ defs ++ cmds)) V1.other_size_b
     = V2.stats (V2.analyze_lines U size (pre ++ defs ++ cmds)) V2.other_size_b
  /\ V1.unused_vars (V1.analyze_lines U size (pre ++ defs ++ cmds))
     = V2.unused_vars (V2.analyze_lines U size (pre ++ defs ++ cmds))
  /\ V1.unused_size_b (V1.analyze_lines U size (pre ++ defs ++ cmds))
     = V2.unused_size_b (V2.analyze_lines U size (pre ++ defs ++ cmds)).
Proof.
  intros Hlen Hpre Hdefs Hcmds.
  cut (agree_on_definitions (V1.analyze_lines U size (pre ++ defs ++ cmds))
                            (V2.analyze_lines U size (pre ++ defs ++ cmds))).
  { intros (Hd & H1 & H2 & H3 & H4 & H5).
    destruct (same_scan_loop U (pre ++ defs ++ cmds) 0 _ _ (same_scan_init size))
      as (_ & _ & Hu & _).
    fold (V1.analyze_lines U size (pre ++ defs ++ cmds)) in Hu.
    fold (V2.analyze_lines U size (pre ++ defs ++ cmds)) in Hu.
    assert (V1.unused_vars (V1.analyze_lines U size (pre ++ defs ++ cmds))
            = V2.unused_vars (V2.analyze_lines U size (pre ++ defs ++ cmds)))
      as Hunused by (unfold V1.unused_vars, V2.unused_vars; by rewrite Hd, Hu).
    repeat split; try done.
    unfold V1.unused_size_b, V2.unused_size_b. by rewrite Hunused, Hd. }
  unfold V1.analyze_lines, V2.analyze_lines.
  rewrite !V1_loop_app, !V2_loop_app.
  assert (same_scan (V1.loop U 0 pre (V1.init size))
                    (V2.loop U 0 pre (V2.init size))
          /\ V2.parsing_definitions (V2.loop U 0 pre (V2.init size)) = true
          /\ agree_on_definitions (V1.loop U 0 pre (V1.init size))
                                  (V2.loop U 0 pre (V2.init size)))
    as (Hs & Hp & Ha).
  { destruct pre as [|m [|m' pre]]; [| |simpl in Hlen; lia].
    - split; [apply same_scan_init|]. split; [done|].
      apply agree_on_definitions_init.
    - apply Forall_cons in Hpre as [Hm _]. cbn [V1.loop V2.loop].
      assert (V1_turn U 0 m (V1.init size) = Marker
              /\ V2_turn U 0 m (V2.init size) = Marker) as [Ht1 Ht2].
      { unfold V1_turn, V2_turn, is_marker.
        by rewrite Hm, bool_decide_eq_true_2. }
      split; [apply same_scan_step, same_scan_init|]. split.
      + destruct (V2_step_turn U 0 m (V2.init size)) as (_ & _ & _ & -> & _).
        by rewrite Ht2.
      + apply agree_on_definitions_step; [congruence|].
        apply agree_on_definitions_init. }
  destruct (layout_definitions defs (0 + length pre) _ _ Hs Hp Ha Hdefs)
    as (Hs' & _ & Ha').
  apply (layout_plain cmds _ _ _ Hs' Ha' Hcmds).
Qed.

End SideBySide.

Lemma analyzers_agree_on_layout_witness :
  V1.defined_vars
    (V1.analyze_lines ascii_only 21
       ([] ++ [py "@x hello" ++ [LF]]
           ++ [py "1 A+ 1" ++ [LF]; py "a @x" ++ [LF]]))
  = V2.defined_vars
      (V2.analyze_lines ascii_only 21
         ([] ++ [py "@x hello" ++ [LF]]
             ++ [py "1 A+ 1" ++ [LF]; py "a @x" ++ [LF]])).
Proof.
  refine (proj1 (analyzers_agree_on_layout ascii_only 21 []
    [py "@x hello" ++ [LF]] [py "1 A+ 1" ++ [LF]; py "a @x" ++ [LF]]
    _ _ _ _)).
  - simpl. lia.
  - constructor.
  - repeat constructor.
  - repeat constructor.
Defined.

(** ** The efficiency statistics of v2 *)


Section Efficiency.
Context (U : unicode).
Implicit Types (w : list N -> Z) (v : list N).

Lemma weighted_empty w : weighted w ∅ = 0.
Proof. apply map_fold_empty. Qed.

Lemma weighted_insert_new w (used : gmap (list N) Z) v (n : Z) :
  used !! v = None -> weighted w (<[v := n]> used) = weighted w used + n * w v.
Proof.
  intros H. unfold weighted.
  by rewrite map_fold_insert_L by (intros; lia || done).
Qed.

Lemma weighted_count_usage w (v : list N) (used : gmap (list N) Z) :
  weighted w (count_usage v used) = weighted w used + w v.
Proof.
  unfold count_usage.
  destruct (used !! v) as [c|] eqn:E; simpl.
  - rewrite <- insert_delete_eq.
    rewrite weighted_insert_new by apply lookup_delete_eq.
    rewrite <- (insert_delete_id used v c) at 2 by done.
    rewrite weighted_insert_new by apply lookup_delete_eq. lia.
  - rewrite weighted_insert_new by done. lia.
Qed.

Lemma weighted_count_all w ts : forall used : gmap (list N) Z,
  weighted w (count_all ts used) = weighted w used + Zsum (map w ts).
Proof.
  induction ts as [|v ts IH]; intros used; unfold count_all in *; simpl; [lia|].
  rewrite IH, weighted_count_usage. lia.
Qed.

Lemma weighted_ext w1 w2 (used : gmap (list N) Z) :
  (forall v n, used !! v = Some n -> w1 v = w2 v) ->
  weighted w1 used = weighted w2 used.
Proof.
  induction used as [|v n used Hnew IH] using map_ind; intros H.
  - by rewrite !weighted_empty.
  - rewrite !weighted_insert_new by done.
    rewrite (H v n) by apply lookup_insert_eq.
    rewrite IH; [done|]. intros v' n' Hv'. apply (H v' n').
    rewrite lookup_insert_ne; [done|]. by intros <-; rewrite Hnew in Hv'.
Qed.

Lemma weighted_plus w1 w2 (used : gmap (list N) Z) :
  weighted (fun v => w1 v + w2 v) used = weighted w1 used + weighted w2 used.
Proof.
  induction used as [|v n used Hnew IH] using map_ind.
  - by rewrite !weighted_empty.
  - rewrite !weighted_insert_new by done. lia.
Qed.


Lemma closed_form_step n line st :
  closed_form st -> closed_form (V2.step U n line st).
Proof.
  intros [Hk Hempty].
  destruct (V2_step_turn U n line st) as (_ & _ & Hd & Hp & Hu & Hb & He).
  pose proof (V2_turn_spec U n line st) as Ht.
  unfold closed_form. rewrite Hd, Hp, Hu.
  assert (V2.full_line_vars (V2.step U n line st)
          = fst (V2_buckets U (V2_turn U n line st) (rstrip_nl line)
                   (V2.full_line_vars st, V2.fragment_vars st))) as ->
    by by rewrite <- Hb.
  unfold V2_defines, turn_uses, V2_buckets, V2_efficiency_delta in *.
  destruct (V2_turn U n line st).
  - split; [|done]. intros k Hle. rewrite He, Hk by done. simpl. lia.
  - destruct Ht as [Hparsing _]. rewrite (Hempty Hparsing).
    split; [|done]. intros k Hle.
    rewrite He, Hk, (Hempty Hparsing), !weighted_empty by done. lia.
  - destruct Ht as [Hparsing _]. rewrite (Hempty Hparsing).
    split; [|done]. intros k Hle.
    rewrite He, Hk, (Hempty Hparsing), !weighted_empty by done. lia.
  - split; [|done]. intros k Hle.
    rewrite He, Hk, weighted_count_all by done. done.
  - split; [|done]. intros k Hle. rewrite He, Hk by done. simpl. lia.
  - split; [|done]. intros k Hle.
    rewrite He, Hk, weighted_count_all by done. done.
  - split; [|done]. intros k Hle. rewrite He, Hk by done. simpl. lia.
Qed.

Lemma closed_form_loop lines : forall n st,
  closed_form st -> closed_form (V2.loop U n lines st).
Proof.
  induction lines as [|line lines IH]; intros n st H; simpl; [done|].
  by apply IH, closed_form_step.
Qed.

Lemma closed_form_init size : closed_form (V2.init size).
Proof.
  split; [|done]. intros k Hk. simpl. rewrite weighted_empty.
  destruct k; keys; simpl in Hk; lia.
Qed.

(** X11: the efficiency statistics in closed form.  At the end of the v2
    analysis every counter of the efficiency statistics is the sum, over
    the ids of the usage table, of the count of the id times what one
    occurrence weighs under the final tables: its own encoded size for the
    reference cost, the encoded size of its content for the replaced bytes
    (nothing if it is not defined), each put into the full-line or the
    fragment counter by the membership of the id in the full-line bucket.
    When every tallied id is defined, the two reference costs add up to the
    total reference cost H3. *)
Theorem efficiency_closed_form size lines :
  (forall k, V2_efficiency k ->
     V2.stats (V2.analyze_lines U size lines) k
     = weighted (usage_weight
                   (V2.defined_vars (V2.analyze_lines U size lines))
                   (V2.full_line_vars (V2.analyze_lines U size lines)) k)
         (V2.used_vars_count (V2.analyze_lines U size lines)))
  /\ (dom (V2.used_vars_count (V2.analyze_lines U size lines))
        ⊆ dom (V2.defined_vars (V2.analyze_lines U size lines)) ->
      V2.stats (V2.analyze_lines U size lines) V2.full_line_ref_cost_b
      + V2.stats (V2.analyze_lines U size lines) V2.fragment_ref_cost_b
      = V2.stats (V2.analyze_lines U size lines) V2.total_reference_cost_b).
Proof.
  destruct (closed_form_loop lines 0 _ (closed_form_init size)) as [Hk _].
  fold (V2.analyze_lines U size lines) in Hk.
  assert (Hall : forall k, V2_efficiency k ->
     V2.stats (V2.analyze_lines U size lines) k
     = weighted (usage_weight
                   (V2.defined_vars (V2.analyze_lines U size lines))
                   (V2.full_line_vars (V2.analyze_lines U size lines)) k)
         (V2.used_vars_count (V2.analyze_lines U size lines))).
  { intros k Hle. unfold V2_efficiency in Hle.
    destruct (decide (V2.key_index k = 11%nat)) as [E|E]; [|apply Hk; lia].
    destruct k; try discriminate E.
    apply V2_loop_occurrence_bytes. simpl. keys.
    unfold occurrence_bytes. by rewrite map_fold_empty. }
  split; [done|]. intros Hsub.
  rewrite !Hall by (unfold V2_efficiency; simpl; lia).
  rewrite <- weighted_plus. apply weighted_ext. intros v n Hv.
  unfold usage_weight.
  rewrite (bool_decide_eq_true_2 (v ∈ dom _))
    by (apply Hsub, elem_of_dom; eauto).
  case_bool_decide; simpl; lia.
Qed.

End Efficiency.

Lemma efficiency_closed_form_witness :
  V2.stats (V2.analyze_lines ascii_only 21 (readlines scenario_A))
    V2.fragment_replaced_b
  = weighted
      (usage_weight
         (V2.defined_vars (V2.analyze_lines ascii_only 21 (readlines scenario_A)))
         (V2.full_line_vars (V2.analyze_lines ascii_only 21 (readlines scenario_A)))
         V2.fragment_replaced_b)
      (V2.used_vars_count (V2.analyze_lines ascii_only 21 (readlines scenario_A))).
Proof.
  refine (proj1 (efficiency_closed_form ascii_only 21 (readlines scenario_A))
            V2.fragment_replaced_b _).
  unfold V2_efficiency. simpl. lia.
Defined.

Section Report.
Context (U : unicode).
Implicit Types (w : list N -> Z) (v : list N).

Lemma weighted_mono w w' (used : gmap (list N) Z) :
  map_Forall (fun _ n => 0 < n) used ->
  (forall v, w v <= w' v) ->
  weighted w used <= weighted w' used.
Proof.
  intros Hpos Hw.
  induction used as [|v n used Hnew IH] using map_ind.
  - by rewrite !weighted_empty.
  - rewrite !weighted_insert_new by done.
    apply map_Forall_insert in Hpos as [Hn Hpos]; [|done].
    specialize (IH Hpos). specialize (Hw v). nia.
Qed.

Lemma weighted_nonneg w (used : gmap (list N) Z) :
  map_Forall (fun _ n => 0 < n) used ->
  (forall v, 0 <= w v) ->
  0 <= weighted w used.
Proof.
  intros Hpos Hw.
  induction used as [|v n used Hnew IH] using map_ind.
  - by rewrite weighted_empty.
  - rewrite weighted_insert_new by done.
    apply map_Forall_insert in Hpos as [Hn Hpos]; [|done].
    specialize (IH Hpos). specialize (Hw v). nia.
Qed.

Lemma count_usage_positive v (used : gmap (list N) Z) :
  map_Forall (fun _ n => 0 < n) used ->
  map_Forall (fun _ n => 0 < n) (count_usage v used).
Proof.
  intros Hpos. unfold count_usage. apply map_Forall_insert_2; [|done].
  destruct (used !! v) as [n|] eqn:E; simpl; [|lia].
  specialize (Hpos v n E). simpl in Hpos. lia.
Qed.

Lemma count_all_positive ts : forall used : gmap (list N) Z,
  map_Forall (fun _ n => 0 < n) used ->
  map_Forall (fun _ n => 0 < n) (count_all ts used).
Proof.
  induction ts as [|v ts IH]; intros used Hpos; [done|].
  unfold count_all in *. simpl. by apply IH, count_usage_positive.
Qed.

Lemma V2_used_positive lines : forall n st,
  map_Forall (fun _ n => 0 < n) (V2.used_vars_count st) ->
  map_Forall (fun _ n => 0 < n) (V2.used_vars_count (V2.loop U n lines st)).
Proof.
  induction lines as [|line lines IH]; intros n st Hpos; simpl; [done|].
  apply IH. destruct (V2_step_turn U n line st) as (_ & _ & _ & _ & -> & _).
  unfold turn_uses. destruct (V2_turn U n line st); try done;
    by apply count_all_positive.
Qed.

Lemma V1_used_positive lines : forall n st,
  map_Forall (fun _ n => 0 < n) (V1.used_vars_count st) ->
  map_Forall (fun _ n => 0 < n) (V1.used_vars_count (V1.loop U n lines st)).
Proof.
  induction lines as [|line lines IH]; intros n st Hpos; simpl; [done|].
  apply IH.
  destruct (V1_step_usage U n line st) as [(_ & -> & _)|(_ & [(-> & _)|(-> & _)])];
    try done.
  by apply count_all_positive.
Qed.

(** The two definition costs of the report share out the cost of the
    table. *)
Lemma def_costs_split (st : V2.state) :
  V2.def_cost_full_b st + V2.def_cost_fragment_b st
  = definitions_cost (V2.defined_vars st)
  /\ 0 <= V2.def_cost_full_b st /\ 0 <= V2.def_cost_fragment_b st.
Proof.
  unfold V2.def_cost_full_b, V2.def_cost_fragment_b, V2.def_costs.
  apply (map_fold_weak_ind (fun r m =>
    fst r + snd r = definitions_cost m /\ 0 <= fst r /\ 0 <= snd r)).
  - unfold definitions_cost. rewrite map_fold_empty. simpl. lia.
  - intros var content m [full frag] Hnew (IH & Hf & Hg).
    rewrite definitions_cost_insert_new by done.
    pose proof (definition_cost_nonneg content) as Hc.
    unfold definition_cost in *. simpl in *.
    case_bool_decide; simpl; lia.
Qed.

(** X12: the efficiency report is consistent.  At the end of the v2
    analysis the replaced bytes of the two buckets add up to the total of
    replaced bytes; the reference costs of the two buckets are within the
    total reference cost H3; the definition costs of the two buckets add up
    to the cost of all the definitions, 1 + 1 + the size of the content
    each; so the total cost is the cost of the definitions plus the
    reference costs of the buckets, and the total net savings are the
    replaced bytes less the total cost.  No entry of the report but a net
    saving can be negative: not the replaced bytes, the reference costs, the
    definition costs or the total costs, of either bucket or overall. *)
Theorem efficiency_report_adds_up size lines :
  V2.stats (V2.analyze_lines U size lines) V2.total_replaced_bytes
  = V2.stats (V2.analyze_lines U size lines) V2.full_line_replaced_b
    + V2.stats (V2.analyze_lines U size lines) V2.fragment_replaced_b
  /\ V2.stats (V2.analyze_lines U size lines) V2.full_line_ref_cost_b
     + V2.stats (V2.analyze_lines U size lines) V2.fragment_ref_cost_b
     <= V2.stats (V2.analyze_lines U size lines) V2.total_reference_cost_b
  /\ V2.def_cost_full_b (V2.analyze_lines U size lines)
     + V2.def_cost_fragment_b (V2.analyze_lines U size lines)
     = definitions_cost (V2.defined_vars (V2.analyze_lines U size lines))
  /\ V2.total_cost (V2.analyze_lines U size lines)
     = definitions_cost (V2.defined_vars (V2.analyze_lines U size lines))
       + V2.stats (V2.analyze_lines U size lines) V2.full_line_ref_cost_b
       + V2.stats (V2.analyze_lines U size lines) V2.fragment_ref_cost_b
  /\ V2.total_savings (V2.analyze_lines U size lines)
     = V2.stats (V2.analyze_lines U size lines) V2.total_replaced_bytes
       - V2.total_cost (V2.analyze_lines U size lines)
  /\ 0 <= V2.stats (V2.analyze_lines U size lines) V2.full_line_replaced_b
  /\ 0 <= V2.stats (V2.analyze_lines U size lines) V2.fragment_replaced_b
  /\ 0 <= V2.stats (V2.analyze_lines U size lines) V2.total_replaced_bytes
  /\ 0 <= V2.stats (V2.analyze_lines U size lines) V2.full_line_ref_cost_b
  /\ 0 <= V2.stats (V2.analyze_lines U size lines) V2.fragment_ref_cost_b
  /\ 0 <= V2.def_cost_full_b (V2.analyze_lines U size lines)
  /\ 0 <= V2.def_cost_fragment_b (V2.analyze_lines U size lines)
  /\ 0 <= V2.total_cost_full (V2.analyze_lines U size lines)
  /\ 0 <= V2.total_cost_fragment (V2.analyze_lines U size lines)
  /\ 0 <= V2.total_cost (V2.analyze_lines U size lines).
Proof.
  set (st := V2.analyze_lines U size lines).
  destruct (closed_form_loop U lines 0 _ (closed_form_init size)) as [Hk _].
  fold (V2.analyze_lines U size lines) in Hk. fold st in Hk.
  assert (map_Forall (fun _ n => 0 < n) (V2.used_vars_count st)) as Hpos
    by (by apply V2_used_positive).
  assert (V2.stats st V2.total_reference_cost_b
          = weighted utf8_len (V2.used_vars_count st)) as Href.
  { apply V2_loop_occurrence_bytes. simpl. keys.
    unfold occurrence_bytes. by rewrite map_fold_empty. }
  set (uw := usage_weight (V2.defined_vars st) (V2.full_line_vars st)) in *.
  assert (Hnonneg : forall k v, 0 <= uw k v).
  { intros k v. unfold uw, usage_weight, replaced_b.
    pose proof (utf8_len_nonneg v).
    destruct (V2.defined_vars st !! v) as [c|];
      [pose proof (utf8_len_nonneg c)|];
      destruct k; repeat case_bool_decide; simpl; lia. }
  assert (Hzero : forall k, 0 <= weighted (uw k) (V2.used_vars_count st))
    by (intros k; by apply weighted_nonneg).
  destruct (def_costs_split st) as (Hsplit & Hfull & Hfrag).
  unfold V2.total_savings, V2.net_savings_full, V2.net_savings_fragment,
    V2.total_cost, V2.total_cost_full, V2.total_cost_fragment.
  rewrite !Hk, Href by (simpl; lia).
  assert (weighted (uw V2.total_replaced_bytes) (V2.used_vars_count st)
          = weighted (uw V2.full_line_replaced_b) (V2.used_vars_count st)
            + weighted (uw V2.fragment_replaced_b) (V2.used_vars_count st)) as H1.
  { rewrite <- weighted_plus. apply weighted_ext. intros v n _.
    unfold uw, usage_weight. case_bool_decide; lia. }
  assert (weighted (uw V2.full_line_ref_cost_b) (V2.used_vars_count st)
          + weighted (uw V2.fragment_ref_cost_b) (V2.used_vars_count st)
          <= weighted utf8_len (V2.used_vars_count st)) as H2.
  { rewrite <- weighted_plus. apply weighted_mono; [done|]. intros v.
    pose proof (utf8_len_nonneg v).
    unfold uw, usage_weight. repeat case_bool_decide; simpl; lia. }
  pose proof (Hzero V2.full_line_replaced_b).
  pose proof (Hzero V2.fragment_replaced_b).
  pose proof (Hzero V2.full_line_ref_cost_b).
  pose proof (Hzero V2.fragment_ref_cost_b).
  repeat split; lia.
Qed.

End Report.

(** ** The two buckets of v2 *)

Section Buckets.
Context (U : unicode).

(** Every defined id is in a bucket, and the buckets hold defined ids
    only. *)
Lemma buckets_cover_step n line st :
  dom (V2.defined_vars st) = V2.full_line_vars st ∪ V2.fragment_vars st ->
  dom (V2.defined_vars (V2.step U n line st))
  = V2.full_line_vars (V2.step U n line st)
    ∪ V2.fragment_vars (V2.step U n line st).
Proof.
  intros Hcover.
  destruct (V2_step_turn U n line st) as (_ & _ & Hd & _ & _ & Hb & _).
  pose proof (V2_turn_spec U n line st) as Ht.
  pose proof (f_equal fst Hb) as Hfull. pose proof (f_equal snd Hb) as Hfrag.
  cbn [fst snd] in Hfull, Hfrag. clear Hb. rewrite Hd, Hfull, Hfrag.
  unfold V2_defines, V2_buckets.
  destruct (V2_turn U n line st); try done.
  - destruct Ht as (_ & var & content & ->).
    rewrite dom_insert_L, Hcover.
    destruct (_ && _); cbn [fst snd].
    + by rewrite (assoc_L (∪)).
    + by rewrite (assoc_L (∪)), (comm_L (∪) {[var]}), <- (assoc_L (∪)).
  - destruct Ht as (_ & _ & var & ->).
    rewrite dom_insert_L, Hcover. cbn [fst snd].
    by rewrite (assoc_L (∪)), (comm_L (∪) {[var]}), <- (assoc_L (∪)).
Qed.

Lemma buckets_cover_loop lines : forall n st,
  dom (V2.defined_vars st) = V2.full_line_vars st ∪ V2.fragment_vars st ->
  dom (V2.defined_vars (V2.loop U n lines st))
  = V2.full_line_vars (V2.loop U n lines st)
    ∪ V2.fragment_vars (V2.loop U n lines st).
Proof.
  induction lines as [|line lines IH]; intros n st H; simpl; [done|].
  by apply IH, buckets_cover_step.
Qed.

Lemma buckets_cover size lines :
  dom (V2.defined_vars (V2.analyze_lines U size lines))
  = V2.full_line_vars (V2.analyze_lines U size lines)
    ∪ V2.fragment_vars (V2.analyze_lines U size lines).
Proof.
  apply buckets_cover_loop. simpl. by rewrite dom_empty_L, (left_id_L ∅ (∪)).
Qed.


Lemma size_dom_insert_old (defined : gmap (list N) (list N)) var content :
  var ∈ dom defined ->
  size (dom (<[var := content]> defined)) = size (dom defined).
Proof.
  intros Hvar. rewrite dom_insert_L. f_equal.
  apply subseteq_union_1_L. by apply singleton_subseteq_l.
Qed.

Lemma classified_step n line st :
  dom (V2.defined_vars st) = V2.full_line_vars st ∪ V2.fragment_vars st ->
  Z.of_nat (size (dom (V2.defined_vars st))) = V2.stats st V2.definition_lines ->
  Z.of_nat (size (dom (V2.defined_vars (V2.step U n line st))))
  = V2.stats (V2.step U n line st) V2.definition_lines ->
  classified U st -> classified U (V2.step U n line st).
Proof.
  intros Hcover Hsize Hsize' [Hdisj Hclass].
  destruct (V2_step_turn U n line st) as (Hs & _ & Hd & _ & _ & Hb & _).
  pose proof (V2_turn_spec U n line st) as Ht.
  pose proof (f_equal fst Hb) as Hfull. pose proof (f_equal snd Hb) as Hfrag.
  cbn [fst snd] in Hfull, Hfrag. clear Hb. unfold classified.
  rewrite Hs, Hd in Hsize' by (unfold V2_basic; simpl; lia).
  rewrite Hd, Hfull, Hfrag.
  unfold V2_defines, V2_buckets, V2_turn_delta in *.
  assert (Hnew : forall var content,
    Z.of_nat (size (dom (<[var := content]> (V2.defined_vars st))))
    = V2.stats st V2.definition_lines + (0 + 1) ->
    (var ∉ V2.full_line_vars st) /\ (var ∉ V2.fragment_vars st)).
  { intros var content Hs'.
    assert (var ∉ dom (V2.defined_vars st)) as Hvar.
    { intros Hvar. rewrite size_dom_insert_old in Hs' by done. lia. }
    rewrite Hcover in Hvar. apply not_elem_of_union in Hvar. done. }
  destruct (V2_turn U n line st); try done.
  - destruct Ht as (_ & var & content & Hdef). rewrite Hdef in *.
    simpl in Hsize'. destruct (Hnew var content Hsize') as [Hnfull Hnfrag].
    fold (heuristic U content).
    destruct (heuristic U content) eqn:Hh; cbn [fst snd]; split.
    + apply disjoint_union_l. split; [|done].
      by apply disjoint_singleton_l.
    + intros v c Hv. destruct (decide (v = var)) as [->|Hne].
      * rewrite lookup_insert_eq in Hv. injection Hv as <-.
        split; [done|]. intros _. apply elem_of_union_l.
        by apply elem_of_singleton.
      * rewrite lookup_insert_ne in Hv by done.
        rewrite <- (Hclass v c Hv). rewrite elem_of_union, elem_of_singleton.
        tauto.
    + apply disjoint_union_r. split; [|done].
      by apply disjoint_singleton_r.
    + intros v c Hv. destruct (decide (v = var)) as [->|Hne].
      * rewrite lookup_insert_eq in Hv. injection Hv as <-.
        rewrite Hh. split; [done|discriminate].
      * rewrite lookup_insert_ne in Hv by done. by apply Hclass.
  - destruct Ht as (_ & _ & var & Hdef). rewrite Hdef in *.
    simpl in Hsize'. destruct (Hnew var [] Hsize') as [Hnfull Hnfrag].
    cbn [fst snd]. split.
    + apply disjoint_union_r. split; [|done].
      by apply disjoint_singleton_r.
    + intros v c Hv. destruct (decide (v = var)) as [->|Hne].
      * rewrite lookup_insert_eq in Hv. injection Hv as <-.
        split; [done|discriminate].
      * rewrite lookup_insert_ne in Hv by done. by apply Hclass.
Qed.

Lemma classified_lines file_size lines :
  Z.of_nat (size (dom (V2.defined_vars (V2.analyze_lines U file_size lines))))
  = V2.stats (V2.analyze_lines U file_size lines) V2.definition_lines ->
  classified U (V2.analyze_lines U file_size lines).
Proof.
  induction lines as [|line lines IH] using rev_ind; intros Hsize.
  - split; [apply disjoint_empty_l|]. intros var content Hv.
    change (@lookup _ _ (gmap (list N) (list N)) _ var ∅ = Some content) in Hv.
    by rewrite lookup_empty in Hv.
  - unfold V2.analyze_lines in *. rewrite V2_loop_snoc in *.
    set (st := V2.loop U 0 lines (V2.init file_size)) in *.
    destruct (V2_step_tally U (0 + length lines) line st) as [Hstep _].
    { intros E. destruct lines; [done|discriminate E]. }
    destruct (V2_loop_tally U lines 0 (V2.init file_size) ltac:(done)) as [Hloop _].
    fold st in Hloop. unfold V2_tally in Hstep, Hloop.
    assert (Z.of_nat (size (dom (V2.defined_vars st)))
            = V2.stats st V2.definition_lines) as Hprev.
    { revert Hloop. simpl. rewrite dom_empty_L, size_empty. keys. lia. }
    apply classified_step; [|done|done|by apply IH].
    apply (buckets_cover_loop lines 0 (V2.init file_size)).
    simpl. by rewrite dom_empty_L, (left_id_L ∅ (∪)).
Qed.

(** X13: the two buckets of v2 cover the definitions.  At the end of the
    analysis the ids of the table of definitions are exactly the ids of the
    full-line bucket and of the fragment bucket together; the two sizes the
    report prints for the buckets are together at least the number of
    defined ids and each at most the count of definition lines. *)
Theorem buckets_cover_definitions file_size lines :
  dom (V2.defined_vars (V2.analyze_lines U file_size lines))
  = V2.full_line_vars (V2.analyze_lines U file_size lines)
    ∪ V2.fragment_vars (V2.analyze_lines U file_size lines)
  /\ (size (dom (V2.defined_vars (V2.analyze_lines U file_size lines)))
      <= size (V2.full_line_vars (V2.analyze_lines U file_size lines))
         + size (V2.fragment_vars (V2.analyze_lines U file_size lines)))%nat
  /\ Z.of_nat (size (V2.full_line_vars (V2.analyze_lines U file_size lines)))
     <= V2.stats (V2.analyze_lines U file_size lines) V2.definition_lines
  /\ Z.of_nat (size (V2.fragment_vars (V2.analyze_lines U file_size lines)))
     <= V2.stats (V2.analyze_lines U file_size lines) V2.definition_lines.
Proof.
  pose proof (buckets_cover file_size lines) as Hcover.
  destruct (V2_analyze_tally U file_size lines) as [Htally _].
  unfold V2_tally in Htally. revert Htally. simpl.
  rewrite dom_empty_L, size_empty. keys. intros Htally.
  set (st := V2.analyze_lines U file_size lines) in *.
  assert (V2.full_line_vars st ⊆ dom (V2.defined_vars st)) as H1
    by (rewrite Hcover; apply union_subseteq_l).
  assert (V2.fragment_vars st ⊆ dom (V2.defined_vars st)) as H2
    by (rewrite Hcover; apply union_subseteq_r).
  apply subseteq_size in H1, H2.
  split; [done|]. split; [|lia].
  rewrite Hcover, size_union_alt.
  assert (V2.fragment_vars st ∖ V2.full_line_vars st ⊆ V2.fragment_vars st)
    as Hsub by (intros v [Hv _]%elem_of_difference; exact Hv).
  apply subseteq_size in Hsub. lia.
Qed.

(** X14: when no id is defined twice, the buckets are as C4 states.  When
    the v2 analysis ends with as many defined ids as it counted definition
    lines (no id was defined twice), the two buckets are disjoint, an id is
    in the full-line bucket exactly when its content passes the
    classification test, in the fragment bucket exactly when it does not,
    and the sizes of the buckets add up to the count of definition lines. *)
Theorem distinct_definitions_are_classified file_size lines :
  Z.of_nat (size (dom (V2.defined_vars (V2.analyze_lines U file_size lines))))
  = V2.stats (V2.analyze_lines U file_size lines) V2.definition_lines ->
  V2.full_line_vars (V2.analyze_lines U file_size lines)
    ## V2.fragment_vars (V2.analyze_lines U file_size lines)
  /\ (forall var content,
        V2.defined_vars (V2.analyze_lines U file_size lines) !! var
          = Some content ->
        (var ∈ V2.full_line_vars (V2.analyze_lines U file_size lines)
           <-> heuristic U content = true)
        /\ (var ∈ V2.fragment_vars (V2.analyze_lines U file_size lines)
              <-> heuristic U content = false))
  /\ Z.of_nat (size (V2.full_line_vars (V2.analyze_lines U file_size lines)))
     + Z.of_nat (size (V2.fragment_vars (V2.analyze_lines U file_size lines)))
     = V2.stats (V2.analyze_lines U file_size lines) V2.definition_lines.
Proof.
  intros Hsize. destruct (classified_lines file_size lines Hsize) as [Hdisj Hclass].
  pose proof (buckets_cover file_size lines) as Hcover.
  set (st := V2.analyze_lines U file_size lines) in *.
  split; [done|]. split.
  - intros var content Hv. split; [by apply Hclass|].
    assert (var ∈ V2.full_line_vars st ∪ V2.fragment_vars st) as Hin
      by (rewrite <- Hcover; apply elem_of_dom; eauto).
    apply elem_of_union in Hin. specialize (Hclass var content Hv).
    destruct (heuristic U content).
    + split; [|done]. intros Hfrag. exfalso.
      apply (Hdisj var); [by apply Hclass | done].
    + split; [done|]. intros _. destruct Hin as [Hin|Hin]; [|done].
      apply Hclass in Hin. discriminate Hin.
  - rewrite <- Hsize, Hcover, size_union by done. lia.
Qed.

End Buckets.

Lemma distinct_definitions_are_classified_witness :
  V2.full_line_vars (V2.analyze_lines ascii_only 21 (readlines scenario_A))
    ## V2.fragment_vars (V2.analyze_lines ascii_only 21 (readlines scenario_A)).
Proof.
  refine (proj1 (distinct_definitions_are_classified ascii_only 21
                   (readlines scenario_A) _)).
  vm_compute. reflexivity.
Defined.

(** ** From the text of the file *)


Lemma utf8_len_rev s : utf8_len (rev s) = utf8_len s.
Proof.
  induction s as [|c s IH]; [done|]. simpl. rewrite utf8_len_app, IH. simpl. lia.
Qed.

Lemma utf8_len_universal_newlines s :
  utf8_len (universal_newlines s) <= utf8_len s.
Proof.
  induction s as [|c s IH]; [done|]. cbn [universal_newlines].
  destruct (N.eqb_spec c CR) as [->|Hc]; [|simpl; lia].
  destruct s as [|d s]; [done|].
  destruct (N.eqb_spec d LF) as [->|Hd].
  - change (utf8_len (CR :: LF :: s)) with (1 + utf8_len (LF :: s)). lia.
  - change (utf8_len (LF :: universal_newlines (d :: s)))
      with (1 + utf8_len (universal_newlines (d :: s))).
    change (utf8_len (CR :: d :: s)) with (1 + utf8_len (d :: s)). lia.
Qed.

Lemma readlines_aux_bytes s : forall cur,
  Zsum (map utf8_len (readlines_aux cur s)) = utf8_len cur + utf8_len s.
Proof.
  induction s as [|c s IH]; intros cur; cbn [readlines_aux].
  - destruct cur as [|d cur]; [done|].
    cbn [map Zsum foldr]. rewrite utf8_len_rev. simpl. lia.
  - destruct (c =? LF)%N.
    + cbn [map]. rewrite Zsum_cons, IH, utf8_len_rev. simpl. lia.
    + rewrite IH. simpl. lia.
Qed.

(** The lines of a file take no more bytes than the file. *)
Lemma readlines_bytes text :
  Zsum (map utf8_len (readlines text)) <= utf8_len text.
Proof.
  unfold readlines. rewrite readlines_aux_bytes.
  pose proof (utf8_len_universal_newlines text). simpl. lia.
Qed.

Lemma universal_newlines_no_CR s : CR ∉ universal_newlines s.
Proof.
  induction s as [|c s IH]; [apply not_elem_of_nil|]. cbn [universal_newlines].
  destruct (N.eqb_spec c CR) as [->|Hc].
  - destruct s as [|d s]; [by apply not_elem_of_cons; split; [|apply not_elem_of_nil]|].
    destruct (d =? LF)%N; [done|]. by apply not_elem_of_cons.
  - apply not_elem_of_cons. split; [congruence | done].
Qed.

Lemma readlines_aux_chars s : forall cur line c,
  line ∈ readlines_aux cur s -> c ∈ line -> c ∈ cur \/ c ∈ s.
Proof.
  induction s as [|d s IH]; intros cur line c; cbn [readlines_aux].
  - destruct cur as [|e cur]; [by intros ?%elem_of_nil|].
    intros ->%list_elem_of_singleton Hc. left.
    by apply list_elem_of_In, in_rev, list_elem_of_In.
  - destruct (N.eqb_spec d LF) as [->|Hd].
    + intros [->|Hin]%elem_of_cons Hc.
      * apply list_elem_of_In, in_rev, list_elem_of_In, elem_of_cons in Hc
          as [->|Hc]; [right; left | by left].
      * destruct (IH [] line c Hin Hc) as [?%elem_of_nil|?]; [done|].
        right. by right.
    + intros Hin Hc. destruct (IH (d :: cur) line c Hin Hc) as [H|H].
      * apply elem_of_cons in H as [->|H]; [right; left | by left].
      * right. by right.
Qed.

(** A line of the file, stripped, holds neither a carriage return nor a
    line feed. *)
Lemma readlines_clean text line :
  line ∈ readlines text -> (CR ∉ rstrip_nl line) /\ (LF ∉ rstrip_nl line).
Proof.
  intros Hin. split; [|by eapply readlines_no_newline].
  intros Hc. destruct (rstrip_nl_prefix line) as [tail Hl].
  assert (CR ∈ line) as Hline by (rewrite Hl; apply elem_of_app; by left).
  destruct (readlines_aux_chars _ _ _ _ Hin Hline) as [?%elem_of_nil|H]; [done|].
  by apply universal_newlines_no_CR in H.
Qed.

Section FromText.
Context (U : unicode).


Lemma tokens_reference_ids s : Forall (reference_id U) (tokens U s).
Proof.
  apply findall_from_Forall. intros s' t rest H.
  apply var_usage_regex_inv in H as (id & _ & -> & Hne & Hid). by exists id.
Qed.

Lemma count_all_clean ts : forall used,
  Forall (reference_id U) ts -> clean_usages U used ->
  clean_usages U (count_all ts used).
Proof.
  induction ts as [|v ts IH]; intros used Hts Hused; [done|].
  apply Forall_cons in Hts as [Hv Hts]. unfold count_all in *. simpl.
  apply IH; [done|]. unfold count_usage. apply map_Forall_insert_2; [|done].
  split; [done|].
  destruct (used !! v) as [n|] eqn:E; simpl; [|lia].
  destruct (Hused v n E) as [_ Hn]. lia.
Qed.

Lemma def_regex_clean l var content :
  (CR ∉ l) -> (LF ∉ l) -> def_regex U l = Some (var, content) ->
  reference_id U var /\ (LF ∉ content) /\ (CR ∉ content).
Proof.
  intros Hcr Hlf (id & sp & -> & -> & Hne & Hid & _)%def_regex_inv.
  split; [by exists id|].
  split; intros Hc; [apply Hlf | apply Hcr];
    (apply elem_of_cons; right; apply elem_of_app; right;
     apply elem_of_cons; by right).
Qed.

Lemma def_regex_no_content_clean l var :
  V2.def_regex_no_content U l = Some var ->
  reference_id U var /\ (LF ∉ []) /\ (CR ∉ []).
Proof.
  intros (id & tail & _ & -> & Hne & Hid & _)%def_regex_no_content_inv.
  split; [by exists id|]. split; apply not_elem_of_nil.
Qed.

Lemma V1_step_clean n line st :
  (CR ∉ rstrip_nl line) -> (LF ∉ rstrip_nl line) ->
  clean_definitions U (V1.defined_vars st) /\ clean_usages U (V1.used_vars_count st) ->
  clean_definitions U (V1.defined_vars (V1.step U n line st))
  /\ clean_usages U (V1.used_vars_count (V1.step U n line st)).
Proof.
  intros Hcr Hlf [Hd Hu]. split.
  - destruct (V1_step_turn U n line st) as (_ & _ & ->).
    unfold V1_defines. destruct (V1_turn U n line st); try done.
    destruct (def_regex U (rstrip_nl line)) as [[var content]|] eqn:E; [|done].
    apply map_Forall_insert_2; [|done]. by eapply def_regex_clean.
  - destruct (V1_step_usage U n line st)
      as [(_ & -> & _)|(_ & [(-> & _)|(-> & _)])]; try done.
    apply count_all_clean; [apply tokens_reference_ids | done].
Qed.

Lemma V2_step_clean n line st :
  (CR ∉ rstrip_nl line) -> (LF ∉ rstrip_nl line) ->
  clean_definitions U (V2.defined_vars st) /\ clean_usages U (V2.used_vars_count st) ->
  clean_definitions U (V2.defined_vars (V2.step U n line st))
  /\ clean_usages U (V2.used_vars_count (V2.step U n line st)).
Proof.
  intros Hcr Hlf [Hd Hu].
  destruct (V2_step_turn U n line st) as (_ & _ & -> & _ & -> & _).
  unfold V2_defines, turn_uses. split.
  - destruct (V2_turn U n line st); try done.
    + destruct (def_regex U (rstrip_nl line)) as [[var content]|] eqn:E; [|done].
      apply map_Forall_insert_2; [|done]. by eapply def_regex_clean.
    + destruct (V2.def_regex_no_content U (rstrip_nl line)) as [var|] eqn:E;
        [|done].
      apply map_Forall_insert_2; [|done]. by eapply def_regex_no_content_clean.
  - destruct (V2_turn U n line st); try done;
      (apply count_all_clean; [apply tokens_reference_ids | done]).
Qed.

Lemma V1_loop_clean lines : forall n st,
  Forall (fun line => (CR ∉ rstrip_nl line) /\ (LF ∉ rstrip_nl line)) lines ->
  clean_definitions U (V1.defined_vars st) /\ clean_usages U (V1.used_vars_count st) ->
  clean_definitions U (V1.defined_vars (V1.loop U n lines st))
  /\ clean_usages U (V1.used_vars_count (V1.loop U n lines st)).
Proof.
  induction lines as [|line lines IH]; intros n st Hall H; [done|].
  apply Forall_cons in Hall as [[Hcr Hlf] Hall]. cbn [V1.loop].
  by apply IH, V1_step_clean.
Qed.

Lemma V2_loop_clean lines : forall n st,
  Forall (fun line => (CR ∉ rstrip_nl line) /\ (LF ∉ rstrip_nl line)) lines ->
  clean_definitions U (V2.defined_vars st) /\ clean_usages U (V2.used_vars_count st) ->
  clean_definitions U (V2.defined_vars (V2.loop U n lines st))
  /\ clean_usages U (V2.used_vars_count (V2.loop U n lines st)).
Proof.
  induction lines as [|line lines IH]; intros n st Hall H; [done|].
  apply Forall_cons in Hall as [[Hcr Hlf] Hall]. cbn [V2.loop].
  by apply IH, V2_step_clean.
Qed.

Lemma readlines_all_clean text :
  Forall (fun line => (CR ∉ rstrip_nl line) /\ (LF ∉ rstrip_nl line))
    (readlines text).
Proof. apply Forall_forall. intros line. apply readlines_clean. Qed.

(** X15: what the tables of a file hold.  For every text, in both
    analyzers: every key of the table of definitions and of the usage table
    is a reference id (the sigil and at least one id character), every
    count of the usage table is positive, and the content of a definition
    holds neither a line feed nor a carriage return (it is displayed on one
    line, and the replacement of carriage returns in the table of the most
    used variables never applies to it). *)
Theorem tables_are_clean size text :
  (forall var content,
     V1.defined_vars (V1.analyze_patch U size text) !! var = Some content ->
     reference_id U var /\ (LF ∉ content) /\ (CR ∉ content))
  /\ (forall var n,
        V1.used_vars_count (V1.analyze_patch U size text) !! var = Some n ->
        reference_id U var /\ 0 < n)
  /\ (forall var content,
        V2.defined_vars (V2.analyze_patch U size text) !! var = Some content ->
        reference_id U var /\ (LF ∉ content) /\ (CR ∉ content))
  /\ (forall var n,
        V2.used_vars_count (V2.analyze_patch U size text) !! var = Some n ->
        reference_id U var /\ 0 < n).
Proof.
  destruct (V1_loop_clean (readlines text) 0 (V1.init size)
              (readlines_all_clean text)) as [H1 H2];
    [split; apply map_Forall_empty|].
  destruct (V2_loop_clean (readlines text) 0 (V2.init size)
              (readlines_all_clean text)) as [H3 H4];
    [split; apply map_Forall_empty|].
  split; [|split; [|split]]; intros var x Hv.
  - apply (H1 var x Hv).
  - apply (H2 var x Hv).
  - apply (H3 var x Hv).
  - apply (H4 var x Hv).
Qed.

(** X16: the report of a file stays within the file.  [text] is the
    decoded content of a file, whose size in bytes is therefore the size of
    the encoding of [text].  In both analyzers the recorded size is that
    size, the total syntax overhead lies between 0 and it, and so do the
    sizes of the definition, command and other lines taken together (with
    the byte of the marker line); the overhead percentage is printed, and
    lies between 0 and 100, exactly when the file is not empty. *)
Theorem report_within_file text :
  (V1.stats (V1.analyze_patch U (utf8_len text) text) V1.total_size_b
     = utf8_len text
   /\ 0 <= V1.total_overhead (V1.analyze_patch U (utf8_len text) text)
        <= utf8_len text
   /\ (if V1.compression_flag (V1.analyze_patch U (utf8_len text) text)
       then 1 else 0)
      + V1.stats (V1.analyze_patch U (utf8_len text) text) V1.definition_size_b
      + V1.stats (V1.analyze_patch U (utf8_len text) text) V1.command_size_b
      + V1.stats (V1.analyze_patch U (utf8_len text) text) V1.other_size_b
      <= utf8_len text
   /\ match V1.overhead_percent (V1.analyze_patch U (utf8_len text) text) with
      | Some p => text <> []
          /\ QArith_base.Qle (QArith_base.inject_Z 0) p
          /\ QArith_base.Qle p (QArith_base.inject_Z 100)
      | None => text = []
      end)
  /\ (V2.stats (V2.analyze_patch U (utf8_len text) text) V2.total_size_b
        = utf8_len text
      /\ 0 <= V2.total_overhead (V2.analyze_patch U (utf8_len text) text)
           <= utf8_len text
      /\ (if V2.compression_flag (V2.analyze_patch U (utf8_len text) text)
          then 1 else 0)
         + V2.stats (V2.analyze_patch U (utf8_len text) text) V2.definition_size_b
         + V2.stats (V2.analyze_patch U (utf8_len text) text) V2.command_size_b
         + V2.stats (V2.analyze_patch U (utf8_len text) text) V2.other_size_b
         <= utf8_len text
      /\ match V2.overhead_percent (V2.analyze_patch U (utf8_len text) text) with
         | Some p => text <> []
             /\ QArith_base.Qle (QArith_base.inject_Z 0) p
             /\ QArith_base.Qle p (QArith_base.inject_Z 100)
         | None => text = []
         end).
Proof.
  pose proof (readlines_bytes text) as Hbytes.
  pose proof (stripped_bytes_le (readlines text)) as Hstripped.
  assert (Hempty : 0 < utf8_len text <-> text <> []).
  { destruct text as [|c s]; [by split|]. split; [done|]. intros _.
    simpl. pose proof (utf8_len_chr_pos c). pose proof (utf8_len_nonneg s). lia. }
  pose proof (utf8_len_nonneg text) as Hnonneg.
  split.
  - unfold V1.analyze_patch, V1.overhead_percent.
    destruct (V1_loop_overhead U (readlines text) 0 (V1.init (utf8_len text)))
      as [H1 H2].
    destruct (V1_analyze_tally U (utf8_len text) (readlines text)) as [Ht _].
    unfold V1_tally in Ht. revert Ht.
    fold (V1.analyze_lines U (utf8_len text) (readlines text)) in *.
    fold (b2z (V1.compression_flag
                 (V1.analyze_lines U (utf8_len text) (readlines text)))).
    rewrite H1. simpl. keys. intros Ht.
    change (V1.total_overhead (V1.init (utf8_len text))) with 0 in H2.
    repeat split; try lia.
    destruct (Z.ltb_spec 0 (utf8_len text)) as [Hpos|Hle].
    + split; [by apply Hempty|]. apply percent_bounds; lia.
    + destruct text as [|c s]; [done|]. exfalso.
      assert (0 < utf8_len (c :: s)) by by apply Hempty. lia.
  - unfold V2.analyze_patch, V2.overhead_percent.
    destruct (V2_loop_overhead U (readlines text) 0 (V2.init (utf8_len text)))
      as [H1 H2].
    destruct (V2_analyze_tally U (utf8_len text) (readlines text)) as [Ht _].
    unfold V2_tally in Ht. revert Ht.
    fold (V2.analyze_lines U (utf8_len text) (readlines text)) in *.
    fold (b2z (V2.compression_flag
                 (V2.analyze_lines U (utf8_len text) (readlines text)))).
    rewrite H1. simpl. keys. intros Ht.
    change (V2.total_overhead (V2.init (utf8_len text))) with 0 in H2.
    repeat split; try lia.
    destruct (Z.ltb_spec 0 (utf8_len text)) as [Hpos|Hle].
    + split; [by apply Hempty|]. apply percent_bounds; lia.
    + destruct text as [|c s]; [done|]. exfalso.
      assert (0 < utf8_len (c :: s)) by by apply Hempty. lia.
Qed.

End FromText.

Lemma tables_are_clean_witness :
  reference_id ascii_only (py "@x") /\ (LF ∉ py "hello") /\ (CR ∉ py "hello").
Proof.
  refine (proj1 (tables_are_clean ascii_only 21 scenario_A)
            (py "@x") (py "hello") _).
  vm_compute. reflexivity.
Defined.

(** ** The classification that the report reads (C2) *)

Section Classification.
Context (U : unicode).

Lemma buckets_grow_step n line st :
  V2.full_line_vars st ⊆ V2.full_line_vars (V2.step U n line st)
  /\ V2.fragment_vars st ⊆ V2.fragment_vars (V2.step U n line st).
Proof.
  destruct (V2_step_turn U n line st) as (_ & _ & _ & _ & _ & Hb & _).
  pose proof (f_equal fst Hb) as Hfull. pose proof (f_equal snd Hb) as Hfrag.
  cbn [fst snd] in Hfull, Hfrag. rewrite Hfull, Hfrag.
  unfold V2_buckets.
  destruct (V2_turn U n line st); try done.
  - destruct (def_regex U _) as [[var content]|]; [|done].
    destruct (_ && _); cbn [fst snd]; split; try done; apply union_subseteq_r.
  - destruct (V2.def_regex_no_content U _) as [var|]; [|done].
    cbn [fst snd]. split; [done|apply union_subseteq_r].
Qed.

Lemma bucket_of_content_step n line st :
  bucket_of_content U st -> bucket_of_content U (V2.step U n line st).
Proof.
  intros Hinv var content.
  destruct (buckets_grow_step n line st) as [Hgf Hgg].
  assert (Hold : V2.defined_vars st !! var = Some content ->
    if heuristic U content then var ∈ V2.full_line_vars (V2.step U n line st)
    else var ∈ V2.fragment_vars (V2.step U n line st)).
  { intros Hv. specialize (Hinv var content Hv).
    destruct (heuristic U content); [by apply Hgf | by apply Hgg]. }
  destruct (V2_step_turn U n line st) as (_ & _ & Hd & _ & _ & Hb & _).
  pose proof (V2_turn_spec U n line st) as Ht.
  pose proof (f_equal fst Hb) as Hfull. pose proof (f_equal snd Hb) as Hfrag.
  cbn [fst snd] in Hfull, Hfrag. clear Hb. rewrite Hd.
  unfold V2_defines. unfold V2_buckets in Hfull, Hfrag.
  destruct (V2_turn U n line st); try done.
  - destruct Ht as (_ & v & c & Hdef). rewrite Hdef in *.
    destruct (decide (var = v)) as [->|Hne].
    + rewrite lookup_insert_eq. intros [= <-].
      fold (heuristic U c) in Hfull, Hfrag. rewrite Hfull, Hfrag.
      destruct (heuristic U c); cbn [fst snd];
        apply elem_of_union_l; by apply elem_of_singleton.
    + by rewrite lookup_insert_ne.
  - destruct Ht as (_ & _ & v & Hdef). rewrite Hdef in *.
    destruct (decide (var = v)) as [->|Hne].
    + rewrite lookup_insert_eq. intros [= <-]. rewrite Hfrag.
      cbn [fst snd]. apply elem_of_union_l. by apply elem_of_singleton.
    + by rewrite lookup_insert_ne.
Qed.

Lemma bucket_of_content_loop lines : forall n st,
  bucket_of_content U st -> bucket_of_content U (V2.loop U n lines st).
Proof.
  induction lines as [|line lines IH]; intros n st H; simpl; [done|].
  by apply IH, bucket_of_content_step.
Qed.

End Classification.

(** C2 fails on the code.  On every file the bucket that matches the
    content an id has at the end holds the id: an id whose content has more
    than 5 characters and starts with a whitespace character or ends with a
    closing brace or a semicolon is in the full-line bucket, any other
    defined id is in the fragment bucket.  But the report reads the
    classification of an id as "in the full-line bucket", and an id stays in
    that bucket when it is defined again: "@x", defined with a full-line
    content and then without content, has the empty content at the end and
    is still reported as full-line, in the table of the most used variables
    too. *)
Theorem stale_full_line_classification (U : unicode) (size : Z) :
  (forall text var content,
     V2.defined_vars (V2.analyze_patch U size text) !! var = Some content ->
     (spec_full_line U content = true ->
      var ∈ V2.full_line_vars (V2.analyze_patch U size text))
     /\ (spec_full_line U content = false ->
         var ∈ V2.fragment_vars (V2.analyze_patch U size text)))
  /\ let st := V2.analyze_patch U size
       (py "@x  foo bar;" ++ [LF] ++ py "@x" ++ [LF] ++ py "1 a @x" ++ [LF]) in
     V2.defined_vars st !! py "@x" = Some []
     /\ spec_full_line U [] = false
     /\ py "@x" ∈ V2.full_line_vars st
     /\ map_to_list (V2.used_vars_count st) = [(py "@x", 1)]
     /\ V2.top10 [(py "@x", 1)] st
        = [ {| V2.row_rank := 1; V2.row_var_name := py "@x";
               V2.row_count := 1; V2.row_var_type := V2.FULL;
               V2.row_content_display := [] |} ].
Proof.
  split.
  - intros text var content Hv.
    destruct (V2_loop_clean U (readlines text) 0 (V2.init size)
                (readlines_all_clean text)) as [Hclean _];
      [split; apply map_Forall_empty|].
    destruct (Hclean var content Hv) as (_ & Hlf & _).
    assert (bucket_of_content U (V2.init size)) as Hinit.
    { intros v c Hc.
      change (@lookup _ _ (gmap (list N) (list N)) _ v ∅ = Some c) in Hc.
      by rewrite lookup_empty in Hc. }
    pose proof (bucket_of_content_loop U (readlines text) 0 _ Hinit
                  var content Hv) as H.
    unfold heuristic in H. rewrite (full_line_heuristic_spec U content Hlf) in H.
    split; intros Hs; by rewrite Hs in H.
  - cbv zeta.
    assert (V2.full_line_vars (V2.analyze_patch U size
              (py "@x  foo bar;" ++ [LF] ++ py "@x" ++ [LF] ++ py "1 a @x" ++ [LF]))
            = {[ py "@x" ]}) as Hfull by (vm_compute; reflexivity).
    split; [vm_compute; reflexivity|]. split; [reflexivity|].
    split; [rewrite Hfull; by apply elem_of_singleton|].
    split; vm_compute; reflexivity.
Qed.

(** ** The table of the most used variables *)

Section Top.

Lemma insert_item_perm item sorted : insert_item item sorted ≡ₚ item :: sorted.
Proof.
  induction sorted as [|other rest IH]; simpl; [done|].
  destruct (snd other <=? snd item); [done|].
  rewrite IH. apply Permutation_swap.
Qed.

Lemma sorted_usage_perm items : sorted_usage items ≡ₚ items.
Proof.
  induction items as [|item items IH]; simpl; [done|].
  by rewrite insert_item_perm, IH.
Qed.


Lemma descending_cons item items :
  descending (item :: items) <->
  Forall (fun other => snd other <= snd item) items /\ descending items.
Proof.
  split.
  - intros H. split.
    + apply Forall_forall. intros other [j Hj]%list_elem_of_lookup_1.
      apply (H 0%nat (S j) item other); [lia|done|done].
    + intros i j a b Hij Ha Hb. apply (H (S i) (S j)); [lia|done|done].
  - intros [Hall H] i j a b Hij Ha Hb.
    destruct i as [|i], j as [|j]; simpl in *; try lia.
    + injection Ha as <-. injection Hb as <-. lia.
    + injection Ha as <-. rewrite Forall_forall in Hall.
      apply Hall. by eapply list_elem_of_lookup_2.
    + apply (H i j); [lia|done|done].
Qed.

Lemma insert_item_descending item sorted :
  descending sorted -> descending (insert_item item sorted).
Proof.
  induction sorted as [|other rest IH]; intros H; simpl.
  - apply descending_cons. split; [done|]. by intros i j a b _ ?.
  - apply descending_cons in H as [Hall H].
    destruct (Z.leb_spec (snd other) (snd item)) as [Hle|Hlt].
    + apply descending_cons. split.
      * constructor; [done|].
        apply (Forall_impl _ _ _ Hall). intros x Hx. lia.
      * by apply descending_cons.
    + apply descending_cons. split; [|by apply IH].
      rewrite insert_item_perm. constructor; [lia|done].
Qed.

Lemma sorted_usage_descending items : descending (sorted_usage items).
Proof.
  induction items as [|item items IH]; simpl.
  - by intros i j a b _ ?.
  - by apply insert_item_descending.
Qed.

Lemma insert_item_filter (c : Z) item sorted :
  filter (fun it => snd it = c) (insert_item item sorted)
  = filter (fun it => snd it = c) (item :: sorted).
Proof.
  induction sorted as [|other rest IH]; simpl; [done|].
  destruct (Z.leb_spec (snd other) (snd item)) as [Hle|Hlt]; [done|].
  rewrite !filter_cons in *.
  destruct (decide (snd other = c)) as [Ho|Ho],
           (decide (snd item = c)) as [Hi|Hi]; try lia; by rewrite IH.
Qed.

Lemma sorted_usage_stable (c : Z) items :
  filter (fun it => snd it = c) (sorted_usage items)
  = filter (fun it => snd it = c) items.
Proof.
  induction items as [|item items IH]; simpl; [done|].
  rewrite insert_item_filter, !filter_cons, IH. done.
Qed.

(** X17: the table shows the most used variables.  The sorted list holds
    the items of the usage table (it is a rearrangement of them), by
    decreasing count, and items of equal count stand in it in the order
    they have in the table.  In both reports the table has one row for each
    of the first 10 items of the sorted list (for all of them if they are
    fewer), numbered from 1, showing the id and the count of the item; so
    no item left out has a larger count than an item shown. *)
Theorem top10_most_used (items : list (list N * Z)) :
  sorted_usage items ≡ₚ items
  /\ (forall (i j : nat) a b, (i <= j)%nat ->
        sorted_usage items !! i = Some a -> sorted_usage items !! j = Some b ->
        snd b <= snd a)
  /\ (forall c : Z,
        filter (fun item => snd item = c) (sorted_usage items)
        = filter (fun item => snd item = c) items)
  /\ (forall st,
        length (V1.top10 items st) = min 10 (length items)
        /\ forall (i : nat) row, V1.top10 items st !! i = Some row ->
             V1.row_rank row = Z.of_nat i + 1
             /\ sorted_usage items !! i
                = Some (V1.row_var_name row, V1.row_count row)
             /\ forall (j : nat) item, (10 <= j)%nat ->
                  sorted_usage items !! j = Some item ->
                  snd item <= V1.row_count row)
  /\ (forall st,
        length (V2.top10 items st) = min 10 (length items)
        /\ forall (i : nat) row, V2.top10 items st !! i = Some row ->
             V2.row_rank row = Z.of_nat i + 1
             /\ sorted_usage items !! i
                = Some (V2.row_var_name row, V2.row_count row)
             /\ V2.row_var_type row
                = (if bool_decide (V2.row_var_name row ∈ V2.full_line_vars st)
                   then V2.FULL else V2.FRAG)
             /\ forall (j : nat) item, (10 <= j)%nat ->
                  sorted_usage items !! j = Some item ->
                  snd item <= V2.row_count row).
Proof.
  pose proof (sorted_usage_descending items) as Hdesc.
  assert (Hlen : length (take 10 (sorted_usage items)) = min 10 (length items)).
  { rewrite length_take. by rewrite (Permutation_length (sorted_usage_perm items)). }
  split; [apply sorted_usage_perm|]. split; [exact Hdesc|].
  split; [intros c; apply sorted_usage_stable|]. split.
  - intros st. unfold V1.top10. split; [by rewrite length_imap|].
    intros i row Hrow. rewrite list_lookup_imap in Hrow.
    destruct (take 10 (sorted_usage items) !! i) as [[var count]|] eqn:E;
      [|done].
    injection Hrow as <-. simpl. split; [done|].
    pose proof (lookup_lt_Some _ _ _ E) as Hi. rewrite length_take in Hi.
    rewrite lookup_take_lt in E by lia. split; [done|].
    intros j item Hj Hitem. apply (Hdesc i j (var, count) item); [lia|done|done].
  - intros st. unfold V2.top10. split; [by rewrite length_imap|].
    intros i row Hrow. rewrite list_lookup_imap in Hrow.
    destruct (take 10 (sorted_usage items) !! i) as [[var count]|] eqn:E;
      [|done].
    injection Hrow as <-. simpl. split; [done|].
    pose proof (lookup_lt_Some _ _ _ E) as Hi. rewrite length_take in Hi.
    rewrite lookup_take_lt in E by lia. split; [done|]. split; [done|].
    intros j item Hj Hitem. apply (Hdesc i j (var, count) item); [lia|done|done].
Qed.


Lemma display_flat_map s :
  replace_chr CR (BACKSLASH :: py "r") (replace_chr TAB (BACKSLASH :: py "t") s)
  = flat_map display_chr s.
Proof.
  unfold replace_chr. induction s as [|c s IH]; [done|]. simpl.
  rewrite flat_map_app, IH. f_equal. unfold display_chr.
  destruct (N.eqb_spec c TAB) as [->|Hc]; [done|]. simpl.
  by rewrite app_nil_r.
Qed.

Lemma display_chr_clean c : (TAB ∉ display_chr c) /\ (CR ∉ display_chr c).
Proof.
  unfold display_chr.
  destruct (N.eqb_spec c TAB) as [->|Ht];
    [split; intros H; repeat (apply elem_of_cons in H as [H|H]; [done|]);
       by apply elem_of_nil in H|].
  destruct (N.eqb_spec c CR) as [->|Hc];
    [split; intros H; repeat (apply elem_of_cons in H as [H|H]; [done|]);
       by apply elem_of_nil in H|].
  split; intros H; apply list_elem_of_singleton in H; congruence.
Qed.

Lemma display_clean s :
  (TAB ∉ flat_map display_chr s) /\ (CR ∉ flat_map display_chr s).
Proof.
  induction s as [|c s [IH1 IH2]]; simpl;
    [split; apply not_elem_of_nil|].
  destruct (display_chr_clean c) as [H1 H2].
  split; intros [H|H]%elem_of_app; done.
Qed.

Lemma display_length s : len (flat_map display_chr s) <= 2 * len s.
Proof.
  unfold len. induction s as [|c s IH]; simpl; [lia|].
  rewrite length_app. unfold display_chr at 1.
  destruct (c =? TAB)%N; [simpl; lia|]. destruct (c =? CR)%N; simpl; lia.
Qed.

Lemma display_id s : (TAB ∉ s) -> (CR ∉ s) -> flat_map display_chr s = s.
Proof.
  induction s as [|c s IH]; [done|].
  intros [Ht Hts]%not_elem_of_cons [Hc Hcs]%not_elem_of_cons. simpl.
  rewrite IH by done. unfold display_chr.
  destruct (N.eqb_spec c TAB); [congruence|].
  by destruct (N.eqb_spec c CR); [congruence|].
Qed.

(** X18: what the table displays of a content.  The displayed content
    holds no tab and no carriage return, and at most 83 characters: at most
    40 characters of the content, each tab and each carriage return among
    them written as two characters, and the three dots when the content is
    longer.  A content of at most 40 characters without tab and carriage
    return is displayed as it is; one of more than 40 characters is
    displayed as its first 40 characters, so written, and three dots. *)
Theorem content_display_is_one_line (content : list N) :
  (TAB ∉ content_display content)
  /\ (CR ∉ content_display content)
  /\ len (content_display content) <= 83
  /\ (len content <= 40 -> (TAB ∉ content) -> (CR ∉ content) ->
      content_display content = content)
  /\ (40 < len content ->
      content_display content
      = content_display (take 40 content) ++ py "..."
      /\ len (content_display (take 40 content)) <= 80).
Proof.
  assert (Hshort : forall s, len s <= 40 ->
            content_display s = flat_map display_chr s).
  { intros s Hs. unfold content_display.
    destruct (Z.ltb_spec 40 (len s)); [lia|]. apply display_flat_map. }
  assert (Htake : len (take 40 content) <= 40)
    by (unfold len; rewrite length_take; lia).
  assert (Hlong : 40 < len content ->
            content_display content
            = flat_map display_chr (take 40 content) ++ py "...").
  { intros Hl. unfold content_display.
    destruct (Z.ltb_spec 40 (len content)); [|lia].
    by rewrite display_flat_map, flat_map_app. }
  pose proof (display_clean content) as [Ht Hc].
  pose proof (display_clean (take 40 content)) as [Ht' Hc'].
  pose proof (display_length content) as Hlen.
  pose proof (display_length (take 40 content)) as Hlen'.
  destruct (Z.ltb_spec 40 (len content)) as [Hl|Hs].
  - rewrite (Hlong Hl), (Hshort _ Htake).
    repeat split; try lia; try done.
    + intros [H|H]%elem_of_app; [done|].
      repeat (apply elem_of_cons in H as [H|H]; [done|]).
      by apply elem_of_nil in H.
    + intros [H|H]%elem_of_app; [done|].
      repeat (apply elem_of_cons in H as [H|H]; [done|]).
      by apply elem_of_nil in H.
    + unfold len in *. rewrite length_app. simpl. lia.
  - rewrite (Hshort _ Hs). repeat split; try lia; try done.
    intros _. apply display_id.
Qed.

End Top.

Lemma top10_most_used_witness :
  snd (py "@a", 1) <= snd (py "@b", 2).
Proof.
  refine (proj1 (proj2 (top10_most_used [(py "@a", 1); (py "@b", 2)]))
            0%nat 1%nat (py "@b", 2) (py "@a", 1) _ _ _).
  - lia.
  - reflexivity.
  - reflexivity.
Defined.

Lemma content_display_is_one_line_witness :
  content_display (py "hello") = py "hello".
Proof.
  refine (proj1 (proj2 (proj2 (proj2
            (content_display_is_one_line (py "hello"))))) _ _ _).
  - vm_compute. discriminate.
  - apply (bool_decide_unpack _). vm_compute. reflexivity.
  - apply (bool_decide_unpack _). vm_compute. reflexivity.
Defined.

(** ** How the lines end *)

Lemma rstrip_nl_idemp s : rstrip_nl (rstrip_nl s) = rstrip_nl s.
Proof.
  induction s as [|c s IH]; [done|]. simpl.
  destruct (rstrip_nl s) as [|d r] eqn:E.
  - destruct (N.eqb_spec c LF) as [->|Hc]; [done|].
    simpl. by destruct (N.eqb_spec c LF).
  - change (rstrip_nl (c :: d :: r))
      with (match rstrip_nl (d :: r) with
            | [] => if (c =? LF)%N then [] else [c]
            | r' => c :: r'
            end).
    by rewrite IH.
Qed.

Lemma universal_newlines_id s : CR ∉ s -> universal_newlines s = s.
Proof.
  induction s as [|c s IH]; [done|].
  intros [Hc Hs]%not_elem_of_cons. cbn [universal_newlines].
  destruct (N.eqb_spec c CR); [congruence|]. by rewrite IH.
Qed.

(** Unix line ends written the Windows way, and the old Macintosh way. *)
Lemma universal_newlines_crlf s :
  CR ∉ s -> universal_newlines (replace_chr LF [CR; LF] s) = s.
Proof.
  unfold replace_chr. induction s as [|c s IH]; [done|].
  intros [Hc Hs]%not_elem_of_cons. cbn [flat_map].
  destruct (N.eqb_spec c LF) as [->|Hlf].
  - change ([CR; LF] ++ ?l) with (CR :: LF :: l).
    change (universal_newlines (CR :: LF :: ?l))
      with (LF :: universal_newlines l). by rewrite IH.
  - cbn [app universal_newlines].
    destruct (N.eqb_spec c CR); [congruence|]. by rewrite IH.
Qed.

Lemma replace_LF_no_LF new s :
  LF ∉ new -> LF ∉ replace_chr LF new s.
Proof.
  intros Hnew. unfold replace_chr. induction s as [|c s IH];
    [apply not_elem_of_nil|].
  cbn [flat_map]. intros [H|H]%elem_of_app; [|done].
  destruct (N.eqb_spec c LF) as [->|Hc]; [done|].
  apply list_elem_of_singleton in H. congruence.
Qed.

Lemma universal_newlines_cr s :
  CR ∉ s -> universal_newlines (replace_chr LF [CR] s) = s.
Proof.
  unfold replace_chr. induction s as [|c s IH]; [done|].
  intros [Hc Hs]%not_elem_of_cons. cbn [flat_map].
  destruct (N.eqb_spec c LF) as [->|Hlf].
  - change ([CR] ++ ?l) with (CR :: l).
    pose proof (replace_LF_no_LF [CR] s) as Hno. unfold replace_chr in Hno.
    destruct (flat_map _ s) as [|d rest] eqn:E.
    + by rewrite <- (IH Hs).
    + change (universal_newlines (CR :: d :: rest))
        with (if (d =? LF)%N then universal_newlines (d :: rest)
              else LF :: universal_newlines (d :: rest)).
      destruct (N.eqb_spec d LF) as [->|Hd].
      * exfalso. apply Hno; [|left].
        intros H. apply list_elem_of_singleton in H. discriminate H.
      * by rewrite IH.
  - cbn [app universal_newlines].
    destruct (N.eqb_spec c CR); [congruence|]. by rewrite IH.
Qed.

(** A last line with and without its terminator. *)
Lemma readlines_aux_final s : forall cur,
  LF ∉ cur -> (s <> [] \/ cur <> []) -> last s <> Some LF ->
  map rstrip_nl (readlines_aux cur (s ++ [LF]))
  = map rstrip_nl (readlines_aux cur s).
Proof.
  induction s as [|c s IH]; intros cur Hcur Hne Hlast.
  - destruct Hne as [?|Hne]; [done|]. destruct cur as [|d cur]; [done|].
    cbn [app readlines_aux]. change (LF =? LF)%N with true. cbv iota.
    cbn [map readlines_aux]. f_equal.
    assert (LF ∉ rev (d :: cur)) as Hrev.
    { intros H. apply Hcur. by apply list_elem_of_In, in_rev, list_elem_of_In. }
    change (rev (LF :: d :: cur)) with (rev (d :: cur) ++ [LF]).
    by rewrite rstrip_nl_terminated, rstrip_nl_id.
  - cbn [app readlines_aux].
    destruct (N.eqb_spec c LF) as [->|Hc].
    + cbn [map]. f_equal. apply IH; [apply not_elem_of_nil| |].
      * left. intros ->. by apply Hlast.
      * destruct s; [done|]. by rewrite last_cons_cons in Hlast.
    + apply IH.
      * apply not_elem_of_cons. split; [congruence|done].
      * by right.
      * destruct s; [done|]. by rewrite last_cons_cons in Hlast.
Qed.

Lemma universal_newlines_cons c s :
  universal_newlines (c :: s)
  = if (c =? CR)%N then
      match s with
      | d :: _ => if (d =? LF)%N then universal_newlines s
                  else LF :: universal_newlines s
      | [] => [LF]
      end
    else c :: universal_newlines s.
Proof. reflexivity. Qed.

Lemma universal_newlines_snoc s :
  last s <> Some CR ->
  universal_newlines (s ++ [LF]) = universal_newlines s ++ [LF].
Proof.
  induction s as [|c s IH]; intros Hlast; [done|].
  assert (last s <> Some CR) as Hs.
  { destruct s; [done|]. by rewrite last_cons_cons in Hlast. }
  rewrite <- app_comm_cons, !universal_newlines_cons.
  destruct (N.eqb_spec c CR) as [->|Hc].
  - destruct s as [|d s]; [done|]. rewrite <- app_comm_cons.
    destruct (d =? LF)%N; [by rewrite <- IH | by rewrite app_comm_cons, IH].
  - by rewrite IH.
Qed.

Lemma universal_newlines_last s c :
  last s = Some c -> c <> CR -> last (universal_newlines s) = Some c.
Proof.
  induction s as [|d s IH]; intros Hlast Hc; [done|].
  rewrite universal_newlines_cons.
  destruct s as [|e s].
  - injection Hlast as ->. by destruct (N.eqb_spec c CR).
  - rewrite last_cons_cons in Hlast. specialize (IH Hlast Hc).
    destruct (N.eqb_spec d CR) as [->|Hd].
    + destruct (e =? LF)%N; [done|].
      destruct (universal_newlines (e :: s)) eqn:E; [done|].
      by rewrite last_cons_cons.
    + destruct (universal_newlines (e :: s)) eqn:E; [done|].
      by rewrite last_cons_cons.
Qed.

Section LineEnds.
Context (U : unicode).

Lemma V1_step_stripped n line st :
  V1.step U n (rstrip_nl line) st = V1.step U n line st.
Proof. unfold V1.step. by rewrite rstrip_nl_idemp. Qed.

Lemma V2_step_stripped n line st :
  V2.step U n (rstrip_nl line) st = V2.step U n line st.
Proof. unfold V2.step. by rewrite rstrip_nl_idemp. Qed.

(** The loops see the lines without their terminators. *)
Lemma V1_loop_stripped lines : forall n st,
  V1.loop U n (map rstrip_nl lines) st = V1.loop U n lines st.
Proof.
  induction lines as [|line lines IH]; intros n st; simpl; [done|].
  by rewrite V1_step_stripped, IH.
Qed.

Lemma V2_loop_stripped lines : forall n st,
  V2.loop U n (map rstrip_nl lines) st = V2.loop U n lines st.
Proof.
  induction lines as [|line lines IH]; intros n st; simpl; [done|].
  by rewrite V2_step_stripped, IH.
Qed.

(** X19: the way the lines of the file end does not matter.  A text with
    the line ends of Unix, the same text with each line end written the
    Windows way (carriage return, line feed) and the same text with each
    line end written as a lone carriage return are analyzed alike by both
    analyzers: for one recorded file size the final states are equal. *)
Theorem line_ends_do_not_matter size text :
  CR ∉ text ->
  V1.analyze_patch U size (replace_chr LF [CR; LF] text)
  = V1.analyze_patch U size text
  /\ V1.analyze_patch U size (replace_chr LF [CR] text)
     = V1.analyze_patch U size text
  /\ V2.analyze_patch U size (replace_chr LF [CR; LF] text)
     = V2.analyze_patch U size text
  /\ V2.analyze_patch U size (replace_chr LF [CR] text)
     = V2.analyze_patch U size text.
Proof.
  intros Hcr. unfold V1.analyze_patch, V2.analyze_patch, readlines.
  by rewrite universal_newlines_crlf, universal_newlines_cr,
    universal_newlines_id.
Qed.

(** X20: a final line terminator does not matter.  A text that ends with
    a character other than a line feed or a carriage return, and the same
    text with a line feed added at its end, are analyzed alike by both
    analyzers: for one recorded file size the final states are equal. *)
Theorem final_terminator_does_not_matter size text c :
  last text = Some c -> c <> LF -> c <> CR ->
  V1.analyze_patch U size (text ++ [LF]) = V1.analyze_patch U size text
  /\ V2.analyze_patch U size (text ++ [LF]) = V2.analyze_patch U size text.
Proof.
  intros Hlast Hlf Hcr.
  assert (map rstrip_nl (readlines (text ++ [LF]))
          = map rstrip_nl (readlines text)) as Hlines.
  { unfold readlines. rewrite universal_newlines_snoc by (rewrite Hlast; congruence).
    pose proof (universal_newlines_last text c Hlast Hcr) as Hl.
    apply readlines_aux_final; [apply not_elem_of_nil| |].
    - left. intros E. by rewrite E in Hl.
    - rewrite Hl. congruence. }
  unfold V1.analyze_patch, V2.analyze_patch, V1.analyze_lines, V2.analyze_lines.
  rewrite <- (V1_loop_stripped (readlines (text ++ [LF]))),
          <- (V2_loop_stripped (readlines (text ++ [LF]))), Hlines.
  by rewrite V1_loop_stripped, V2_loop_stripped.
Qed.

End LineEnds.

Lemma line_ends_do_not_matter_witness :
  V2.analyze_patch ascii_only 24 (replace_chr LF [CR; LF] scenario_A)
  = V2.analyze_patch ascii_only 24 scenario_A.
Proof.
  refine (proj1 (proj2 (proj2 (line_ends_do_not_matter ascii_only 24
                                 scenario_A _)))).
  apply (bool_decide_unpack _). vm_compute. reflexivity.
Defined.

Lemma final_terminator_does_not_matter_witness :
  V1.analyze_patch ascii_only 4 (py "1 a" ++ [LF])
  = V1.analyze_patch ascii_only 4 (py "1 a").
Proof.
  refine (proj1 (final_terminator_does_not_matter ascii_only 4 (py "1 a") 97%N
                   _ _ _)).
  - reflexivity.
  - discriminate.
  - discriminate.
Defined.

(** ** Instances *)

(** C3 at work: after the command "1 a x" the v2 analyzer records nothing for
    the line "@x hello". *)
Lemma definitions_precede_commands_witness :
  V2.parsing_definitions (V2.step ascii_only 0 (py "1 a x") (V2.init 0)) = false
  /\ V2.defined_vars
       (V2.loop ascii_only 1 [py "@x hello"]
          (V2.step ascii_only 0 (py "1 a x") (V2.init 0)))
     = V2.defined_vars (V2.step ascii_only 0 (py "1 a x") (V2.init 0)).
Proof.
  destruct (definitions_precede_commands ascii_only) as (H1 & H2 & _).
  pose proof (H1 0%nat (py "1 a x") (V2.init 0) eq_refl eq_refl eq_refl) as Hp.
  destruct (H2 [py "@x hello"] 1%nat _ Hp) as (_ & Hd & _).
  split; [exact Hp | exact Hd].
Defined.

(** C5 at work: after the header "1 A+ 2" the lines "@x foo" and "zzz" are
    block lines, and the analyzer is back at the top level after them. *)
Lemma block_regions_witness :
  V1.in_block
    (V1.loop ascii_only 1 [py "@x foo"; py "zzz"]
       (V1.step ascii_only 0 (py "1 A+ 2") (V1.init 0))) = false
  /\ V1.stats
       (V1.loop ascii_only 1 [py "@x foo"; py "zzz"]
          (V1.step ascii_only 0 (py "1 A+ 2") (V1.init 0))) V1.definition_lines
     = V1.stats (V1.step ascii_only 0 (py "1 A+ 2") (V1.init 0))
         V1.definition_lines.
Proof.
  destruct (block_regions ascii_only) as (H1 & _).
  destruct (H1 0%nat (py "1 A+ 2") (V1.init 0) (py "1") (py "A+") (py "2")
              [py "@x foo"; py "zzz"] eq_refl eq_refl eq_refl)
    as (_ & Hb & _ & _ & Hd & _).
  split; [exact Hb | exact Hd].
Defined.

(** C10 at work: the definition "@b @a" adds no usage of "@a". *)
Lemma definitions_are_not_usages_witness :
  V2.used_vars_count (V2.step ascii_only 0 (py "@b @a") (V2.init 0))
  = V2.used_vars_count (V2.init 0).
Proof.
  destruct (definitions_are_not_usages ascii_only) as (_ & H2 & _).
  assert (V2.stats (V2.step ascii_only 0 (py "@b @a") (V2.init 0))
            V2.definition_lines
          <> V2.stats (V2.init 0) V2.definition_lines) as Hne
    by (vm_compute; discriminate).
  exact (proj1 (H2 0%nat (py "@b @a") (V2.init 0) Hne)).
Defined.
